(** * TdlpackIO: indexing and random access for TDLPACK sequential files

    A shallow embedding of [TdlpackIO.py] (class [open]): the index built by
    [_get_index] over the Fortran-framed byte stream, and the access methods
    [seek], [read], [record] and [fetch] that run on that index.

    The Python object is a record threaded through a state-and-exception
    monad: a raised exception carries the object as it was when the exception
    left the method, since Python's mutations are not rolled back.

    [TdlpackIO.py] selects its imports with [_IS_PYTHON3], while [pytdlpack.py]
    is Python 2 code; the few places where the two interpreters differ
    (ordering [None] against numbers, [read] with a negative size, the default
    codec of [bytes.decode]) are decided by the flag [py3]. *)

From Stdlib Require Import String Ascii Strings.Byte DecimalString.
From Stdlib Require Import ZArith List Bool Lia Sorted.
From Stdlib Require DecimalFacts DecimalPos.
Import ListNotations.
Open Scope Z_scope.

Module TdlpackIO.

(** ** Exceptions, outcomes and the monad *)

Inductive exn : Type :=
| struct_error                (* struct.error *)
| IndexError
| ValueError
| TypeError
| UnicodeDecodeError
| UnboundLocalError
| IOError (msg : string).

(** [NoFuel] is not a Python outcome: it marks a loop cut by the fuel of the
    model ([open_never_runs_out] shows that [open] never yields it). *)
Inductive outcome (A : Type) : Type :=
| Ret (a : A)
| Raise (e : exn)
| NoFuel.

Arguments Ret {A} a.
Arguments Raise {A} e.
Arguments NoFuel {A}.

(** ** Bytes and 32-bit words *)

Definition byte_val (b : byte) : Z := Z.of_N (Byte.to_N b).

Definition byte_of_Z (z : Z) : byte :=
  match Byte.of_N (Z.to_N (z mod 256)) with
  | Some b => b
  | None => x00
  end.

(** The signed value of four big-endian bytes (format ['>i'], dtype ['>i4']). *)
Definition be_i32 (a b c d : byte) : Z :=
  let u := ((byte_val a * 256 + byte_val b) * 256 + byte_val c) * 256 + byte_val d in
  if u <? 2 ^ 31 then u else u - 2 ^ 32.

(** [struct.pack('>i', v)]: used to write the frames of example files. *)
Definition pack_i (v : Z) : list byte :=
  let u := v mod 2 ^ 32 in
  [byte_of_Z (u / 2 ^ 24); byte_of_Z (u / 2 ^ 16); byte_of_Z (u / 2 ^ 8); byte_of_Z u].

(** [struct.unpack('>i', bs)[0]]: anything but four bytes is a [struct.error]. *)
Definition struct_unpack_i (bs : list byte) : outcome Z :=
  match bs with
  | [a; b; c; d] => Ret (be_i32 a b c d)
  | _ => Raise struct_error
  end.

Fixpoint words (bs : list byte) : list Z :=
  match bs with
  | a :: b :: c :: d :: rest => be_i32 a b c d :: words rest
  | _ => []
  end.

(** [np.frombuffer(bs, dtype='>i4')]: the buffer must hold whole elements. *)
Definition np_frombuffer (bs : list byte) : outcome (list Z) :=
  if Z.of_nat (length bs) mod 4 =? 0 then Ret (words bs) else Raise ValueError.

(** The buffer of a NumPy scalar taken out of the array: scalars are stored in
    the byte order of the host, and the literal ['PLDT'] that the source
    compares with (the file holds ["TDLP"]) is the one of a little-endian
    host. *)
Definition scalar_buffer (v : Z) : list byte :=
  let u := v mod 2 ^ 32 in
  [byte_of_Z u; byte_of_Z (u / 2 ^ 8); byte_of_Z (u / 2 ^ 16); byte_of_Z (u / 2 ^ 24)].

Definition is_cont (b : byte) : bool := (128 <=? byte_val b) && (byte_val b <=? 191).

(** Well-formed UTF-8, as the strict codec of Python 3 accepts it. *)
Fixpoint utf8_valid (bs : list byte) : bool :=
  match bs with
  | [] => true
  | a :: t1 =>
    let x := byte_val a in
    if x <=? 127 then utf8_valid t1
    else if (194 <=? x) && (x <=? 223) then
      match t1 with
      | b :: t2 => is_cont b && utf8_valid t2
      | _ => false
      end
    else if (224 <=? x) && (x <=? 239) then
      match t1 with
      | b :: c :: t3 =>
        is_cont b && is_cont c
        && (if x =? 224 then 160 <=? byte_val b else true)
        && (if x =? 237 then byte_val b <=? 159 else true)
        && utf8_valid t3
      | _ => false
      end
    else if (240 <=? x) && (x <=? 244) then
      match t1 with
      | b :: c :: d :: t4 =>
        is_cont b && is_cont c && is_cont d
        && (if x =? 240 then 144 <=? byte_val b else true)
        && (if x =? 244 then byte_val b <=? 143 else true)
        && utf8_valid t4
      | _ => false
      end
    else false
  end.

Definition ascii_valid (bs : list byte) : bool :=
  forallb (fun b => byte_val b <=? 127) bs.

Definition bytes_eqb (x y : list byte) : bool :=
  if list_eq_dec Byte.byte_eq_dec x y then true else false.

(** The encoding of the text ['PLDT']. *)
Definition PLDT : list byte := [x50; x4c; x44; x54].

(** ** Python lists *)

(** [l[i]]: a negative index counts from the end. *)
Definition py_index {A : Type} (l : list A) (i : Z) : outcome A :=
  let n := Z.of_nat (length l) in
  let j := if i <? 0 then i + n else i in
  if (0 <=? j) && (j <? n) then
    match nth_error l (Z.to_nat j) with
    | Some a => Ret a
    | None => Raise IndexError
    end
  else Raise IndexError.

(** [list(range(a, b))] *)
Definition py_range (a b : Z) : list Z :=
  map (fun k => a + Z.of_nat k) (seq 0 (Z.to_nat (b - a))).

(** [int(str(v)[-3:])] for a NumPy integer [v]. *)
Definition last3 (s : string) : string :=
  substring (String.length s - 3) 3 s.

Definition int_of_last3 (v : Z) : outcome Z :=
  match NilZero.int_of_string (last3 (NilZero.string_of_int (Z.to_int v))) with
  | Some d => Ret (Z.of_int d)
  | None => Raise ValueError
  end.

(** ** Sorting a set *)

Fixpoint insert_uniq (x : Z) (l : list Z) : list Z :=
  match l with
  | [] => [x]
  | y :: t =>
    if x <? y then x :: l
    else if x =? y then l
    else y :: insert_uniq x t
  end.

(** The distinct values of [l] in ascending order. *)
Definition sorted_set (l : list Z) : list Z := fold_right insert_uniq [] l.

Fixpoint somes (l : list (option Z)) : list Z :=
  match l with
  | [] => []
  | Some v :: t => v :: somes t
  | None :: t => somes t
  end.

Definition has_none (l : list (option Z)) : bool :=
  existsb (fun o => match o with None => true | Some _ => false end) l.

(** ** The object *)

Inductive kind : Type := data | station | trailer.

Definition kind_eqb (a b : kind) : bool :=
  match a, b with
  | data, data | station, station | trailer, trailer => true
  | _, _ => false
  end.

(** The dictionary [self._index]: one list per key. The lists grow one key at
    a time, so they need not have the same length. *)
Record index : Type := mk_index {
  offset : list Z;
  size : list Z;
  type : list kind;
  date : list (option Z);
  lead : list (option Z);
  id1 : list (option Z);
  id2 : list (option Z);
  id3 : list (option Z);
  id4 : list (option Z);
  linked_station_id_record : list Z
}.

(** The file object [self._fh], opened ['rb']. *)
Record file : Type := mk_file {
  contents : list byte;
  position : nat
}.

(** The attributes of an [open] object; [warned] is the list of the messages
    given to [warnings.warn] so far. [dates] and [leadtimes] exist once
    [_get_index] has returned. *)
Record handle : Type := mk_handle {
  _fh : file;
  _hasindex : bool;
  _index : index;
  records : Z;
  recordnumber : Z;
  dates : list (option Z);
  leadtimes : list (option Z);
  warned : list string
}.

Definition M (A : Type) : Type := handle -> outcome A * handle.

Definition ret {A : Type} (a : A) : M A := fun h => (Ret a, h).

Definition raise {A : Type} (e : exn) : M A := fun h => (Raise e, h).

Definition bind {A B : Type} (m : M A) (k : A -> M B) : M B :=
  fun h =>
    match m h with
    | (Ret a, h') => k a h'
    | (Raise e, h') => (Raise e, h')
    | (NoFuel, h') => (NoFuel, h')
    end.

Notation "x <- m ;; k" := (bind m (fun x => k))
  (at level 61, m at next level, right associativity).
Notation "m ;;; k" := (bind m (fun _ => k))
  (at level 61, right associativity).

Definition lift {A : Type} (o : outcome A) : M A := fun h => (o, h).

Definition gets {A : Type} (f : handle -> A) : M A := fun h => (Ret (f h), h).

Definition modify (f : handle -> handle) : M unit := fun h => (Ret tt, f h).

(** Attribute assignments. *)

Definition set_fh (f : file) (h : handle) : handle :=
  mk_handle f (_hasindex h) (_index h) (records h) (recordnumber h)
            (dates h) (leadtimes h) (warned h).

Definition set_hasindex (b : bool) (h : handle) : handle :=
  mk_handle (_fh h) b (_index h) (records h) (recordnumber h)
            (dates h) (leadtimes h) (warned h).

Definition set_index (ix : index) (h : handle) : handle :=
  mk_handle (_fh h) (_hasindex h) ix (records h) (recordnumber h)
            (dates h) (leadtimes h) (warned h).

Definition set_records (n : Z) (h : handle) : handle :=
  mk_handle (_fh h) (_hasindex h) (_index h) n (recordnumber h)
            (dates h) (leadtimes h) (warned h).

Definition set_recordnumber (n : Z) (h : handle) : handle :=
  mk_handle (_fh h) (_hasindex h) (_index h) (records h) n
            (dates h) (leadtimes h) (warned h).

Definition set_dates (d : list (option Z)) (h : handle) : handle :=
  mk_handle (_fh h) (_hasindex h) (_index h) (records h) (recordnumber h)
            d (leadtimes h) (warned h).

Definition set_leadtimes (d : list (option Z)) (h : handle) : handle :=
  mk_handle (_fh h) (_hasindex h) (_index h) (records h) (recordnumber h)
            (dates h) d (warned h).

(** [warnings.warn(msg)] *)
Definition add_warning (msg : string) (h : handle) : handle :=
  mk_handle (_fh h) (_hasindex h) (_index h) (records h) (recordnumber h)
            (dates h) (leadtimes h) (warned h ++ [msg]).

Definition warn (msg : string) : M unit := modify (add_warning msg).

(** [self._index[key].append(v)], key by key. *)

Definition append_offset (v : Z) : M unit :=
  modify (fun h => let i := _index h in set_index
    (mk_index (offset i ++ [v]) (size i) (type i) (date i) (lead i)
              (id1 i) (id2 i) (id3 i) (id4 i) (linked_station_id_record i)) h).

Definition append_size (v : Z) : M unit :=
  modify (fun h => let i := _index h in set_index
    (mk_index (offset i) (size i ++ [v]) (type i) (date i) (lead i)
              (id1 i) (id2 i) (id3 i) (id4 i) (linked_station_id_record i)) h).

Definition append_type (v : kind) : M unit :=
  modify (fun h => let i := _index h in set_index
    (mk_index (offset i) (size i) (type i ++ [v]) (date i) (lead i)
              (id1 i) (id2 i) (id3 i) (id4 i) (linked_station_id_record i)) h).

Definition append_date (v : option Z) : M unit :=
  modify (fun h => let i := _index h in set_index
    (mk_index (offset i) (size i) (type i) (date i ++ [v]) (lead i)
              (id1 i) (id2 i) (id3 i) (id4 i) (linked_station_id_record i)) h).

Definition append_lead (v : option Z) : M unit :=
  modify (fun h => let i := _index h in set_index
    (mk_index (offset i) (size i) (type i) (date i) (lead i ++ [v])
              (id1 i) (id2 i) (id3 i) (id4 i) (linked_station_id_record i)) h).

Definition append_id1 (v : option Z) : M unit :=
  modify (fun h => let i := _index h in set_index
    (mk_index (offset i) (size i) (type i) (date i) (lead i)
              (id1 i ++ [v]) (id2 i) (id3 i) (id4 i) (linked_station_id_record i)) h).

Definition append_id2 (v : option Z) : M unit :=
  modify (fun h => let i := _index h in set_index
    (mk_index (offset i) (size i) (type i) (date i) (lead i)
              (id1 i) (id2 i ++ [v]) (id3 i) (id4 i) (linked_station_id_record i)) h).

Definition append_id3 (v : option Z) : M unit :=
  modify (fun h => let i := _index h in set_index
    (mk_index (offset i) (size i) (type i) (date i) (lead i)
              (id1 i) (id2 i) (id3 i ++ [v]) (id4 i) (linked_station_id_record i)) h).

Definition append_id4 (v : option Z) : M unit :=
  modify (fun h => let i := _index h in set_index
    (mk_index (offset i) (size i) (type i) (date i) (lead i)
              (id1 i) (id2 i) (id3 i) (id4 i ++ [v]) (linked_station_id_record i)) h).

Definition append_linked_station_id_record (v : Z) : M unit :=
  modify (fun h => let i := _index h in set_index
    (mk_index (offset i) (size i) (type i) (date i) (lead i)
              (id1 i) (id2 i) (id3 i) (id4 i) (linked_station_id_record i ++ [v])) h).

(** ** The file object *)

Section Methods.

(** [py3]: the interpreter is Python 3 ([_IS_PYTHON3]). *)
Variable py3 : bool.

(** [self._fh.tell()] *)
Definition fh_tell : M Z := gets (fun h => Z.of_nat (position (_fh h))).

(** [self._fh.read(n)]: up to [n] bytes from the current position; a negative
    [n] reads to the end of the file (Python 3 accepts only [-1]). *)
Definition fh_read (n : Z) : M (list byte) :=
  fun h =>
    let f := _fh h in
    let rest := skipn (position f) (contents f) in
    if py3 && (n <? -1) then (Raise ValueError, h)
    else
      let got := if n <? 0 then rest else firstn (Z.to_nat n) rest in
      (Ret got, set_fh (mk_file (contents f) (position f + length got)) h).

(** [self._fh.seek(off)] and [self._fh.seek(off, 1)]; the position may pass
    the end of the file, it may not become negative. *)
Definition fh_seek_to (target : Z) : M unit :=
  fun h =>
    if target <? 0 then (Raise (IOError "Invalid argument"), h)
    else (Ret tt, set_fh (mk_file (contents (_fh h)) (Z.to_nat target)) h).

Definition fh_seek (off : Z) : M unit := fh_seek_to off.

Definition fh_seek_cur (off : Z) : M unit :=
  pos <- fh_tell ;; fh_seek_to (pos + off).

(** [bs.decode()]: the text is represented by its encoding. *)
Definition decode (bs : list byte) : outcome (list byte) :=
  if (if py3 then utf8_valid bs else ascii_valid bs) then Ret bs
  else Raise UnicodeDecodeError.

(** [tuple(sorted(set(col)))] for a column of numbers and [None]s. Python 2
    orders [None] before every number; Python 3 refuses to compare them. *)
Definition py_sorted_set (col : list (option Z)) : outcome (list (option Z)) :=
  let vs := sorted_set (somes col) in
  if has_none col then
    match vs with
    | [] => Ret [None]
    | _ :: _ => if py3 then Raise TypeError else Ret (None :: map Some vs)
    end
  else Ret (map Some vs).

(** ** [_get_index] *)

(** Lines 121-129: the entry of a TDLPACK data record. *)
Definition catalog_data (temp : list Z) (_last_station_id_record : Z) : M unit :=
  t1 <- lift (py_index temp 1) ;;
  append_size t1 ;;;
  append_type data ;;;
  t6 <- lift (py_index temp 6) ;;
  append_date (Some t6) ;;;
  t9 <- lift (py_index temp 9) ;;
  l <- lift (int_of_last3 t9) ;;
  append_lead (Some l) ;;;
  t7 <- lift (py_index temp 7) ;;
  append_id1 (Some t7) ;;;
  t8 <- lift (py_index temp 8) ;;
  append_id2 (Some t8) ;;;
  t9' <- lift (py_index temp 9) ;;
  append_id3 (Some t9') ;;;
  t10 <- lift (py_index temp 10) ;;
  append_id4 (Some t10) ;;;
  append_linked_station_id_record _last_station_id_record.

(** Lines 133-141: the entry of a trailer record. *)
Definition catalog_trailer (temp : list Z) (_last_station_id_record : Z) : M unit :=
  s <- lift (py_index temp 1) ;;
  append_size s ;;;
  append_type trailer ;;;
  append_date None ;;;
  append_lead None ;;;
  append_id1 None ;;;
  append_id2 None ;;;
  append_id3 None ;;;
  append_id4 None ;;;
  append_linked_station_id_record _last_station_id_record.

(** Lines 144-152: the entry of a station ID record. *)
Definition catalog_station (temp : list Z) (_last_station_id_record : Z) : M unit :=
  s <- lift (py_index temp 1) ;;
  append_size s ;;;
  append_type station ;;;
  append_date None ;;;
  append_lead None ;;;
  append_id1 (Some 400001000) ;;;
  append_id2 (Some 0) ;;;
  append_id3 (Some 0) ;;;
  append_id4 (Some 0) ;;;
  append_linked_station_id_record _last_station_id_record.

(** Lines 115-152: the record is catalogued from the words [temp] read from
    its head. *)
Definition catalog (temp : list Z) (_last_station_id_record : Z) : M unit :=
  t2 <- lift (py_index temp 2) ;;
  _header <- lift (decode (scalar_buffer t2)) ;;
  if bytes_eqb _header PLDT then
    catalog_data temp _last_station_id_record
  else
    t1 <- lift (py_index temp 1) ;;
    is_trailer <- (if t1 =? 24
                   then t6 <- lift (py_index temp 6) ;; ret (t6 =? 9999)
                   else ret false) ;;
    if (is_trailer : bool) then
      catalog_trailer temp _last_station_id_record
    else
      catalog_station temp _last_station_id_record.

(** Lines 108-172: the body of the [try], one record of the file. The result
    is the value of [_last_station_id_record] after the pass. *)
Definition index_record (_last_station_id_record : Z) : M Z :=
  pos <- fh_tell ;;
  hb <- fh_read 4 ;;
  fortran_header <- lift (struct_unpack_i hb) ;;
  let bytes_to_read := if 44 <=? fortran_header then 44 else fortran_header in
  buf <- fh_read bytes_to_read ;;
  temp <- lift (np_frombuffer buf) ;;
  catalog temp _last_station_id_record ;;;
  modify (fun h => set_records (records h + 1) h) ;;;
  fh_seek_cur (fortran_header - bytes_to_read) ;;;
  tb <- fh_read 4 ;;
  fortran_trailer <- lift (struct_unpack_i tb) ;;
  if negb (fortran_header =? fortran_trailer) then
    raise (IOError "Bad Fortran record.")
  else
    append_offset (pos + 12) ;;;
    ty <- (tys <- gets (fun h => type (_index h)) ;; lift (py_index tys (-1))) ;;
    if kind_eqb ty station then gets records else ret _last_station_id_record.

(** The [while True] loop: a [struct.error] raised anywhere in the body
    rewinds the file and leaves the loop, any other exception leaves
    [_get_index]. *)
Fixpoint scan (fuel : nat) (_last_station_id_record : Z) : M unit :=
  match fuel with
  | O => fun h => (NoFuel, h)
  | S fuel' =>
    fun h =>
      match index_record _last_station_id_record h with
      | (Ret last', h') => scan fuel' last' h'
      | (Raise struct_error, h') => fh_seek 0 h'
      | (Raise e, h') => (Raise e, h')
      | (NoFuel, h') => (NoFuel, h')
      end
  end.

Definition empty_index : index := mk_index [] [] [] [] [] [] [] [] [] [].

Definition _get_index : M unit :=
  modify (set_index empty_index) ;;;
  n <- gets (fun h => length (contents (_fh h))) ;;
  scan (S n) 0 ;;;
  modify (set_hasindex true) ;;;
  ds <- (col <- gets (fun h => date (_index h)) ;; lift (py_sorted_set col)) ;;
  modify (set_dates ds) ;;;
  ls <- (col <- gets (fun h => lead (_index h)) ;; lift (py_sorted_set col)) ;;
  modify (set_leadtimes ls).

(** [__init__(filename, 'r')] on a file holding [bytes]. *)
Definition __init__ (bytes : list byte) : outcome unit * handle :=
  _get_index (mk_handle (mk_file bytes 0) false empty_index 0 0 [] [] []).

(** [open(filename)]: the object, unless [__init__] raised. *)
Definition open (bytes : list byte) : outcome handle :=
  match __init__ bytes with
  | (Ret _, h) => Ret h
  | (Raise e, _) => Raise e
  | (NoFuel, _) => NoFuel
  end.

(** ** Records *)

(** The objects that [read] builds, by the keyword arguments they are built
    from ([ioctet], [ipack], and [reference_date] for a data record);
    [unpacked] tells whether [unpack()] has run on the object. What [unpack]
    stores in the object is the decoder's affair ([pytdlpack], [_tdlpack]). *)
Inductive tdlpack_record : Type :=
| TdlpackRecord (ioctet : Z) (ipack : list Z) (reference_date : option Z)
                (unpacked : bool)
| TdlpackStationRecord (ioctet : Z) (ipack : list Z) (unpacked : bool)
| TdlpackTrailerRecord (ioctet : Z) (ipack : list Z).

(** The decoder: [unpack_raises r] is the exception that [r.unpack()] raises,
    if it raises one. *)
Variable unpack_raises : tdlpack_record -> option exn.

Definition mark_unpacked (r : tdlpack_record) : tdlpack_record :=
  match r with
  | TdlpackRecord o p d _ => TdlpackRecord o p d true
  | TdlpackStationRecord o p _ => TdlpackStationRecord o p true
  | TdlpackTrailerRecord o p => TdlpackTrailerRecord o p
  end.

(** [if unpack: rec.unpack()] *)
Definition unpack_if (unpack : bool) (r : tdlpack_record) : M tdlpack_record :=
  if unpack then
    match unpack_raises r with
    | Some e => raise e
    | None => ret (mark_unpacked r)
    end
  else ret r.

(** [a.byteswap()] on one element of a ['>i4'] array. *)
Definition byteswap (v : Z) : Z :=
  match pack_i v with
  | [a; b; c; d] => be_i32 d c b a
  | _ => v
  end.

(** ** [seek] *)

Definition seek (offset_ : Z) : M unit :=
  hasindex <- gets _hasindex ;;
  if (hasindex : bool) then
    if offset_ =? 0 then
      o <- (os <- gets (fun h => offset (_index h)) ;; lift (py_index os offset_)) ;;
      fh_seek o ;;;
      modify (set_recordnumber offset_)
    else if 0 <? offset_ then
      o <- (os <- gets (fun h => offset (_index h)) ;; lift (py_index os (offset_ - 1))) ;;
      fh_seek o ;;;
      modify (set_recordnumber (offset_ - 1))
    else ret tt
  else ret tt.

(** ** [read] *)

(** Lines 201-218: the body of the [for] loop, for record number [n]. *)
Definition read_record (unpack : bool) (n : Z) : M tdlpack_record :=
  let nn := n - 1 in
  seek n ;;;
  ioctet <- (l <- gets (fun h => size (_index h)) ;; lift (py_index l nn)) ;;
  sz <- (l <- gets (fun h => size (_index h)) ;; lift (py_index l nn)) ;;
  buf <- fh_read sz ;;
  ipack <- lift (np_frombuffer buf) ;;
  ty <- (l <- gets (fun h => type (_index h)) ;; lift (py_index l nn)) ;;
  r <- match ty with
       | data =>
         d <- (l <- gets (fun h => date (_index h)) ;; lift (py_index l nn)) ;;
         unpack_if unpack (TdlpackRecord ioctet ipack d false)
       | station =>
         unpack_if unpack (TdlpackStationRecord ioctet (map byteswap ipack) false)
       | trailer => ret (TdlpackTrailerRecord ioctet ipack)
       end ;;
  modify (set_recordnumber n) ;;;
  ret r.

Fixpoint read_loop (unpack : bool) (reclist : list Z) (recs : list tdlpack_record)
  : M (list tdlpack_record) :=
  match reclist with
  | [] => ret recs
  | n :: rest =>
    r <- read_record unpack n ;;
    read_loop unpack rest (recs ++ [r])
  end.

(** [read(num, unpack)]; [num = None] is the default argument. With [None]
    or a negative number no branch binds [reclist] (Python 3 already refuses
    [None > 1]). *)
Definition read (num : option Z) (unpack : bool) : M (list tdlpack_record) :=
  match num with
  | None => if py3 then raise TypeError else raise UnboundLocalError
  | Some k =>
    if k =? 0 then ret []
    else if k =? 1 then
      rn <- gets recordnumber ;;
      read_loop unpack [rn + 1] []
    else if 1 <? k then
      rn <- gets recordnumber ;;
      read_loop unpack (py_range (rn + 1) (rn + 1 + k)) []
    else raise UnboundLocalError
  end.

(** ** [record] *)

Definition record (rec : option Z) (unpack : bool) : M (option tdlpack_record) :=
  match rec with
  | None => ret None
  | Some n =>
    if n <=? 0 then
      warn "Record numbers begin at 1." ;;;
      ret None
    else
      total <- gets records ;;
      if total <? n then
        warn "Not that many records in the file." ;;;
        ret None
      else
        seek n ;;;
        l <- read (Some 1) unpack ;;
        r <- lift (py_index l 0) ;;
        ret (Some r)
  end.

(** ** [fetch] *)

Fixpoint where_from (i : Z) (col : list (option Z)) (v : Z) : list Z :=
  match col with
  | [] => []
  | c :: rest =>
    match c with
    | Some x => if x =? v then i :: where_from (i + 1) rest v
                else where_from (i + 1) rest v
    | None => where_from (i + 1) rest v
    end
  end.

(** [np.where(np.array(col) == v)[0]] *)
Definition np_where_eq (col : list (option Z)) (v : Z) : list Z :=
  where_from 0 col v.

(** [np.arange(n)] *)
Definition np_arange (n : Z) : list Z := py_range 0 n.

(** One word of the identifier: [None] when neither branch binds the name
    (a word below [-1]). *)
Definition id_word (allrecs : list Z) (col : list (option Z)) (w : Z)
  : option (list Z) :=
  if w =? -1 then Some allrecs
  else if 0 <=? w then Some (np_where_eq col w)
  else None.

(** [np.concatenate((idx, more))] when [idx] may still be [None]. *)
Definition cat (idx : option (list Z)) (more : list Z) : option (list Z) :=
  match idx with
  | Some l => Some (l ++ more)
  | None => Some more
  end.

Definition count (l : list Z) (v : Z) : Z := Z.of_nat (count_occ Z.eq_dec l v).

(** [vals, cnts = np.unique(idx, return_counts=True)] followed by
    [vals[np.where(cnts == match_count)[0]]]. With no criterion [idx] is
    still [None]: [np.unique] sees the one value [None] once, and
    [match_count] is 0. *)
Definition select (idx : option (list Z)) (match_count : Z) : list Z :=
  match idx with
  | None => []
  | Some l => filter (fun v => count l v =? match_count) (sorted_set l)
  end.

(** Lines 257-316: the positions that [fetch] goes on to read. The
    identifier is the list of its words (a string is split into that list
    first). *)
Definition fetch_idx (date_ : option Z) (id : option (list Z)) (lead_ : option Z)
  : M (list Z) :=
  ix <- gets _index ;;
  total <- gets records ;;
  let idx0 : option (list Z) := None in
  let mc0 := 0 in
  let '(idx1_, mc1) :=
    match date_ with
    | Some d => (Some (np_where_eq (date ix) d), mc0 + 1)
    | None => (idx0, mc0)
    end in
  r <- match id with
       | Some ws =>
         let allrecs := np_arange total in
         w0 <- lift (py_index ws 0) ;;
         let idx1 := id_word allrecs (id1 ix) w0 in
         w1 <- lift (py_index ws 1) ;;
         let idx2 := id_word allrecs (id2 ix) w1 in
         w2 <- lift (py_index ws 2) ;;
         let idx3 := id_word allrecs (id3 ix) w2 in
         w3 <- lift (py_index ws 3) ;;
         let idx4 := id_word allrecs (id4 ix) w3 in
         match idx1, idx2, idx3, idx4 with
         | Some a, Some b, Some c, Some d =>
           ret (cat idx1_ (a ++ b ++ c ++ d), mc1 + 4)
         | _, _, _, _ => raise UnboundLocalError
         end
       | None => ret (idx1_, mc1)
       end ;;
  let '(idx2_, mc2) := r in
  let '(idx3_, mc3) :=
    match lead_ with
    | Some l => (cat idx2_ (np_where_eq (lead ix) l), mc2 + 1)
    | None => (idx2_, mc2)
    end in
  ret (select idx3_ mc3).

Fixpoint fetch_loop (unpack : bool) (idx : list Z) (recs : list (option tdlpack_record))
  : M (list (option tdlpack_record)) :=
  match idx with
  | [] => ret recs
  | i :: rest =>
    r <- record (Some (i + 1)) unpack ;;
    fetch_loop unpack rest (recs ++ [r])
  end.

Definition fetch (date_ : option Z) (id : option (list Z)) (lead_ : option Z)
                 (unpack : bool) : M (list (option tdlpack_record)) :=
  idx <- fetch_idx date_ id lead_ ;;
  fetch_loop unpack idx [].

(** [tell()] *)
Definition tell : M Z := gets recordnumber.

(** ** The candidate sets of a query

    What [fetch] is compared with: the sets of positions that the criteria
    select one by one, and their intersection. *)

(** The set of one identifier word: every position for the wildcard [-1]. *)
Definition word_set (total : Z) (col : list (option Z)) (w : Z) : list Z :=
  if w =? -1 then np_arange total else np_where_eq col w.

Definition candidate_sets (ix : index) (total : Z)
    (date_ : option Z) (id : option (list Z)) (lead_ : option Z) : list (list Z) :=
  match date_ with
  | Some d => [np_where_eq (date ix) d]
  | None => []
  end
  ++ match id with
     | Some ws =>
       [word_set total (id1 ix) (nth 0 ws 0); word_set total (id2 ix) (nth 1 ws 0);
        word_set total (id3 ix) (nth 2 ws 0); word_set total (id4 ix) (nth 3 ws 0)]
     | None => []
     end
  ++ match lead_ with
     | Some l => [np_where_eq (lead ix) l]
     | None => []
     end.

Definition mem (v : Z) (s : list Z) : bool := existsb (Z.eqb v) s.

(** The positions that lie in every one of the sets (none for no set). *)
Definition intersection (sets : list (list Z)) : list Z :=
  match sets with
  | [] => []
  | s :: rest => filter (fun v => forallb (mem v) rest) s
  end.

(** ** Station links

    [last_station tys] is the record number of the last station record among
    the records of kinds [tys], and 0 when there is none. *)
Fixpoint last_station_rev (r : list kind) : Z :=
  match r with
  | [] => 0
  | k :: t => if kind_eqb k station then Z.of_nat (length r) else last_station_rev t
  end.

Definition last_station (tys : list kind) : Z := last_station_rev (rev tys).

End Methods.

(** ** Vocabulary of the statements *)

(** The object after one entry has been appended to every key of the index
    but ['offset']. *)
Definition push_entry (sz : Z) (k : kind) (d l i1 i2 i3 i4 : option Z) (lk : Z)
    (h : handle) : handle :=
  let i := _index h in
  set_index (mk_index (offset i) (size i ++ [sz]) (type i ++ [k]) (date i ++ [d])
                      (lead i ++ [l]) (id1 i ++ [i1]) (id2 i ++ [i2]) (id3 i ++ [i3])
                      (id4 i ++ [i4]) (linked_station_id_record i ++ [lk])) h.

(** [h'] differs from [h] at most in the keys of the index other than
    ['offset']. *)
Definition index_changed_only (h h' : handle) : Prop :=
  _fh h' = _fh h /\ _hasindex h' = _hasindex h /\ records h' = records h
  /\ recordnumber h' = recordnumber h /\ dates h' = dates h
  /\ leadtimes h' = leadtimes h /\ warned h' = warned h
  /\ offset (_index h') = offset (_index h).

Definition is_some (o : option Z) : bool :=
  match o with
  | Some _ => true
  | None => false
  end.

(** Strictly ascending lists of numbers. *)
Definition ascending (l : list Z) : Prop := StronglySorted Z.lt l.

(** The order of Python 2 on numbers and [None]: [None] comes first. *)
Definition opt_lt (a b : option Z) : Prop :=
  match a, b with
  | None, Some _ => True
  | Some x, Some y => x < y
  | _, None => False
  end.

(** One frame of the file: the payload between its two length markers. *)
Definition frame (payload : list byte) : list byte :=
  pack_i (Z.of_nat (length payload)) ++ payload ++ pack_i (Z.of_nat (length payload)).

(** The object after one value has been appended to the key ['offset']. *)
Definition push_offset (o : Z) (h : handle) : handle :=
  let i := _index h in
  set_index (mk_index (offset i ++ [o]) (size i) (type i) (date i) (lead i)
                      (id1 i) (id2 i) (id3 i) (id4 i) (linked_station_id_record i)) h.

(** The links of the index are those of the records before each entry. *)
Definition links_ok (ix : index) : Prop :=
  linked_station_id_record ix =
  map (fun i => last_station (firstn i (type ix))) (seq 0 (length (type ix))).

(** A key of the index holds a value exactly at the data records. *)
Definition aligned (col : list (option Z)) (tys : list kind) : Prop :=
  map is_some col = map (fun k => kind_eqb k data) tys.

(** What holds of the object at the top of every pass of the loop. *)
Definition index_inv (h : handle) : Prop :=
  records h = Z.of_nat (length (type (_index h)))
  /\ links_ok (_index h)
  /\ aligned (date (_index h)) (type (_index h))
  /\ aligned (lead (_index h)) (type (_index h)).

(** The condition under which the head of a frame shorter than 44 bytes can
    be catalogued: whole words, a word 2 that decodes to a tag other than
    ['PLDT'], and a word 6 whenever word 1 is 24. *)
Definition short_frame_ok (py3 : bool) (payload : list byte) : Prop :=
  Z.of_nat (length payload) mod 4 = 0
  /\ exists t2,
       py_index (words payload) 2 = Ret t2
       /\ decode py3 (scalar_buffer t2) = Ret (scalar_buffer t2)
       /\ scalar_buffer t2 <> PLDT
       /\ (py_index (words payload) 1 = Ret 24 ->
           exists t6, py_index (words payload) 6 = Ret t6).

(** The entry that a pass appends for a frame shorter than 44 bytes, from
    the object [h] whose file stands at the frame, [pre] being the bytes
    before it: a trailer record when word 1 is 24 and word 6 is 9999, a
    station record otherwise. *)
Definition short_frame_entry (py3 : bool) (h : handle) (pre payload : list byte)
    (last : Z) (t1 : Z) (k : kind) (last' : Z) (h' : handle) : Prop :=
  let temp := words payload in
  py_index temp 1 = Ret t1
  /\ index_record py3 last h = (Ret last', h')
  /\ ((k = trailer /\ t1 = 24 /\ py_index temp 6 = Ret 9999)
      \/ (k = station /\ ~ (t1 = 24 /\ py_index temp 6 = Ret 9999)
          /\ nth_error (id1 (_index h')) (length (id1 (_index h)))
             = Some (Some 400001000)))
  /\ type (_index h') = type (_index h) ++ [k]
  /\ size (_index h') = size (_index h) ++ [t1]
  /\ offset (_index h') = offset (_index h) ++ [Z.of_nat (length pre) + 12]
  /\ records h' = records h + 1
  /\ position (_fh h') = (length pre + 8 + length payload)%nat.

(** The object with its file positioned at byte [p]. *)
Definition at_position (p : nat) (h : handle) : handle :=
  set_fh (mk_file (contents (_fh h)) p) h.

(** ** Access and the index *)

(** [h'] has the index, the record count, the two tuples and the file
    contents of [h]: what [_get_index] built is untouched. *)
Definition same_index (h h' : handle) : Prop :=
  _index h' = _index h /\ records h' = records h /\ _hasindex h' = _hasindex h
  /\ dates h' = dates h /\ leadtimes h' = leadtimes h
  /\ contents (_fh h') = contents (_fh h).

(** An action that leaves all of that alone, however it ends. *)
Definition keeps_index {A : Type} (m : M A) : Prop :=
  forall h o h', m h = (o, h') -> same_index h h'.

(** The object that [read] builds for a record of kind [ty] out of the
    entries of the index and the words read. *)
Definition built_record (ty : kind) (ioctet : Z) (ipack : list Z) (d : option Z)
  : tdlpack_record :=
  match ty with
  | data => TdlpackRecord ioctet ipack d false
  | station => TdlpackStationRecord ioctet (map byteswap ipack) false
  | trailer => TdlpackTrailerRecord ioctet ipack
  end.

(** ** Iteration *)

(** What a call of [__next__] gives the caller: a record, or the end of the
    iteration ([raise StopIteration]). *)
Inductive next_result : Type :=
| Next (rec : tdlpack_record)
| StopIteration.

(** [__next__()] *)
Definition __next__ (py3 : bool) (unpack_raises : tdlpack_record -> option exn)
  : M next_result :=
  rn <- gets recordnumber ;;
  total <- gets records ;;
  if rn <? total then
    l <- read py3 unpack_raises (Some 1) true ;;
    r <- lift (py_index l 0) ;;
    ret (Next r)
  else ret StopIteration.

(** ** The shape of the index *)

(** Every key of the index but ['offset'] has [n] entries. *)
Definition columns_have (n : nat) (ix : index) : Prop :=
  length (size ix) = n /\ length (type ix) = n /\ length (date ix) = n
  /\ length (lead ix) = n /\ length (id1 ix) = n /\ length (id2 ix) = n
  /\ length (id3 ix) = n /\ length (id4 ix) = n
  /\ length (linked_station_id_record ix) = n.

(** Offsets that ascend and lie in a file of [len] bytes, behind the twelve
    bytes that precede a record and before the eight that end the shortest
    one. *)
Definition offsets_within (len : Z) (offs : list Z) : Prop :=
  ascending offs /\ Forall (fun o => 12 <= o <= len - 8) offs.

(** What holds of the index at the top of every pass of the loop: one entry
    under every key for every record counted, and the offsets behind the
    file position. *)
Definition scan_shape (h : handle) : Prop :=
  records h = Z.of_nat (length (offset (_index h)))
  /\ columns_have (length (offset (_index h))) (_index h)
  /\ offsets_within (Z.of_nat (length (contents (_fh h)))) (offset (_index h))
  /\ Forall (fun o => o <= Z.of_nat (position (_fh h)) - 8) (offset (_index h))
  /\ (position (_fh h) <= length (contents (_fh h)))%nat.

(** ** Files of frames *)

(** The words that [_get_index] reads from the head of a record: those of
    its first 44 bytes. *)
Definition head_words (payload : list byte) : list Z := words (firstn 44 payload).

(** The kind under which [_get_index] catalogues a record whose head holds
    the words [temp]. *)
Definition entry_kind (temp : list Z) : kind :=
  if bytes_eqb (scalar_buffer (nth 2 temp 0)) PLDT then data
  else if (nth 1 temp 0 =? 24) && (nth 6 temp 0 =? 9999) then trailer
  else station.

(** The entry under ['date'] for such a record. *)
Definition entry_date (temp : list Z) : option Z :=
  match entry_kind temp with
  | data => Some (nth 6 temp 0)
  | _ => None
  end.

(** The entry under ['lead']: the number that the last three characters of
    word 9, written in decimal, spell. *)
Definition entry_lead (temp : list Z) : option Z :=
  match entry_kind temp with
  | data =>
    match int_of_last3 (nth 9 temp 0) with
    | Ret l => Some l
    | _ => None
    end
  | _ => None
  end.

(** The entry under an identifier key: word [w] of a data record, the
    number [st] for a station record. *)
Definition entry_id (w : nat) (st : Z) (temp : list Z) : option Z :=
  match entry_kind temp with
  | data => Some (nth w temp 0)
  | station => Some st
  | trailer => None
  end.

(** The offsets that the index holds for the records of consecutive
    frames, the first of which starts at byte [start] of the file. *)
Fixpoint frame_offsets (start : nat) (payloads : list (list byte)) : list Z :=
  match payloads with
  | [] => []
  | p :: rest =>
    (Z.of_nat start + 12) :: frame_offsets (start + 8 + length p) rest
  end.

(** A payload that [_get_index] can catalogue: its head makes whole words,
    at least three, of which word 2 decodes; a data record has the eleven
    words of its head and a word 9 that is not negative; another record
    whose word 1 is 24 has a word 6. *)
Definition frame_ok (py3 : bool) (p : list byte) : Prop :=
  let temp := head_words p in
  Z.of_nat (length p) < 2 ^ 31
  /\ Z.of_nat (length (firstn 44 p)) mod 4 = 0
  /\ (3 <= length temp)%nat
  /\ decode py3 (scalar_buffer (nth 2 temp 0)) = Ret (scalar_buffer (nth 2 temp 0))
  /\ match entry_kind temp with
     | data => (11 <= length temp)%nat /\ 0 <= nth 9 temp 0
     | _ => nth 1 temp 0 = 24 -> (7 <= length temp)%nat
     end.

(** The number that the decimal digits [d] spell when they follow the
    digits of the number [acc]. *)
Fixpoint digits_value (d : Decimal.uint) (acc : Z) : Z :=
  match d with
  | Decimal.Nil => acc
  | Decimal.D0 d => digits_value d (10 * acc)
  | Decimal.D1 d => digits_value d (10 * acc + 1)
  | Decimal.D2 d => digits_value d (10 * acc + 2)
  | Decimal.D3 d => digits_value d (10 * acc + 3)
  | Decimal.D4 d => digits_value d (10 * acc + 4)
  | Decimal.D5 d => digits_value d (10 * acc + 5)
  | Decimal.D6 d => digits_value d (10 * acc + 6)
  | Decimal.D7 d => digits_value d (10 * acc + 7)
  | Decimal.D8 d => digits_value d (10 * acc + 8)
  | Decimal.D9 d => digits_value d (10 * acc + 9)
  end.

(** ** Queries *)

(** Word [w] of a queried identifier admits position [p] of the key [col]:
    it is the wildcard, or the entry at [p] is [w]. *)
Definition word_matches (col : list (option Z)) (w p : Z) : Prop :=
  w = -1 \/ nth_error col (Z.to_nat p) = Some (Some w).

(** The object that [open] returns for a file without a record. *)
Definition empty_handle (bytes : list byte) : handle :=
  mk_handle (mk_file bytes 0) true empty_index 0 0 [] [] [].

(** ** Example files *)

(** The bytes of a list of words, as [struct.pack] writes them. *)
Definition words_bytes (ws : list Z) : list byte := flat_map pack_i ws.

(** The word whose bytes in the file are ["TDLP"]. *)
Definition TDLP : Z := be_i32 x54 x44 x4c x50.

(** A station record with the one call sign ["KABC    "]. *)
Definition example_station : list byte :=
  frame (words_bytes [0; 8; be_i32 x4b x41 x42 x43; be_i32 x20 x20 x20 x20]).

(** A data record: date 2020010100, identifier (1, 2, 1234006, 4). *)
Definition example_data : list byte :=
  frame (words_bytes [0; 36; TDLP; 0; 0; 0; 2020010100; 1; 2; 1234006; 4]).

(** A trailer record: 24 in word 1, 9999 in word 6. *)
Definition example_trailer : list byte :=
  frame (words_bytes [0; 24; 0; 0; 0; 0; 9999; 0]).

Definition example_file : list byte :=
  example_station ++ example_data ++ example_trailer.

(** The object that Python 2 builds for [example_file]. *)
Definition example_handle : handle := snd (__init__ false example_file).

(** A file with one frame of two words. *)
Definition two_word_file : list byte := frame (words_bytes [0; 0]).

(** A decoder that never raises. *)
Definition decoder_ok (r : tdlpack_record) : option exn := None.

(** The object before [_get_index] runs on a file holding [bytes]. *)
Definition fresh_handle (bytes : list byte) : handle :=
  mk_handle (mk_file bytes 0) false empty_index 0 0 [] [] [].

Definition station_payload : list byte :=
  words_bytes [0; 8; be_i32 x4b x41 x42 x43; be_i32 x20 x20 x20 x20].

Definition trailer_payload : list byte :=
  words_bytes [0; 24; 0; 0; 0; 0; 9999; 0].

(** The payload of the data record of the example file. *)
Definition data_payload : list byte :=
  words_bytes [0; 36; TDLP; 0; 0; 0; 2020010100; 1; 2; 1234006; 4].

(** The payloads of the frames of [example_file]. *)
Definition example_payloads : list (list byte) :=
  [station_payload; data_payload; trailer_payload].

(** A file that ends before the trailing length marker of its second
    record, and the object that Python 2 builds for it. *)
Definition truncated_file : list byte :=
  example_station ++ pack_i 44 ++ data_payload.

Definition truncated_handle : handle := snd (__init__ false truncated_file).

(** The object that Python 3 builds for a file with one station record. *)
Definition station_handle : handle := snd (__init__ true example_station).

(** ** The passes of the loop of [_get_index] *)




(** * Properties *)

(** ** Bytes *)

Lemma byte_val_of_Z : forall z, byte_val (byte_of_Z z) = z mod 256.
Proof.
  intros z. unfold byte_val, byte_of_Z.
  pose proof (Z.mod_pos_bound z 256 ltac:(lia)) as Hb.
  pose proof (Byte.to_of_N_option_map (Z.to_N (z mod 256))) as H.
  destruct (N.leb (Z.to_N (z mod 256)) 255) eqn:E.
  - destruct (Byte.of_N (Z.to_N (z mod 256))) as [b|]; [|discriminate].
    simpl in H. inversion H as [H']. rewrite H'. lia.
  - apply N.leb_gt in E. lia.
Qed.

Lemma byte_val_range : forall b, 0 <= byte_val b < 256.
Proof.
  intros b. unfold byte_val. pose proof (Byte.to_N_bounded b). lia.
Qed.

(** [struct.unpack('>i', struct.pack('>i', v))] gives [v] back. *)
Lemma unpack_pack_i :
  forall v, - 2 ^ 31 <= v < 2 ^ 31 -> struct_unpack_i (pack_i v) = Ret v.
Proof.
  intros v Hv. unfold pack_i, struct_unpack_i, be_i32.
  rewrite !byte_val_of_Z. f_equal.
  change (2 ^ 32) with 4294967296 in *. change (2 ^ 31) with 2147483648 in *.
  change (2 ^ 24) with 16777216. change (2 ^ 16) with 65536. change (2 ^ 8) with 256.
  set (u := v mod 4294967296).
  assert (Hu : 0 <= u < 4294967296) by (apply Z.mod_pos_bound; lia).
  assert (Hsum : ((u / 16777216 mod 256 * 256 + u / 65536 mod 256) * 256
                  + u / 256 mod 256) * 256 + u mod 256 = u).
  { clearbody u. Z.div_mod_to_equations. lia. }
  rewrite Hsum.
  destruct (u <? 2147483648) eqn:E.
  - apply Z.ltb_lt in E. subst u. Z.div_mod_to_equations. lia.
  - apply Z.ltb_ge in E. subst u. Z.div_mod_to_equations. lia.
Qed.

Lemma pack_i_length : forall v, length (pack_i v) = 4%nat.
Proof. reflexivity. Qed.

Lemma struct_unpack_i_Ret :
  forall bs v, struct_unpack_i bs = Ret v -> length bs = 4%nat.
Proof.
  intros bs v. unfold struct_unpack_i.
  destruct bs as [|a [|b [|c [|d [|e t]]]]]; try discriminate. reflexivity.
Qed.

Lemma struct_unpack_i_outcome :
  forall bs,
    (length bs = 4%nat /\ exists v, struct_unpack_i bs = Ret v)
    \/ (length bs <> 4%nat /\ struct_unpack_i bs = Raise struct_error).
Proof.
  intros bs. unfold struct_unpack_i.
  destruct bs as [|a [|b [|c [|d [|e t]]]]]; simpl;
    try (right; split; [lia|reflexivity]).
  left; split; [reflexivity|eauto].
Qed.

(** ** Ascending lists *)

Lemma ascending_cons_inv :
  forall x l, ascending (x :: l) -> ascending l /\ Forall (Z.lt x) l.
Proof. intros x l H; inversion H; subst; auto. Qed.

Lemma ascending_NoDup : forall l, ascending l -> NoDup l.
Proof.
  induction l as [|x l IH]; intros H; constructor.
  - apply ascending_cons_inv in H as [_ Hx].
    intros Hin. rewrite Forall_forall in Hx. specialize (Hx x Hin). lia.
  - apply IH. apply ascending_cons_inv in H. tauto.
Qed.

(** Two ascending lists with the same elements are the same list. *)
Lemma ascending_ext :
  forall l1 l2, ascending l1 -> ascending l2 ->
    (forall v, In v l1 <-> In v l2) -> l1 = l2.
Proof.
  induction l1 as [|x l1 IH]; intros [|y l2] H1 H2 Hm.
  - reflexivity.
  - exfalso. apply (proj2 (Hm y)). left; reflexivity.
  - exfalso. apply (proj1 (Hm x)). left; reflexivity.
  - apply ascending_cons_inv in H1 as [H1 Hx].
    apply ascending_cons_inv in H2 as [H2 Hy].
    rewrite Forall_forall in Hx, Hy.
    assert (x = y).
    { destruct (proj1 (Hm x) (or_introl eq_refl)) as [->|Hxin]; [reflexivity|].
      destruct (proj2 (Hm y) (or_introl eq_refl)) as [->|Hyin]; [reflexivity|].
      specialize (Hx y Hyin). specialize (Hy x Hxin). lia. }
    subst y. f_equal. apply IH; auto.
    intros v; split; intros Hv.
    + destruct (proj1 (Hm v) (or_intror Hv)) as [->|]; [|assumption].
      specialize (Hx v Hv). lia.
    + destruct (proj2 (Hm v) (or_intror Hv)) as [->|]; [|assumption].
      specialize (Hy v Hv). lia.
Qed.

Lemma ascending_filter :
  forall (f : Z -> bool) l, ascending l -> ascending (filter f l).
Proof.
  induction l as [|x l IH]; intros H; simpl; [constructor|].
  apply ascending_cons_inv in H as [H Hx].
  destruct (f x); [|apply IH; assumption].
  constructor; [apply IH; assumption|].
  apply Forall_forall. intros v Hv. apply filter_In in Hv.
  rewrite Forall_forall in Hx. apply Hx; tauto.
Qed.

Lemma insert_uniq_In :
  forall x y l, In y (insert_uniq x l) <-> y = x \/ In y l.
Proof.
  induction l as [|z l IH]; simpl.
  - intuition.
  - destruct (x <? z) eqn:E1; simpl; [intuition|].
    destruct (x =? z) eqn:E2; simpl.
    + apply Z.eqb_eq in E2. subst. intuition.
    + rewrite IH. intuition.
Qed.

Lemma insert_uniq_ascending :
  forall x l, ascending l -> ascending (insert_uniq x l).
Proof.
  induction l as [|z l IH]; intros H; simpl.
  - repeat constructor.
  - destruct (x <? z) eqn:E1.
    + apply Z.ltb_lt in E1. constructor; [assumption|].
      apply ascending_cons_inv in H as [_ Hz]. constructor; [assumption|].
      rewrite Forall_forall in *. intros v Hv. specialize (Hz v Hv). lia.
    + destruct (x =? z) eqn:E2; [assumption|].
      apply Z.ltb_ge in E1. apply Z.eqb_neq in E2.
      apply ascending_cons_inv in H as [H Hz].
      constructor; [apply IH; assumption|].
      rewrite Forall_forall in *. intros v Hv.
      apply insert_uniq_In in Hv as [->|Hv]; [lia|auto].
Qed.

Lemma sorted_set_In : forall x l, In x (sorted_set l) <-> In x l.
Proof.
  induction l as [|y l IH]; simpl; [tauto|].
  rewrite insert_uniq_In, IH. intuition.
Qed.

Lemma sorted_set_ascending : forall l, ascending (sorted_set l).
Proof.
  induction l as [|y l IH]; simpl; [constructor|].
  apply insert_uniq_ascending, IH.
Qed.


(** ** Positions and counts *)

Lemma where_from_spec :
  forall col i v,
    ascending (where_from i col v) /\ Forall (fun p => i <= p) (where_from i col v).
Proof.
  induction col as [|c col IH]; intros i v; simpl.
  - split; constructor.
  - destruct (IH (i + 1) v) as [Ha Hb].
    assert (Hb' : Forall (fun p => i <= p) (where_from (i + 1) col v)).
    { eapply Forall_impl; [|exact Hb]. simpl; intros; lia. }
    destruct c as [x|]; [destruct (x =? v)|]; try (split; assumption).
    split.
    + constructor; [assumption|].
      eapply Forall_impl; [|exact Hb]. simpl; intros; lia.
    + constructor; [lia|assumption].
Qed.

Lemma np_where_eq_ascending : forall col v, ascending (np_where_eq col v).
Proof. intros; apply where_from_spec. Qed.

Lemma where_from_In :
  forall col i v p,
    In p (where_from i col v) <->
    i <= p /\ nth_error col (Z.to_nat (p - i)) = Some (Some v).
Proof.
  induction col as [|c col IH]; intros i v p; simpl.
  - split; [tauto|]. intros [_ H]. destruct (Z.to_nat (p - i)); discriminate.
  - assert (Hrec : In p (where_from (i + 1) col v) <->
                   i < p /\ nth_error col (Z.to_nat (p - i) - 1) = Some (Some v)).
    { rewrite IH. replace (Z.to_nat (p - (i + 1))) with (Z.to_nat (p - i) - 1)%nat by lia.
      intuition lia. }
    assert (Hstep : forall q, i < q ->
              nth_error (c :: col) (Z.to_nat (q - i)) = nth_error col (Z.to_nat (q - i) - 1)).
    { intros q Hq. destruct (Z.to_nat (q - i)) eqn:E; [lia|]. simpl.
      f_equal. lia. }
    assert (Hhere : nth_error (c :: col) (Z.to_nat (i - i)) = Some c).
    { rewrite Z.sub_diag. reflexivity. }
    destruct c as [x|]; [destruct (x =? v) eqn:E|]; simpl; rewrite ?Hrec.
    + apply Z.eqb_eq in E; subst x. split.
      * intros [<-|[Hlt Hn]]; [split; [lia|assumption]|].
        split; [lia|]. rewrite Hstep; assumption.
      * intros [Hle Hn]. destruct (Z.eq_dec i p) as [|Hne]; [left; assumption|].
        right. split; [lia|]. rewrite <- Hstep by lia. assumption.
    + apply Z.eqb_neq in E. split.
      * intros [Hlt Hn]. split; [lia|]. rewrite Hstep; assumption.
      * intros [Hle Hn]. destruct (Z.eq_dec i p) as [<-|Hne].
        { rewrite Hhere in Hn. congruence. }
        split; [lia|]. rewrite <- Hstep by lia. assumption.
    + split.
      * intros [Hlt Hn]. split; [lia|]. rewrite Hstep; assumption.
      * intros [Hle Hn]. destruct (Z.eq_dec i p) as [<-|Hne].
        { rewrite Hhere in Hn. congruence. }
        split; [lia|]. rewrite <- Hstep by lia. assumption.
Qed.

(** [np.where(np.array(col) == v)[0]] holds the positions of [v] in [col]. *)
Lemma np_where_eq_In :
  forall col v p,
    In p (np_where_eq col v) <-> 0 <= p /\ nth_error col (Z.to_nat p) = Some (Some v).
Proof.
  intros. unfold np_where_eq. rewrite where_from_In, Z.sub_0_r. tauto.
Qed.

Lemma range_from_ascending :
  forall a n s, ascending (map (fun k => a + Z.of_nat k) (seq s n)).
Proof.
  induction n as [|n IH]; intros s; simpl; constructor.
  - apply IH.
  - apply Forall_forall. intros v Hv. apply in_map_iff in Hv as [k [<- Hk]].
    apply in_seq in Hk. lia.
Qed.

Lemma py_range_ascending : forall a b, ascending (py_range a b).
Proof. intros; apply range_from_ascending. Qed.

Lemma py_range_In : forall a b v, In v (py_range a b) <-> a <= v < b.
Proof.
  intros a b v. unfold py_range. rewrite in_map_iff. split.
  - intros [k [<- Hk]]. apply in_seq in Hk. lia.
  - intros Hv. exists (Z.to_nat (v - a)). split; [lia|]. apply in_seq. lia.
Qed.

Lemma count_app :
  forall l1 l2 v, count (l1 ++ l2) v = count l1 v + count l2 v.
Proof. intros. unfold count. rewrite count_occ_app. lia. Qed.

Lemma count_NoDup :
  forall l v, NoDup l ->
    (In v l -> count l v = 1) /\ (~ In v l -> count l v = 0).
Proof.
  intros l v Hnd. unfold count. split; intros Hv.
  - pose proof (proj1 (NoDup_count_occ Z.eq_dec l) Hnd v) as Hle.
    pose proof (proj1 (count_occ_In Z.eq_dec l v) Hv) as Hgt. lia.
  - apply (count_occ_not_In Z.eq_dec) in Hv. lia.
Qed.

(** In a concatenation of duplicate-free lists a value occurs at most once
    per list, and once per list exactly when it lies in all of them. *)
Lemma count_concat :
  forall sets v, Forall (@NoDup Z) sets ->
    count (concat sets) v <= Z.of_nat (length sets)
    /\ (count (concat sets) v = Z.of_nat (length sets) <->
        forall s, In s sets -> In v s).
Proof.
  induction sets as [|s sets IH]; intros v Hnd.
  - simpl. split; [unfold count; simpl; lia|]. split; [intros _ ? []|reflexivity].
  - inversion Hnd as [|? ? Hs Hrest]; subst.
    destruct (IH v Hrest) as [Hle Hiff].
    destruct (count_NoDup s v Hs) as [Hin Hout].
    change (concat (s :: sets)) with (s ++ concat sets).
    rewrite count_app. change (length (s :: sets)) with (S (length sets)).
    destruct (in_dec Z.eq_dec v s) as [Hv|Hv].
    + rewrite (Hin Hv). split; [lia|]. split.
      * intros Hc s' [<-|Hs']; [assumption|]. apply Hiff; [lia|assumption].
      * intros Hall. assert (count (concat sets) v = Z.of_nat (length sets)).
        { apply Hiff. intros; apply Hall; right; assumption. }
        lia.
    + rewrite (Hout Hv). split; [lia|]. split.
      * intros Hc. lia.
      * intros Hall. exfalso. apply Hv, Hall. left; reflexivity.
Qed.

(** The occurrence-count selection over the concatenation of duplicate-free
    sets keeps the positions that lie in every set. *)
Lemma select_concat_In :
  forall sets v, Forall (@NoDup Z) sets -> sets <> [] ->
    (In v (select (Some (concat sets)) (Z.of_nat (length sets))) <->
     forall s, In s sets -> In v s).
Proof.
  intros sets v Hnd Hne. unfold select.
  rewrite filter_In, sorted_set_In, Z.eqb_eq.
  destruct (count_concat sets v Hnd) as [_ Hiff]. rewrite Hiff.
  split; [tauto|]. intros Hall. split; [|assumption].
  destruct sets as [|s sets]; [congruence|].
  simpl. apply in_or_app. left. apply Hall. left; reflexivity.
Qed.

Lemma mem_In : forall v s, mem v s = true <-> In v s.
Proof.
  intros. unfold mem. rewrite existsb_exists. split.
  - intros [x [Hx E]]. apply Z.eqb_eq in E. subst; assumption.
  - intros H. exists v. split; [assumption|apply Z.eqb_refl].
Qed.

Lemma intersection_In :
  forall sets v,
    In v (intersection sets) <-> sets <> [] /\ forall s, In s sets -> In v s.
Proof.
  intros [|s rest] v; simpl.
  - split; [tauto|]. intros [H _]; congruence.
  - rewrite filter_In, forallb_forall. split.
    + intros [Hv Hall]. split; [discriminate|].
      intros s' [<-|Hs']; [assumption|]. apply mem_In, Hall, Hs'.
    + intros [_ Hall]. split; [apply Hall; left; reflexivity|].
      intros s' Hs'. apply mem_In, Hall. right; assumption.
Qed.

Lemma word_set_ascending : forall total col w, ascending (word_set total col w).
Proof.
  intros. unfold word_set. destruct (w =? -1).
  - apply py_range_ascending.
  - apply np_where_eq_ascending.
Qed.

Lemma candidate_sets_ascending :
  forall ix total d i l, Forall ascending (candidate_sets ix total d i l).
Proof.
  intros. unfold candidate_sets.
  apply Forall_app; split; [|apply Forall_app; split].
  - destruct d; constructor; [apply np_where_eq_ascending|constructor].
  - destruct i; [|constructor].
    repeat (constructor; [apply word_set_ascending|]). constructor.
  - destruct l; constructor; [apply np_where_eq_ascending|constructor].
Qed.

Lemma intersection_ascending :
  forall sets, Forall ascending sets -> ascending (intersection sets).
Proof.
  intros [|s rest] H; simpl; [constructor|].
  apply ascending_filter. inversion H; assumption.
Qed.

(** The selection and the intersection are the same list. *)
Lemma select_is_intersection :
  forall sets, Forall ascending sets -> sets <> [] ->
    select (Some (concat sets)) (Z.of_nat (length sets)) = intersection sets.
Proof.
  intros sets Hasc Hne. apply ascending_ext.
  - unfold select. apply ascending_filter, sorted_set_ascending.
  - apply intersection_ascending, Hasc.
  - intros v. rewrite select_concat_In, intersection_In; [tauto| |assumption].
    eapply Forall_impl; [|exact Hasc]. apply ascending_NoDup.
Qed.

(** ** [fetch]: occurrence counts against the intersection *)

Lemma py_index_ok :
  forall (A : Type) (l : list A) (k : Z) (a : A),
    0 <= k < Z.of_nat (length l) ->
    nth_error l (Z.to_nat k) = Some a ->
    py_index l k = Ret a.
Proof.
  intros A l k a [Hlo Hhi] Hn. unfold py_index.
  destruct (k <? 0) eqn:E; [apply Z.ltb_lt in E; lia|].
  apply Z.leb_le in Hlo. apply Z.ltb_lt in Hhi.
  rewrite Hlo, Hhi, Hn. reflexivity.
Qed.

Lemma py_index_nth :
  forall (l : list Z) (k w d : Z),
    0 <= k -> py_index l k = Ret w -> nth (Z.to_nat k) l d = w.
Proof.
  intros l k w d Hk. unfold py_index.
  destruct (k <? 0) eqn:E; [apply Z.ltb_lt in E; lia|].
  destruct ((0 <=? k) && (k <? Z.of_nat (length l))); [|discriminate].
  destruct (nth_error l (Z.to_nat k)) eqn:En; [|discriminate].
  intros H; inversion H; subst. apply nth_error_nth, En.
Qed.

Lemma id_word_Some :
  forall total col w s,
    id_word (np_arange total) col w = Some s ->
    s = word_set total col w /\ -1 <= w.
Proof.
  intros total col w s. unfold id_word, word_set.
  destruct (w =? -1) eqn:E1.
  - apply Z.eqb_eq in E1. intros H; inversion H; subst. split; [reflexivity|lia].
  - destruct (0 <=? w) eqn:E2; [|discriminate].
    apply Z.leb_le in E2. intros H; inversion H; subst. split; [reflexivity|lia].
Qed.

(** What [fetch_idx] computes when it returns: the object is untouched, and
    the positions are selected by count out of the concatenation of the
    candidate sets, with [match_count] the number of those sets. *)
Lemma fetch_idx_select :
  forall date_ id lead_ h l h',
    fetch_idx date_ id lead_ h = (Ret l, h') ->
    let sets := candidate_sets (_index h) (records h) date_ id lead_ in
    h' = h
    /\ l = select (match sets with [] => None | _ :: _ => Some (concat sets) end)
                  (Z.of_nat (length sets)).
Proof.
  intros date_ id lead_ h l h'. unfold fetch_idx, candidate_sets.
  unfold bind at 1, gets at 1. unfold bind at 1, gets at 1.
  destruct id as [ws|].
  - unfold bind at 2, lift at 1.
    destruct (py_index ws 0) as [w0| |] eqn:E0;
      [|destruct date_; unfold bind; discriminate ..].
    unfold bind at 2, lift at 1.
    destruct (py_index ws 1) as [w1| |] eqn:E1;
      [|destruct date_; unfold bind; discriminate ..].
    unfold bind at 2, lift at 1.
    destruct (py_index ws 2) as [w2| |] eqn:E2;
      [|destruct date_; unfold bind; discriminate ..].
    unfold bind at 2, lift at 1.
    destruct (py_index ws 3) as [w3| |] eqn:E3;
      [|destruct date_; unfold bind; discriminate ..].
    apply (py_index_nth _ _ _ 0) in E0, E1, E2, E3; try lia.
    simpl Z.to_nat in *. change (Pos.to_nat 1) with 1%nat in *.
    change (Pos.to_nat 2) with 2%nat in *. change (Pos.to_nat 3) with 3%nat in *.
    rewrite E0, E1, E2, E3.
    destruct (id_word (np_arange (records h)) (id1 (_index h)) w0) as [a|] eqn:Ha;
      [|destruct date_; unfold bind, raise; discriminate].
    destruct (id_word (np_arange (records h)) (id2 (_index h)) w1) as [b|] eqn:Hb;
      [|destruct date_; unfold bind, raise; discriminate].
    destruct (id_word (np_arange (records h)) (id3 (_index h)) w2) as [c|] eqn:Hc;
      [|destruct date_; unfold bind, raise; discriminate].
    destruct (id_word (np_arange (records h)) (id4 (_index h)) w3) as [d|] eqn:Hd;
      [|destruct date_; unfold bind, raise; discriminate].
    apply id_word_Some in Ha as [-> _], Hb as [-> _], Hc as [-> _], Hd as [-> _].
    destruct date_ as [dt|], lead_ as [ld|]; unfold bind, ret, cat; simpl;
      intros H; inversion H; subst; split; try reflexivity;
      rewrite ?app_nil_r, <- ?app_assoc; reflexivity.
  - destruct date_ as [dt|], lead_ as [ld|]; unfold bind, ret, cat; simpl;
      intros H; inversion H; subst; split; try reflexivity;
      rewrite ?app_nil_r; reflexivity.
Qed.

(** The positions that [fetch_idx] returns are the intersection of the
    candidate sets, as a list. *)
Lemma fetch_idx_intersection :
  forall date_ id lead_ h l h',
    fetch_idx date_ id lead_ h = (Ret l, h') ->
    h' = h
    /\ l = intersection (candidate_sets (_index h) (records h) date_ id lead_).
Proof.
  intros date_ id lead_ h l h' H.
  apply fetch_idx_select in H as [-> ->]. split; [reflexivity|].
  pose proof (candidate_sets_ascending (_index h) (records h) date_ id lead_) as Hasc.
  destruct (candidate_sets (_index h) (records h) date_ id lead_) as [|s rest] eqn:E.
  - reflexivity.
  - apply select_is_intersection; [assumption|discriminate].
Qed.

(** [fetch_idx] returns whenever the identifier, if given, has four words
    none of which is below [-1]. *)
Lemma fetch_idx_returns :
  forall date_ lead_ h w0 w1 w2 w3 more,
    -1 <= w0 -> -1 <= w1 -> -1 <= w2 -> -1 <= w3 ->
    exists l, fetch_idx date_ (Some (w0 :: w1 :: w2 :: w3 :: more)) lead_ h = (Ret l, h).
Proof.
  intros date_ lead_ h w0 w1 w2 w3 more H0 H1 H2 H3.
  assert (Hw : forall total col w, -1 <= w ->
            exists s, id_word (np_arange total) col w = Some s).
  { intros total col w Hw. unfold id_word.
    destruct (w =? -1) eqn:E; [eauto|].
    apply Z.eqb_neq in E. destruct (0 <=? w) eqn:E'; [eauto|].
    apply Z.leb_gt in E'. lia. }
  unfold fetch_idx. unfold bind at 1, gets at 1. unfold bind at 1, gets at 1.
  pose proof (Zle_0_nat (length more)) as Hlen.
  assert (E0 : py_index (w0 :: w1 :: w2 :: w3 :: more) 0 = Ret w0)
    by (apply py_index_ok; [simpl length; lia|reflexivity]).
  assert (E1 : py_index (w0 :: w1 :: w2 :: w3 :: more) 1 = Ret w1)
    by (apply py_index_ok; [simpl length; lia|reflexivity]).
  assert (E2 : py_index (w0 :: w1 :: w2 :: w3 :: more) 2 = Ret w2)
    by (apply py_index_ok; [simpl length; lia|reflexivity]).
  assert (E3 : py_index (w0 :: w1 :: w2 :: w3 :: more) 3 = Ret w3)
    by (apply py_index_ok; [simpl length; lia|reflexivity]).
  destruct (Hw (records h) (id1 (_index h)) w0 H0) as [a Ha].
  destruct (Hw (records h) (id2 (_index h)) w1 H1) as [b Hb].
  destruct (Hw (records h) (id3 (_index h)) w2 H2) as [c Hc].
  destruct (Hw (records h) (id4 (_index h)) w3 H3) as [d Hd].
  destruct date_ as [dt|], lead_ as [ld|];
    unfold bind, lift; rewrite E0, E1, E2, E3, Ha, Hb, Hc, Hd;
    unfold ret; eexists; reflexivity.
Qed.

(** ** Runs of [catalog] and [index_record] *)

Lemma py_index_outcome :
  forall (A : Type) (l : list A) k,
    (exists a, py_index l k = Ret a) \/ py_index l k = Raise IndexError.
Proof.
  intros. unfold py_index.
  destruct ((0 <=? (if k <? 0 then k + Z.of_nat (length l) else k)) &&
            ((if k <? 0 then k + Z.of_nat (length l) else k) <? Z.of_nat (length l)));
    [|right; reflexivity].
  destruct (nth_error l _); [left; eauto|right; reflexivity].
Qed.

Lemma decode_outcome :
  forall py3 bs, decode py3 bs = Ret bs \/ decode py3 bs = Raise UnicodeDecodeError.
Proof.
  intros. unfold decode.
  destruct (if py3 then utf8_valid bs else ascii_valid bs); auto.
Qed.

Lemma int_of_last3_outcome :
  forall v, (exists l, int_of_last3 v = Ret l) \/ int_of_last3 v = Raise ValueError.
Proof.
  intros. unfold int_of_last3.
  destruct (NilZero.int_of_string _); eauto.
Qed.

Lemma bind_lift_Ret :
  forall (A B : Type) (o : outcome A) (a : A) (k : A -> M B) h,
    o = Ret a -> bind (lift o) k h = k a h.
Proof. intros; subst; reflexivity. Qed.

Lemma bind_lift_Raise :
  forall (A B : Type) (o : outcome A) e (k : A -> M B) h,
    o = Raise e -> bind (lift o) k h = (Raise e, h).
Proof. intros; subst; reflexivity. Qed.

Lemma index_changed_only_refl : forall h, index_changed_only h h.
Proof. intros; repeat split. Qed.

Lemma catalog_trailer_eq :
  forall temp last h s,
    py_index temp 1 = Ret s ->
    catalog_trailer temp last h =
    (Ret tt, push_entry s trailer None None None None None None last h).
Proof.
  intros temp last h s E. unfold catalog_trailer.
  rewrite (bind_lift_Ret _ _ _ s) by assumption. reflexivity.
Qed.

Lemma catalog_station_eq :
  forall temp last h s,
    py_index temp 1 = Ret s ->
    catalog_station temp last h =
    (Ret tt, push_entry s station None None (Some 400001000) (Some 0) (Some 0)
                        (Some 0) last h).
Proof.
  intros temp last h s E. unfold catalog_station.
  rewrite (bind_lift_Ret _ _ _ s) by assumption. reflexivity.
Qed.

Lemma catalog_data_eq :
  forall temp last h t1 t6 t7 t8 t9 t10 l,
    py_index temp 1 = Ret t1 -> py_index temp 6 = Ret t6 ->
    py_index temp 7 = Ret t7 -> py_index temp 8 = Ret t8 ->
    py_index temp 9 = Ret t9 -> py_index temp 10 = Ret t10 ->
    int_of_last3 t9 = Ret l ->
    catalog_data temp last h =
    (Ret tt, push_entry t1 data (Some t6) (Some l) (Some t7) (Some t8) (Some t9)
                        (Some t10) last h).
Proof.
  intros temp last h t1 t6 t7 t8 t9 t10 l E1 E6 E7 E8 E9 E10 El.
  unfold catalog_data. rewrite E1, E6, E7, E8, E9, E10.
  unfold bind at 1, lift at 1. unfold bind at 1. unfold append_size at 1, modify at 1.
  unfold bind at 1. unfold append_type at 1, modify at 1.
  unfold bind at 1, lift at 1. unfold bind at 1. unfold append_date at 1, modify at 1.
  unfold bind at 1, lift at 1. unfold bind at 1, lift at 1. rewrite El.
  reflexivity.
Qed.

Lemma run_bind_Ret :
  forall (A B : Type) (m : M A) (k : A -> M B) h a h1 r,
    m h = (Ret a, h1) -> k a h1 = r -> bind m k h = r.
Proof. intros A B m k h a h1 r Hm Hk. unfold bind. rewrite Hm. exact Hk. Qed.

Lemma run_bind_Raise :
  forall (A B : Type) (m : M A) (k : A -> M B) h e h1,
    m h = (Raise e, h1) -> bind m k h = (Raise e, h1).
Proof. intros A B m k h e h1 Hm. unfold bind. rewrite Hm. reflexivity. Qed.

Lemma run_lift :
  forall (A : Type) (o o' : outcome A) h, o = o' -> lift o h = (o', h).
Proof. intros; subst; reflexivity. Qed.

Lemma run_modify :
  forall (f : handle -> handle) h, modify f h = (Ret tt, f h).
Proof. reflexivity. Qed.

Lemma run_gets :
  forall (A : Type) (f : handle -> A) h, gets f h = (Ret (f h), h).
Proof. reflexivity. Qed.

(** One step of a run: the first action of a [bind] whose outcome is known. *)
Ltac run_prim :=
  lazymatch goal with
  | |- lift _ _ = _ => apply run_lift; eassumption
  | |- modify _ _ = _ => apply run_modify
  | |- gets _ _ = _ => apply run_gets
  | |- _ => first [eassumption|reflexivity]
  end.

Ltac run_step :=
  lazymatch goal with
  | |- bind _ _ _ = _ =>
    first [ eapply run_bind_Ret; [run_prim|cbv beta]
          | eapply run_bind_Raise; run_prim ]
  end.

Ltac raises_with e :=
  left; exists e; eexists; split;
  [unfold catalog_data; repeat run_step
  |split; [auto|repeat split]].

Lemma catalog_data_cases :
  forall temp last h,
    (exists e h', catalog_data temp last h = (Raise e, h')
                  /\ (e = IndexError \/ e = ValueError)
                  /\ index_changed_only h h')
    \/ (exists t1 t6 t7 t8 t9 t10 l,
          py_index temp 10 = Ret t10
          /\ catalog_data temp last h =
             (Ret tt, push_entry t1 data (Some t6) (Some l) (Some t7) (Some t8)
                                 (Some t9) (Some t10) last h)).
Proof.
  intros temp last h.
  destruct (py_index_outcome _ temp 1) as [[t1 E1]|E1]; [|raises_with IndexError].
  destruct (py_index_outcome _ temp 6) as [[t6 E6]|E6]; [|raises_with IndexError].
  destruct (py_index_outcome _ temp 9) as [[t9 E9]|E9]; [|raises_with IndexError].
  destruct (int_of_last3_outcome t9) as [[l El]|El]; [|raises_with ValueError].
  destruct (py_index_outcome _ temp 7) as [[t7 E7]|E7]; [|raises_with IndexError].
  destruct (py_index_outcome _ temp 8) as [[t8 E8]|E8]; [|raises_with IndexError].
  destruct (py_index_outcome _ temp 10) as [[t10 E10]|E10]; [|raises_with IndexError].
  right. exists t1, t6, t7, t8, t9, t10, l. split; [assumption|].
  apply catalog_data_eq; assumption.
Qed.

Lemma py_index_Ret_iff :
  forall (A : Type) (l : list A) k a,
    0 <= k -> (py_index l k = Ret a <-> nth_error l (Z.to_nat k) = Some a).
Proof.
  intros A l k a Hk. unfold py_index.
  destruct (k <? 0) eqn:E; [apply Z.ltb_lt in E; lia|].
  destruct ((0 <=? k) && (k <? Z.of_nat (length l))) eqn:Eb.
  - destruct (nth_error l (Z.to_nat k)); split; intros H; inversion H; reflexivity.
  - split; [discriminate|]. intros H.
    assert (Hlt : (Z.to_nat k < length l)%nat).
    { apply nth_error_Some. rewrite H. discriminate. }
    apply andb_false_iff in Eb as [Eb|Eb];
      [apply Z.leb_gt in Eb|apply Z.ltb_ge in Eb]; lia.
Qed.

Lemma py_index_Raise_iff :
  forall (A : Type) (l : list A) k,
    0 <= k -> (py_index l k = Raise IndexError <-> Z.of_nat (length l) <= k).
Proof.
  intros A l k Hk. unfold py_index.
  destruct (k <? 0) eqn:E; [apply Z.ltb_lt in E; lia|].
  destruct ((0 <=? k) && (k <? Z.of_nat (length l))) eqn:Eb.
  - apply andb_true_iff in Eb as [_ Eb]. apply Z.ltb_lt in Eb.
    destruct (nth_error l (Z.to_nat k)) eqn:En.
    + split; [discriminate|lia].
    + apply nth_error_None in En. lia.
  - apply andb_false_iff in Eb as [Eb|Eb];
      [apply Z.leb_gt in Eb|apply Z.ltb_ge in Eb]; split; auto; lia.
Qed.

Lemma py_index_below :
  forall (A : Type) (l : list A) j k a,
    0 <= j <= k -> py_index l k = Ret a -> exists b, py_index l j = Ret b.
Proof.
  intros A l j k a Hjk H. apply py_index_Ret_iff in H; [|lia].
  assert (Hlt : (Z.to_nat k < length l)%nat).
  { apply nth_error_Some. rewrite H. discriminate. }
  destruct (nth_error l (Z.to_nat j)) as [b|] eqn:E.
  - exists b. apply py_index_Ret_iff; [lia|assumption].
  - apply nth_error_None in E. lia.
Qed.

Section Catalog.

Variable py3 : bool.

Lemma catalog_PLDT :
  forall temp last h t2 hdr,
    py_index temp 2 = Ret t2 -> decode py3 (scalar_buffer t2) = Ret hdr ->
    bytes_eqb hdr PLDT = true ->
    catalog py3 temp last h = catalog_data temp last h.
Proof.
  intros temp last h t2 hdr E2 Ed Eb. unfold catalog.
  eapply run_bind_Ret; [run_prim|cbv beta].
  eapply run_bind_Ret; [run_prim|cbv beta].
  rewrite Eb. reflexivity.
Qed.

Lemma catalog_trailer_case :
  forall temp last h t2 hdr,
    py_index temp 2 = Ret t2 -> decode py3 (scalar_buffer t2) = Ret hdr ->
    bytes_eqb hdr PLDT = false ->
    py_index temp 1 = Ret 24 -> py_index temp 6 = Ret 9999 ->
    catalog py3 temp last h =
    (Ret tt, push_entry 24 trailer None None None None None None last h).
Proof.
  intros temp last h t2 hdr E2 Ed Eb E1 E6. unfold catalog.
  eapply run_bind_Ret; [run_prim|cbv beta].
  eapply run_bind_Ret; [run_prim|cbv beta].
  rewrite Eb.
  eapply run_bind_Ret; [run_prim|cbv beta].
  eapply run_bind_Ret.
  { change (24 =? 24) with true. cbv iota.
    eapply run_bind_Ret; [run_prim|cbv beta]. reflexivity. }
  cbv beta. change (9999 =? 9999) with true. cbv iota.
  apply catalog_trailer_eq. assumption.
Qed.

Lemma catalog_station_case :
  forall temp last h t2 hdr t1,
    py_index temp 2 = Ret t2 -> decode py3 (scalar_buffer t2) = Ret hdr ->
    bytes_eqb hdr PLDT = false ->
    py_index temp 1 = Ret t1 ->
    (t1 <> 24 \/ exists t6, py_index temp 6 = Ret t6 /\ t6 <> 9999) ->
    catalog py3 temp last h =
    (Ret tt, push_entry t1 station None None (Some 400001000) (Some 0) (Some 0)
                        (Some 0) last h).
Proof.
  intros temp last h t2 hdr t1 E2 Ed Eb E1 Hst. unfold catalog.
  eapply run_bind_Ret; [run_prim|cbv beta].
  eapply run_bind_Ret; [run_prim|cbv beta].
  rewrite Eb.
  eapply run_bind_Ret; [run_prim|cbv beta].
  destruct (t1 =? 24) eqn:E24.
  - destruct Hst as [Hne|[t6 [E6 Hne]]]; [apply Z.eqb_eq in E24; contradiction|].
    eapply run_bind_Ret.
    { eapply run_bind_Ret; [run_prim|cbv beta]. reflexivity. }
    cbv beta. apply Z.eqb_neq in Hne. rewrite Hne.
    apply catalog_station_eq. assumption.
  - eapply run_bind_Ret; [reflexivity|cbv beta iota].
    apply catalog_station_eq. assumption.
Qed.

Lemma catalog_no_word6_case :
  forall temp last h t2 hdr,
    py_index temp 2 = Ret t2 -> decode py3 (scalar_buffer t2) = Ret hdr ->
    bytes_eqb hdr PLDT = false ->
    py_index temp 1 = Ret 24 -> py_index temp 6 = Raise IndexError ->
    catalog py3 temp last h = (Raise IndexError, h).
Proof.
  intros temp last h t2 hdr E2 Ed Eb E1 E6. unfold catalog.
  eapply run_bind_Ret; [run_prim|cbv beta].
  eapply run_bind_Ret; [run_prim|cbv beta].
  rewrite Eb.
  eapply run_bind_Ret; [run_prim|cbv beta].
  eapply run_bind_Raise.
  change (24 =? 24) with true. cbv iota.
  eapply run_bind_Raise. run_prim.
Qed.

(** Every way [catalog] can end. *)
Lemma catalog_cases :
  forall temp last h,
    (exists e h', catalog py3 temp last h = (Raise e, h')
                  /\ (e = IndexError \/ e = UnicodeDecodeError \/ e = ValueError)
                  /\ index_changed_only h h')
    \/ (exists sz k d l i1 i2 i3 i4,
          catalog py3 temp last h = (Ret tt, push_entry sz k d l i1 i2 i3 i4 last h)
          /\ is_some d = kind_eqb k data /\ is_some l = kind_eqb k data).
Proof.
  intros temp last h.
  destruct (py_index_outcome _ temp 2) as [[t2 E2]|E2].
  2:{ left. exists IndexError, h. split; [|split; [auto|apply index_changed_only_refl]].
      unfold catalog. eapply run_bind_Raise. run_prim. }
  destruct (decode_outcome py3 (scalar_buffer t2)) as [Ed|Ed].
  2:{ left. exists UnicodeDecodeError, h.
      split; [|split; [auto|apply index_changed_only_refl]].
      unfold catalog. eapply run_bind_Ret; [run_prim|cbv beta].
      eapply run_bind_Raise. run_prim. }
  destruct (bytes_eqb (scalar_buffer t2) PLDT) eqn:Eb.
  - rewrite (catalog_PLDT temp last h t2 _ E2 Ed Eb).
    destruct (catalog_data_cases temp last h)
      as [[e [h' [H [He Hi]]]]|[t1 [t6 [t7 [t8 [t9 [t10 [l [_ H]]]]]]]]].
    + left. exists e, h'. split; [assumption|]. split; [|assumption].
      destruct He; auto.
    + right. do 8 eexists. split; [exact H|]. split; reflexivity.
  - destruct (py_index_below _ temp 1 2 t2 ltac:(lia) E2) as [t1 E1].
    destruct (Z.eq_dec t1 24) as [->|Hne].
    + destruct (py_index_outcome _ temp 6) as [[t6 E6]|E6].
      * destruct (Z.eq_dec t6 9999) as [->|Hne6].
        { right. do 8 eexists. split; [eapply catalog_trailer_case; eassumption|].
          split; reflexivity. }
        { right. do 8 eexists. split; [eapply catalog_station_case; eauto|].
          split; reflexivity. }
      * left. exists IndexError, h.
        split; [eapply catalog_no_word6_case; eassumption|].
        split; [auto|apply index_changed_only_refl].
    + right. do 8 eexists. split; [eapply catalog_station_case; eauto|].
      split; reflexivity.
Qed.

End Catalog.

(** ** The file object *)

Section FileObject.

Variable py3 : bool.

Lemma fh_tell_run :
  forall h, fh_tell h = (Ret (Z.of_nat (position (_fh h))), h).
Proof. reflexivity. Qed.

(** Reading [n] bytes that the file holds at the current position. *)
Lemma fh_read_run :
  forall n h pre mid post,
    contents (_fh h) = pre ++ mid ++ post ->
    position (_fh h) = length pre ->
    n = Z.of_nat (length mid) ->
    fh_read py3 n h = (Ret mid, at_position (length pre + length mid) h).
Proof.
  intros n h pre mid post Hc Hp Hn. unfold fh_read.
  assert (E1 : (n <? -1) = false) by (apply Z.ltb_ge; lia).
  assert (E2 : (n <? 0) = false) by (apply Z.ltb_ge; lia).
  rewrite E1, E2, andb_false_r, Hc, Hp.
  assert (Hs : skipn (length pre) (pre ++ mid ++ post) = mid ++ post)
    by (rewrite skipn_app, skipn_all, Nat.sub_diag; reflexivity).
  assert (Hf : firstn (length mid) (mid ++ post) = mid)
    by (rewrite firstn_app, firstn_all, Nat.sub_diag; simpl; apply app_nil_r).
  rewrite Hs, Hn, Nat2Z.id, Hf. unfold at_position. rewrite Hc. reflexivity.
Qed.

(** Reading when fewer than [n] bytes are left: what is left comes back. *)
Lemma fh_read_rest :
  forall n h,
    (length (skipn (position (_fh h)) (contents (_fh h))) <= Z.to_nat n)%nat ->
    0 <= n ->
    fh_read py3 n h =
    (Ret (skipn (position (_fh h)) (contents (_fh h))),
     at_position (position (_fh h)
                  + length (skipn (position (_fh h)) (contents (_fh h)))) h).
Proof.
  intros n h Hlen Hn. unfold fh_read.
  assert (E1 : (n <? -1) = false) by (apply Z.ltb_ge; lia).
  assert (E2 : (n <? 0) = false) by (apply Z.ltb_ge; lia).
  rewrite E1, E2, andb_false_r.
  rewrite firstn_all2 by assumption. reflexivity.
Qed.

Lemma fh_seek_cur_run :
  forall off h,
    0 <= off ->
    fh_seek_cur off h = (Ret tt, at_position (position (_fh h) + Z.to_nat off) h).
Proof.
  intros off h Hoff. unfold fh_seek_cur.
  eapply run_bind_Ret; [apply fh_tell_run|cbv beta].
  unfold fh_seek_to.
  destruct (Z.of_nat (position (_fh h)) + off <? 0) eqn:E;
    [apply Z.ltb_lt in E; lia|].
  unfold at_position. repeat f_equal. lia.
Qed.

(** What any [fh_read] does to the object. *)
Lemma fh_read_cases :
  forall n h,
    fh_read py3 n h = (Raise ValueError, h)
    \/ exists got,
         fh_read py3 n h = (Ret got, at_position (position (_fh h) + length got) h)
         /\ (got <> [] ->
             (position (_fh h) + length got <= length (contents (_fh h)))%nat)
         /\ (0 <= n -> Z.of_nat (length got) <= n)
         /\ (0 <= n -> Z.of_nat (length got) < n ->
             got = skipn (position (_fh h)) (contents (_fh h))).
Proof.
  intros n h. unfold fh_read.
  destruct (py3 && (n <? -1)); [left; reflexivity|right].
  set (rest := skipn (position (_fh h)) (contents (_fh h))).
  assert (Hrest : rest <> [] ->
            (position (_fh h) + length rest <= length (contents (_fh h)))%nat).
  { intros Hne. subst rest. rewrite length_skipn.
    destruct (Nat.le_gt_cases (length (contents (_fh h))) (position (_fh h))) as [H|H];
      [|lia].
    exfalso. apply Hne. apply skipn_all2. assumption. }
  destruct (n <? 0) eqn:E.
  - exists rest. split; [reflexivity|]. split; [assumption|].
    apply Z.ltb_lt in E. split; intros; lia.
  - apply Z.ltb_ge in E. exists (firstn (Z.to_nat n) rest).
    split; [reflexivity|]. split; [|split].
    + intros Hne. rewrite length_firstn.
      assert (rest <> []) by (intros ->; apply Hne; apply firstn_nil).
      specialize (Hrest H). lia.
    + intros _. rewrite length_firstn. lia.
    + intros _ Hlt. rewrite length_firstn in Hlt.
      apply firstn_all2. lia.
Qed.

End FileObject.

Lemma at_position_contents :
  forall p h, contents (_fh (at_position p h)) = contents (_fh h).
Proof. reflexivity. Qed.

Lemma at_position_position :
  forall p h, position (_fh (at_position p h)) = p.
Proof. reflexivity. Qed.

Lemma py_index_last :
  forall (A : Type) (l : list A) (a : A), py_index (l ++ [a]) (-1) = Ret a.
Proof.
  intros A l a. unfold py_index. change (-1 <? 0) with true. cbv iota.
  rewrite length_app. simpl length.
  replace (-1 + Z.of_nat (length l + 1)) with (Z.of_nat (length l)) by lia.
  rewrite Nat2Z.id.
  assert (E1 : (0 <=? Z.of_nat (length l)) = true) by (apply Z.leb_le; lia).
  assert (E2 : (Z.of_nat (length l) <? Z.of_nat (length l + 1)) = true)
    by (apply Z.ltb_lt; lia).
  rewrite E1, E2. simpl andb. cbv iota.
  rewrite nth_error_app2 by lia. rewrite Nat.sub_diag. reflexivity.
Qed.

Section OnFrame.

Variable py3 : bool.
Variables (h : handle) (pre payload tr rest : list byte) (last : Z).

Let L : Z := Z.of_nat (length payload).
Let window : list byte := firstn 44 payload.
Let h1 : handle := at_position (length pre + 4 + length window) h.

Hypothesis Hc : contents (_fh h) = pre ++ pack_i L ++ payload ++ tr ++ rest.
Hypothesis Hp : position (_fh h) = length pre.
Hypothesis HL : L < 2 ^ 31.
Hypothesis Htr : length tr = 4%nat.

Lemma window_length :
  Z.of_nat (length window) = if 44 <=? L then 44 else L.
Proof.
  subst window L. rewrite length_firstn.
  destruct (44 <=? Z.of_nat (length payload)) eqn:E;
    [apply Z.leb_le in E|apply Z.leb_gt in E]; lia.
Qed.

(** The head of the pass: the length marker and the window are read. *)
Lemma index_record_head :
  forall (r : outcome Z * handle),
    (temp <- lift (np_frombuffer window) ;;
     catalog py3 temp last ;;;
     modify (fun h => set_records (records h + 1) h) ;;;
     fh_seek_cur (L - (if 44 <=? L then 44 else L)) ;;;
     tb <- fh_read py3 4 ;;
     fortran_trailer <- lift (struct_unpack_i tb) ;;
     if negb (L =? fortran_trailer) then
       raise (IOError "Bad Fortran record.")
     else
       append_offset (Z.of_nat (length pre) + 12) ;;;
       ty <- (tys <- gets (fun h => type (_index h)) ;; lift (py_index tys (-1))) ;;
       if kind_eqb ty station then gets records else ret last) h1 = r ->
    index_record py3 last h = r.
Proof.
  intros r Hr. unfold index_record.
  eapply run_bind_Ret; [apply fh_tell_run|cbv beta].
  eapply run_bind_Ret.
  { eapply (fh_read_run py3 4 h pre (pack_i L) (payload ++ tr ++ rest));
      [exact Hc|exact Hp|reflexivity]. }
  cbv beta.
  eapply run_bind_Ret.
  { apply run_lift. apply unpack_pack_i. subst L. lia. }
  cbv beta zeta.
  eapply run_bind_Ret.
  { eapply (fh_read_run py3 _ _ (pre ++ pack_i L) window
                        (skipn 44 payload ++ tr ++ rest)).
    - rewrite at_position_contents, Hc. subst window.
      rewrite <- (firstn_skipn 44 payload) at 1.
      rewrite <- !app_assoc. reflexivity.
    - rewrite at_position_position, length_app. reflexivity.
    - symmetry. apply window_length. }
  rewrite Hp. rewrite length_app. simpl (length (pack_i L)).
  exact Hr.
Qed.

Lemma index_record_window_error :
  forall e, np_frombuffer window = Raise e ->
    index_record py3 last h = (Raise e, h1).
Proof.
  intros e He. apply index_record_head.
  eapply run_bind_Raise. apply run_lift. exact He.
Qed.

Lemma index_record_catalog_error :
  forall temp e h2,
    np_frombuffer window = Ret temp ->
    catalog py3 temp last h1 = (Raise e, h2) ->
    index_record py3 last h = (Raise e, h2).
Proof.
  intros temp e h2 Ht Hcat. apply index_record_head.
  eapply run_bind_Ret; [apply run_lift; exact Ht|cbv beta].
  eapply run_bind_Raise. exact Hcat.
Qed.

(** The tail of the pass, once the entry has been catalogued: the trailing
    marker is read and compared. *)
Lemma index_record_tail :
  forall temp sz k d l i1 i2 i3 i4 t,
    np_frombuffer window = Ret temp ->
    catalog py3 temp last h1 = (Ret tt, push_entry sz k d l i1 i2 i3 i4 last h1) ->
    struct_unpack_i tr = Ret t ->
    index_record py3 last h =
    if L =? t then
      (Ret (if kind_eqb k station then records h + 1 else last),
       at_position (length pre + 8 + length payload)
         (push_offset (Z.of_nat (length pre) + 12)
            (set_records (records h + 1)
               (push_entry sz k d l i1 i2 i3 i4 last h))))
    else
      (Raise (IOError "Bad Fortran record."),
       at_position (length pre + 8 + length payload)
         (set_records (records h + 1) (push_entry sz k d l i1 i2 i3 i4 last h))).
Proof.
  intros temp sz k d l i1 i2 i3 i4 t Ht Hcat Htrl. apply index_record_head.
  eapply run_bind_Ret; [apply run_lift; exact Ht|cbv beta].
  eapply run_bind_Ret; [exact Hcat|cbv beta].
  eapply run_bind_Ret; [apply run_modify|cbv beta].
  pose proof window_length as Hw.
  eapply run_bind_Ret.
  { apply fh_seek_cur_run. destruct (44 <=? L) eqn:E;
      [apply Z.leb_le in E|apply Z.leb_gt in E]; lia. }
  cbv beta.
  eapply run_bind_Ret.
  { eapply (fh_read_run py3 4 _ (pre ++ pack_i L ++ payload) tr rest).
    - change (contents (_fh h) = (pre ++ pack_i L ++ payload) ++ tr ++ rest).
      rewrite Hc, <- !app_assoc. reflexivity.
    - change ((length pre + 4 + length window
               + Z.to_nat (L - (if 44 <=? L then 44 else L)%Z)%Z)%nat
              = length (pre ++ pack_i L ++ payload)).
      rewrite !length_app. simpl (length (pack_i L)).
      rewrite <- Hw. unfold L.
      unfold window. rewrite length_firstn. lia.
    - rewrite Htr. reflexivity. }
  cbv beta.
  eapply run_bind_Ret; [apply run_lift; exact Htrl|cbv beta].
  assert (Hend : (length (pre ++ pack_i L ++ payload) + length tr
                  = length pre + 8 + length payload)%nat).
  { rewrite !length_app, Htr. simpl (length (pack_i L)). lia. }
  rewrite Hend.
  destruct (L =? t); simpl negb; cbv iota.
  - eapply run_bind_Ret; [reflexivity|cbv beta].
    eapply run_bind_Ret.
    { eapply run_bind_Ret; [apply run_gets|cbv beta].
      apply run_lift. exact (py_index_last _ (type (_index h)) k). }
    cbv beta.
    destruct (kind_eqb k station); reflexivity.
  - reflexivity.
Qed.

End OnFrame.

(** ** The loop of [_get_index] *)

Section Scan.

Variable py3 : bool.

Lemma np_frombuffer_outcome :
  forall bs, np_frombuffer bs = Ret (words bs) \/ np_frombuffer bs = Raise ValueError.
Proof.
  intros bs. unfold np_frombuffer.
  destruct (Z.of_nat (length bs) mod 4 =? 0); auto.
Qed.

(** Every way one pass of the loop can end, from any state of the object. *)
Lemma index_record_cases :
  forall last h,
    (exists p, index_record py3 last h = (Raise struct_error, at_position p h))
    \/ (exists e h', index_record py3 last h = (Raise e, h') /\ e <> struct_error)
    \/ (exists sz k d l i1 i2 i3 i4 p,
          is_some d = kind_eqb k data /\ is_some l = kind_eqb k data
          /\ let s := set_records (records h + 1)
                        (push_entry sz k d l i1 i2 i3 i4 last h) in
             (index_record py3 last h = (Raise struct_error, at_position p s)
              \/ exists o,
                   index_record py3 last h =
                   (Ret (if kind_eqb k station then records h + 1 else last),
                    at_position p (push_offset o s))
                   /\ (position (_fh h) + 8 <= p <= length (contents (_fh h)))%nat)).
Proof.
  intros last h. unfold index_record.
  destruct (fh_read_cases py3 4 h) as [Hr|[hb [Hr [Hb1 [Hb2 Hb3]]]]].
  { right; left. exists ValueError, h. split; [|discriminate].
    eapply run_bind_Ret; [apply fh_tell_run|cbv beta].
    eapply run_bind_Raise. exact Hr. }
  destruct (struct_unpack_i_outcome hb) as [[Hlen [L HL]]|[Hlen HL]].
  2:{ left. eexists.
      eapply run_bind_Ret; [apply fh_tell_run|cbv beta].
      eapply run_bind_Ret; [exact Hr|cbv beta].
      eapply run_bind_Raise. apply run_lift. exact HL. }
  set (h0 := at_position (position (_fh h) + length hb) h) in *.
  set (btr := if 44 <=? L then 44 else L).
  destruct (fh_read_cases py3 btr h0) as [Hr1|[buf [Hr1 _]]].
  { right; left. exists ValueError, h0. split; [|discriminate].
    eapply run_bind_Ret; [apply fh_tell_run|cbv beta].
    eapply run_bind_Ret; [exact Hr|cbv beta].
    eapply run_bind_Ret; [apply run_lift; exact HL|cbv beta zeta].
    eapply run_bind_Raise. exact Hr1. }
  set (h1 := at_position (position (_fh h0) + length buf) h0) in *.
  destruct (np_frombuffer_outcome buf) as [Hfb|Hfb].
  2:{ right; left. exists ValueError, h1. split; [|discriminate].
      eapply run_bind_Ret; [apply fh_tell_run|cbv beta].
      eapply run_bind_Ret; [exact Hr|cbv beta].
      eapply run_bind_Ret; [apply run_lift; exact HL|cbv beta zeta].
      eapply run_bind_Ret; [exact Hr1|cbv beta].
      eapply run_bind_Raise. apply run_lift. exact Hfb. }
  destruct (catalog_cases py3 (words buf) last h1)
    as [[e [h2 [Hcat [He _]]]]|[sz [k [d [l [i1 [i2 [i3 [i4 [Hcat [Hd Hl]]]]]]]]]]].
  { right; left. exists e, h2. split; [|destruct He as [->|[->| ->]]; discriminate].
    eapply run_bind_Ret; [apply fh_tell_run|cbv beta].
    eapply run_bind_Ret; [exact Hr|cbv beta].
    eapply run_bind_Ret; [apply run_lift; exact HL|cbv beta zeta].
    eapply run_bind_Ret; [exact Hr1|cbv beta].
    eapply run_bind_Ret; [apply run_lift; exact Hfb|cbv beta].
    eapply run_bind_Raise. exact Hcat. }
  set (h2 := push_entry sz k d l i1 i2 i3 i4 last h1) in *.
  set (h3 := set_records (records h2 + 1) h2).
  assert (Hoff : 0 <= L - btr).
  { subst btr. destruct (44 <=? L) eqn:E; [apply Z.leb_le in E|]; lia. }
  set (h4 := at_position (position (_fh h3) + Z.to_nat (L - btr)) h3).
  assert (Hprefix : forall r,
            (tb <- fh_read py3 4 ;;
             fortran_trailer <- lift (struct_unpack_i tb) ;;
             if negb (L =? fortran_trailer) then
               raise (IOError "Bad Fortran record.")
             else
               append_offset (Z.of_nat (position (_fh h)) + 12) ;;;
               ty <- (tys <- gets (fun h => type (_index h)) ;;
                      lift (py_index tys (-1))) ;;
               if kind_eqb ty station then gets records else ret last) h4 = r ->
            (pos <- fh_tell ;;
             hb <- fh_read py3 4 ;;
             fortran_header <- lift (struct_unpack_i hb) ;;
             let bytes_to_read := if 44 <=? fortran_header then 44 else fortran_header in
             buf <- fh_read py3 bytes_to_read ;;
             temp <- lift (np_frombuffer buf) ;;
             catalog py3 temp last ;;;
             modify (fun h => set_records (records h + 1) h) ;;;
             fh_seek_cur (fortran_header - bytes_to_read) ;;;
             tb <- fh_read py3 4 ;;
             fortran_trailer <- lift (struct_unpack_i tb) ;;
             if negb (fortran_header =? fortran_trailer) then
               raise (IOError "Bad Fortran record.")
             else
               append_offset (pos + 12) ;;;
               ty <- (tys <- gets (fun h => type (_index h)) ;;
                      lift (py_index tys (-1))) ;;
               if kind_eqb ty station then gets records else ret last) h = r).
  { intros r Hrr.
    eapply run_bind_Ret; [apply fh_tell_run|cbv beta].
    eapply run_bind_Ret; [exact Hr|cbv beta].
    eapply run_bind_Ret; [apply run_lift; exact HL|cbv beta zeta].
    eapply run_bind_Ret; [exact Hr1|cbv beta].
    eapply run_bind_Ret; [apply run_lift; exact Hfb|cbv beta].
    eapply run_bind_Ret; [exact Hcat|cbv beta].
    eapply run_bind_Ret; [apply run_modify|cbv beta].
    eapply run_bind_Ret; [apply fh_seek_cur_run; exact Hoff|cbv beta].
    exact Hrr. }
  destruct (fh_read_cases py3 4 h4) as [Hr4|[tb [Hr4 [Ht1 _]]]].
  { right; left. exists ValueError, h4. split; [|discriminate].
    apply Hprefix. eapply run_bind_Raise. exact Hr4. }
  destruct (struct_unpack_i_outcome tb) as [[Htl [t Ht]]|[Htl Ht]].
  2:{ right; right. exists sz, k, d, l, i1, i2, i3, i4.
      exists (position (_fh h4) + length tb)%nat.
      split; [exact Hd|]. split; [exact Hl|]. cbv zeta.
      left. apply Hprefix.
      eapply run_bind_Ret; [exact Hr4|cbv beta].
      eapply run_bind_Raise. apply run_lift. exact Ht. }
  destruct (L =? t) eqn:ELt.
  2:{ right; left. exists (IOError "Bad Fortran record."). eexists.
      split; [|discriminate].
      apply Hprefix.
      eapply run_bind_Ret; [exact Hr4|cbv beta].
      eapply run_bind_Ret; [apply run_lift; exact Ht|cbv beta].
      rewrite ELt. reflexivity. }
  right; right. exists sz, k, d, l, i1, i2, i3, i4.
  exists (position (_fh h4) + length tb)%nat.
  split; [exact Hd|]. split; [exact Hl|]. cbv zeta.
  right. eexists. split.
  - apply Hprefix.
    eapply run_bind_Ret; [exact Hr4|cbv beta].
    eapply run_bind_Ret; [apply run_lift; exact Ht|cbv beta].
    rewrite ELt. simpl negb. cbv iota.
    eapply run_bind_Ret; [reflexivity|cbv beta].
    eapply run_bind_Ret.
    { eapply run_bind_Ret; [apply run_gets|cbv beta].
      apply run_lift. exact (py_index_last _ (type (_index h)) k). }
    cbv beta. destruct (kind_eqb k station); reflexivity.
  - assert (Hne : tb <> []) by (intros ->; discriminate).
    specialize (Ht1 Hne).
    change (contents (_fh h4)) with (contents (_fh h)) in Ht1.
    change (position (_fh h4)) with
      (position (_fh h) + length hb + length buf + Z.to_nat (L - btr))%nat in *.
    lia.
Qed.

Lemma scan_S :
  forall fuel last h,
    scan py3 (S fuel) last h =
    match index_record py3 last h with
    | (Ret last', h') => scan py3 fuel last' h'
    | (Raise struct_error, h') => fh_seek 0 h'
    | (Raise e, h') => (Raise e, h')
    | (NoFuel, h') => (NoFuel, h')
    end.
Proof. reflexivity. Qed.

Lemma scan_raise :
  forall fuel last h e h',
    index_record py3 last h = (Raise e, h') -> e <> struct_error ->
    scan py3 (S fuel) last h = (Raise e, h').
Proof.
  intros fuel last h e h' H He. rewrite scan_S, H.
  destruct e; try reflexivity. contradiction.
Qed.

Lemma scan_stop :
  forall fuel last h h',
    index_record py3 last h = (Raise struct_error, h') ->
    scan py3 (S fuel) last h = (Ret tt, at_position 0 h').
Proof.
  intros fuel last h h' H. rewrite scan_S, H. reflexivity.
Qed.

Lemma scan_continue :
  forall fuel last h last' h',
    index_record py3 last h = (Ret last', h') ->
    scan py3 (S fuel) last h = scan py3 fuel last' h'.
Proof.
  intros fuel last h last' h' H. rewrite scan_S, H. reflexivity.
Qed.

(** The loop ends within the fuel that [_get_index] gives it. *)
Lemma scan_never_runs_out :
  forall fuel last h,
    (length (contents (_fh h)) - position (_fh h) < fuel)%nat ->
    fst (scan py3 fuel last h) <> NoFuel.
Proof.
  induction fuel as [|fuel IH]; intros last h Hfuel; [lia|].
  destruct (index_record_cases last h) as [[p H]|[[e [h' [H He]]]|H]];
    [| |destruct H as (sz & k & d & l & i1 & i2 & i3 & i4 & p & _ & _ & H);
        cbv zeta in H; destruct H as [H|[o [H Hpos]]]].
  - rewrite (scan_stop _ _ _ _ H). discriminate.
  - rewrite (scan_raise _ _ _ _ _ H He). discriminate.
  - rewrite (scan_stop _ _ _ _ H). discriminate.
  - rewrite (scan_continue _ _ _ _ _ H). apply IH.
    rewrite at_position_contents, at_position_position.
    change (contents (_fh (push_offset o _))) with (contents (_fh h)). lia.
Qed.


Lemma last_station_snoc :
  forall tys k,
    last_station (tys ++ [k]) =
    if kind_eqb k station then Z.of_nat (length tys) + 1 else last_station tys.
Proof.
  intros tys k. unfold last_station. rewrite rev_app_distr. simpl.
  rewrite length_rev. destruct (kind_eqb k station); [lia|reflexivity].
Qed.

Lemma links_ok_push :
  forall ix ix' k,
    links_ok ix ->
    type ix' = type ix ++ [k] ->
    linked_station_id_record ix' =
      linked_station_id_record ix ++ [last_station (type ix)] ->
    links_ok ix'.
Proof.
  intros ix ix' k Hok Hty Hlk. unfold links_ok in *.
  rewrite Hlk, Hty, length_app. simpl length.
  rewrite seq_app, map_app. simpl. f_equal.
  - rewrite Hok. apply map_ext_in. intros i Hi. apply in_seq in Hi.
    rewrite firstn_app. replace (i - length (type ix))%nat with 0%nat by lia.
    simpl. rewrite app_nil_r. reflexivity.
  - rewrite firstn_app, firstn_all, Nat.sub_diag. simpl. rewrite app_nil_r.
    reflexivity.
Qed.

Lemma aligned_push :
  forall col tys d k,
    aligned col tys -> is_some d = kind_eqb k data ->
    aligned (col ++ [d]) (tys ++ [k]).
Proof.
  intros col tys d k H Hd. unfold aligned in *.
  rewrite !map_app, H. simpl. rewrite Hd. reflexivity.
Qed.

(** One more entry keeps the invariant, whatever becomes of the file
    position and of the key ['offset']. *)
Lemma index_inv_push :
  forall h h' k d l,
    index_inv h ->
    is_some d = kind_eqb k data -> is_some l = kind_eqb k data ->
    records h' = records h + 1 ->
    type (_index h') = type (_index h) ++ [k] ->
    date (_index h') = date (_index h) ++ [d] ->
    lead (_index h') = lead (_index h) ++ [l] ->
    linked_station_id_record (_index h') =
      linked_station_id_record (_index h) ++ [last_station (type (_index h))] ->
    index_inv h'.
Proof.
  intros h h' k d l (Hr & Hl & Hd & Hle) Ed El Hrec Hty Hdt Hld Hlk.
  unfold index_inv. rewrite Hrec, Hty, Hdt, Hld, length_app. simpl length.
  repeat split.
  - lia.
  - eapply links_ok_push; eassumption.
  - apply aligned_push; assumption.
  - apply aligned_push; assumption.
Qed.

(** When the loop ends normally the invariant holds of the object, whose
    file is back at byte 0. *)
Lemma scan_inv :
  forall fuel last h h',
    index_inv h -> last = last_station (type (_index h)) ->
    scan py3 fuel last h = (Ret tt, h') ->
    index_inv h' /\ _fh h' = mk_file (contents (_fh h)) 0
    /\ _hasindex h' = _hasindex h.
Proof.
  induction fuel as [|fuel IH]; intros last h h' Hinv Hlast Hscan;
    [discriminate|]. subst last.
  destruct (index_record_cases (last_station (type (_index h))) h)
    as [[p H]|[[e [h1 [H He]]]|H]];
    [| |destruct H as (sz & k & d & l & i1 & i2 & i3 & i4 & p & Ed & El & H);
        cbv zeta in H; destruct H as [H|[o [H Hpos]]]].
  - rewrite (scan_stop _ _ _ _ H) in Hscan. inversion Hscan; subst.
    split; [exact Hinv|]. split; reflexivity.
  - rewrite (scan_raise _ _ _ _ _ H He) in Hscan. discriminate.
  - rewrite (scan_stop _ _ _ _ H) in Hscan. inversion Hscan; subst.
    split; [|split; reflexivity].
    eapply (index_inv_push h _ k d l Hinv Ed El); reflexivity.
  - rewrite (scan_continue _ _ _ _ _ H) in Hscan.
    apply IH in Hscan.
    + destruct Hscan as (Hi & Hf & Hh). split; [exact Hi|]. split; assumption.
    + eapply (index_inv_push h _ k d l Hinv Ed El); reflexivity.
    + change (type (_index (at_position p (push_offset o
                (set_records (records h + 1)
                   (push_entry sz k d l i1 i2 i3 i4
                      (last_station (type (_index h))) h))))))
        with (type (_index h) ++ [k]).
      rewrite last_station_snoc. destruct Hinv as (Hr & _). rewrite Hr.
      reflexivity.
Qed.


Lemma bind_Ret_inv :
  forall (A B : Type) (m : M A) (k : A -> M B) h b h',
    bind m k h = (Ret b, h') ->
    exists a h1, m h = (Ret a, h1) /\ k a h1 = (Ret b, h').
Proof.
  intros A B m k h b h' H. unfold bind in H.
  destruct (m h) as [[a| e |] h1]; try discriminate. eauto.
Qed.

Lemma py_sorted_set_Ret :
  forall col l,
    py_sorted_set py3 col = Ret l ->
    StronglySorted opt_lt l /\ (forall x, In x l <-> In x col).
Proof.
  intros col l. unfold py_sorted_set.
  assert (Hs : forall vs, ascending vs -> StronglySorted opt_lt (map Some vs)).
  { induction vs as [|v vs IH]; intros Ha; simpl; constructor.
    - apply IH. inversion Ha; assumption.
    - inversion Ha as [|? ? _ Hall]; subst.
      apply Forall_forall. intros x Hx. apply in_map_iff in Hx as [y [<- Hy]].
      rewrite Forall_forall in Hall. apply Hall, Hy. }
  assert (Hsome : forall v, In (Some v) col <-> In v (somes col)).
  { intros v. induction col as [|[c|] col IH]; simpl; [tauto| |].
    - rewrite <- IH. split; intros [H|H]; auto; left; congruence.
    - rewrite <- IH. split; [intros [H|H]; [discriminate|assumption]|auto]. }
  assert (Hnone : has_none col = true <-> In None col).
  { unfold has_none. rewrite existsb_exists. split.
    - intros [[x|] [Hin Hx]]; [discriminate|assumption].
    - intros Hin. exists None. split; [assumption|reflexivity]. }
  assert (Hmem : forall x, In x (map Some (sorted_set (somes col)))
                           <-> exists v, x = Some v /\ In (Some v) col).
  { intros x. rewrite in_map_iff. split.
    - intros [v [<- Hv]]. exists v. split; [reflexivity|].
      apply Hsome, sorted_set_In, Hv.
    - intros [v [-> Hv]]. exists v. split; [reflexivity|].
      apply sorted_set_In, Hsome, Hv. }
  pose proof (sorted_set_ascending (somes col)) as Hasc.
  destruct (has_none col) eqn:En.
  - assert (HN : In None col) by (apply Hnone; reflexivity).
    destruct (sorted_set (somes col)) as [|v vs] eqn:Ev.
    + intros H; inversion H; subst. split; [repeat constructor|].
      intros [x|]; simpl.
      * split; [intros [H0|[]]; discriminate|].
        intros Hx. exfalso.
        assert (In x []) by (rewrite <- Ev; apply sorted_set_In, Hsome, Hx).
        contradiction.
      * tauto.
    + destruct py3; [discriminate|].
      intros H; inversion H; subst.
      change (Some v :: map Some vs) with (map Some (v :: vs)). split.
      * constructor; [apply Hs, Hasc|].
        apply Forall_forall. intros x Hx. apply in_map_iff in Hx as [y [<- _]].
        exact I.
      * intros [x|].
        { split.
          - intros [H0|H0]; [discriminate|].
            apply Hmem in H0 as [w [Hw Hin]]. inversion Hw; subst. assumption.
          - intros Hx. right. apply Hmem. eauto. }
        { split; [intros _; assumption|intros _; left; reflexivity]. }
  - intros H; inversion H; subst. split; [apply Hs, Hasc|].
    intros [x|].
    + rewrite Hmem. split.
      * intros [w [Hw Hin]]. inversion Hw; subst. assumption.
      * eauto.
    + rewrite Hmem. split.
      * intros [w [Hw _]]. discriminate.
      * intros HN. apply Hnone in HN. congruence.
Qed.

(** What a successful [open] leaves: the loop ended normally, and the two
    tuples were computed from the index it built. *)
Lemma open_Ret_inv :
  forall bytes h,
    open py3 bytes = Ret h ->
    index_inv h
    /\ _hasindex h = true
    /\ _fh h = mk_file bytes 0
    /\ py_sorted_set py3 (date (_index h)) = Ret (dates h)
    /\ py_sorted_set py3 (lead (_index h)) = Ret (leadtimes h).
Proof.
  intros bytes h. unfold open, __init__.
  destruct (_get_index py3 _) as [[[]| e |] h'] eqn:H; try discriminate.
  intros Hh; inversion Hh; subst h'. clear Hh.
  unfold _get_index in H.
  apply bind_Ret_inv in H as ([] & h1 & H1 & H).
  apply bind_Ret_inv in H as (n & h2 & H2 & H).
  apply bind_Ret_inv in H as ([] & h3 & H3 & H).
  apply bind_Ret_inv in H as ([] & h4 & H4 & H).
  apply bind_Ret_inv in H as (ds & h5 & H5 & H).
  apply bind_Ret_inv in H as ([] & h6 & H6 & H).
  apply bind_Ret_inv in H as (ls & h7 & H7 & H).
  apply bind_Ret_inv in H5 as (col & h5' & H5a & H5b).
  apply bind_Ret_inv in H7 as (col' & h7' & H7a & H7b).
  unfold modify, gets, lift in *.
  inversion H1; subst h1; clear H1. inversion H2; subst n h2; clear H2.
  inversion H4; subst h4; clear H4.
  inversion H5a; subst col h5'; clear H5a.
  inversion H5b as [[Hds Hh5]]; subst h5; clear H5b.
  inversion H6; subst h6; clear H6.
  inversion H7a; subst col' h7'; clear H7a.
  inversion H7b as [[Hls Hh7]]; subst h7; clear H7b.
  inversion H; subst h; clear H.
  apply scan_inv in H3.
  - destruct H3 as (Hinv & Hfh & Hhas).
    cbn [_index set_leadtimes set_dates set_hasindex _hasindex _fh dates leadtimes].
    split; [exact Hinv|]. split; [reflexivity|]. split; [exact Hfh|].
    split; assumption.
  - repeat split.
  - reflexivity.
Qed.

(** [open] ends: it returns the object or raises. *)
Lemma open_never_runs_out :
  forall bytes, open py3 bytes <> NoFuel.
Proof.
  intros bytes. unfold open, __init__.
  set (h00 := mk_handle (mk_file bytes 0) false empty_index 0 0 [] [] []).
  set (h0 := set_index empty_index h00).
  pose proof (scan_never_runs_out (S (length bytes)) 0 h0) as Hscan.
  assert (Hfuel : (length (contents (_fh h0)) - position (_fh h0)
                   < S (length bytes))%nat) by (simpl; lia).
  specialize (Hscan Hfuel).
  destruct (scan py3 (S (length bytes)) 0 h0) as [[[]| e |] h1] eqn:Es;
    [| |contradiction Hscan; reflexivity].
  - assert (Hget : exists o h', _get_index py3 h00 = (o, h') /\ o <> NoFuel).
    { unfold _get_index.
      destruct (py_sorted_set py3 (date (_index h1))) as [ds| e |] eqn:Ed.
      - destruct (py_sorted_set py3 (lead (_index h1))) as [ls| e |] eqn:El.
        + exists (Ret tt). eexists. split; [|discriminate].
          eapply run_bind_Ret; [apply run_modify|cbv beta].
          eapply run_bind_Ret; [apply run_gets|cbv beta].
          eapply run_bind_Ret; [exact Es|cbv beta].
          eapply run_bind_Ret; [apply run_modify|cbv beta].
          eapply run_bind_Ret.
          { eapply run_bind_Ret; [apply run_gets|cbv beta].
            apply run_lift. exact Ed. }
          cbv beta.
          eapply run_bind_Ret; [apply run_modify|cbv beta].
          eapply run_bind_Ret.
          { eapply run_bind_Ret; [apply run_gets|cbv beta].
            apply run_lift. exact El. }
          cbv beta. apply run_modify.
        + exists (Raise e). eexists. split; [|discriminate].
          eapply run_bind_Ret; [apply run_modify|cbv beta].
          eapply run_bind_Ret; [apply run_gets|cbv beta].
          eapply run_bind_Ret; [exact Es|cbv beta].
          eapply run_bind_Ret; [apply run_modify|cbv beta].
          eapply run_bind_Ret.
          { eapply run_bind_Ret; [apply run_gets|cbv beta].
            apply run_lift. exact Ed. }
          cbv beta.
          eapply run_bind_Ret; [apply run_modify|cbv beta].
          eapply run_bind_Raise.
          eapply run_bind_Ret; [apply run_gets|cbv beta].
          apply run_lift. exact El.
        + exfalso. unfold py_sorted_set in El.
          destruct (has_none _); [destruct (sorted_set _); [|destruct py3]|];
            discriminate.
      - exists (Raise e). eexists. split; [|discriminate].
        eapply run_bind_Ret; [apply run_modify|cbv beta].
        eapply run_bind_Ret; [apply run_gets|cbv beta].
        eapply run_bind_Ret; [exact Es|cbv beta].
        eapply run_bind_Ret; [apply run_modify|cbv beta].
        eapply run_bind_Raise.
        eapply run_bind_Ret; [apply run_gets|cbv beta].
        apply run_lift. exact Ed.
      - exfalso. unfold py_sorted_set in Ed.
        destruct (has_none _); [destruct (sorted_set _); [|destruct py3]|];
          discriminate. }
    destruct Hget as (o & h' & Hget & Ho). rewrite Hget.
    destruct o; [discriminate|discriminate|contradiction].
  - assert (Hget : _get_index py3 h00 = (Raise e, h1)).
    { unfold _get_index.
      eapply run_bind_Ret; [apply run_modify|cbv beta].
      eapply run_bind_Ret; [apply run_gets|cbv beta].
      eapply run_bind_Raise. exact Es. }
    rewrite Hget. discriminate.
Qed.

End Scan.

(** ** The built index *)

Lemma kind_eqb_eq : forall a b, kind_eqb a b = true <-> a = b.
Proof. intros [] []; simpl; split; intros H; try reflexivity; discriminate. Qed.

(** [last_station] by what it denotes: no station record at all, or the
    position of the last one. *)
Lemma last_station_spec :
  forall tys,
    (last_station tys = 0 /\ forall j, nth_error tys j <> Some station)
    \/ (1 <= last_station tys <= Z.of_nat (length tys)
        /\ nth_error tys (Z.to_nat (last_station tys - 1)) = Some station
        /\ forall j, (Z.to_nat (last_station tys) <= j)%nat ->
                     nth_error tys j <> Some station).
Proof.
  induction tys as [|k tys IH] using rev_ind.
  - left. split; [reflexivity|]. intros [|j]; discriminate.
  - rewrite last_station_snoc, length_app. simpl length.
    destruct (kind_eqb k station) eqn:Ek.
    + apply kind_eqb_eq in Ek. subst k. right. split; [lia|]. split.
      * replace (Z.to_nat (Z.of_nat (length tys) + 1 - 1)) with (length tys) by lia.
        rewrite nth_error_app2 by lia. rewrite Nat.sub_diag. reflexivity.
      * intros j Hj. assert (Hn : nth_error (tys ++ [station]) j = None).
        { apply nth_error_None. rewrite length_app. simpl. lia. }
        rewrite Hn. discriminate.
    + assert (Hk : k <> station).
      { intros ->. discriminate. }
      assert (Hlast : forall j, (length tys <= j)%nat ->
                nth_error (tys ++ [k]) j <> Some station).
      { intros j Hj. rewrite nth_error_app2 by lia.
        destruct (j - length tys)%nat as [|n]; simpl.
        - congruence.
        - destruct n; discriminate. }
      destruct IH as [[H0 Hno]|[Hr [Hst Hno]]].
      * left. split; [assumption|]. intros j.
        destruct (Nat.lt_ge_cases j (length tys)) as [Hj|Hj].
        { rewrite nth_error_app1 by assumption. apply Hno. }
        { apply Hlast, Hj. }
      * right. split; [lia|]. split.
        { rewrite nth_error_app1 by lia. assumption. }
        { intros j Hj. destruct (Nat.lt_ge_cases j (length tys)) as [Hj'|Hj'].
          - rewrite nth_error_app1 by assumption. apply Hno, Hj.
          - apply Hlast, Hj'. }
Qed.

Lemma links_ok_nth :
  forall ix i lk,
    links_ok ix ->
    nth_error (linked_station_id_record ix) i = Some lk ->
    (i < length (type ix))%nat /\ lk = last_station (firstn i (type ix)).
Proof.
  intros ix i lk Hok Hn. unfold links_ok in Hok. rewrite Hok in Hn.
  assert (Hi : (i < length (type ix))%nat).
  { assert (H : nth_error (map (fun i => last_station (firstn i (type ix)))
                              (seq 0 (length (type ix)))) i <> None)
      by (rewrite Hn; discriminate).
    apply nth_error_Some in H. rewrite length_map, length_seq in H. exact H. }
  split; [exact Hi|].
  rewrite nth_error_map, nth_error_seq in Hn.
  destruct (Nat.ltb i (length (type ix))) eqn:E.
  - simpl in Hn. inversion Hn. reflexivity.
  - apply Nat.ltb_ge in E. lia.
Qed.

Lemma links_ok_length :
  forall ix, links_ok ix ->
    length (linked_station_id_record ix) = length (type ix).
Proof.
  intros ix H. unfold links_ok in H. rewrite H, length_map, length_seq. reflexivity.
Qed.

(** C9. In the index of a file that was opened, the list of links is as
    long as the list of records, and the link of the entry at position [i]
    (record number [i + 1]) is 0 when none of the records before it is a
    station record, and otherwise the record number of the last station
    record before it: the link never exceeds [i], so it is below the
    entry's own record number, also for a station record, whose number
    becomes the link only of the entries after it. *)
Theorem linked_station_is_most_recent :
  forall (py3 : bool) (bytes : list byte) (h : handle),
    open py3 bytes = Ret h ->
    length (linked_station_id_record (_index h)) = length (type (_index h))
    /\ records h = Z.of_nat (length (type (_index h)))
    /\ forall (i : nat) (lk : Z),
         nth_error (linked_station_id_record (_index h)) i = Some lk ->
         lk <= Z.of_nat i + 1
         /\ ((lk = 0
              /\ forall j, (j < i)%nat ->
                           nth_error (type (_index h)) j <> Some station)
             \/ (1 <= lk <= Z.of_nat i
                 /\ nth_error (type (_index h)) (Z.to_nat (lk - 1)) = Some station
                 /\ forall j, (Z.to_nat lk <= j < i)%nat ->
                              nth_error (type (_index h)) j <> Some station)).
Proof.
  intros py3 bytes h Hopen.
  apply open_Ret_inv in Hopen as ((Hrec & Hlinks & _) & _).
  split; [apply links_ok_length, Hlinks|]. split; [exact Hrec|].
  intros i lk Hn. apply links_ok_nth in Hn as [Hi ->]; [|exact Hlinks].
  assert (Hlen : length (firstn i (type (_index h))) = i)
    by (rewrite length_firstn; lia).
  assert (Hnth : forall j, (j < i)%nat ->
            nth_error (firstn i (type (_index h))) j = nth_error (type (_index h)) j).
  { intros j Hj. rewrite nth_error_firstn.
    destruct (Nat.ltb j i) eqn:E; [reflexivity|apply Nat.ltb_ge in E; lia]. }
  destruct (last_station_spec (firstn i (type (_index h))))
    as [[H0 Hno]|[Hr [Hst Hno]]]; [|rewrite Hlen in Hr].
  - split; [lia|]. left. split; [assumption|].
    intros j Hj. rewrite <- Hnth by assumption. apply Hno.
  - split; [lia|]. right. split; [lia|]. split.
    + rewrite <- Hnth by lia. assumption.
    + intros j Hj. rewrite <- Hnth by lia. apply Hno. lia.
Qed.

Lemma aligned_nth :
  forall col tys, aligned col tys ->
    forall i,
      match nth_error col i, nth_error tys i with
      | Some c, Some k => is_some c = kind_eqb k data
      | None, None => True
      | _, _ => False
      end.
Proof.
  intros col tys H i. unfold aligned in H.
  assert (Hn : nth_error (map is_some col) i
               = nth_error (map (fun k => kind_eqb k data) tys) i)
    by (rewrite H; reflexivity).
  rewrite !nth_error_map in Hn.
  destruct (nth_error col i), (nth_error tys i); simpl in Hn;
    try discriminate; [congruence|exact I].
Qed.

(** The values of an aligned key: numbers at the data records, [None] at the
    others. *)
Lemma aligned_In :
  forall col tys, aligned col tys ->
    (forall v, In (Some v) col <->
               exists i, nth_error tys i = Some data
                         /\ nth_error col i = Some (Some v))
    /\ (In None col <-> exists i k, nth_error tys i = Some k /\ k <> data).
Proof.
  intros col tys H. split.
  - intros v. split.
    + intros Hin. apply In_nth_error in Hin as [i Hi]. exists i.
      split; [|assumption].
      pose proof (aligned_nth col tys H i) as Ha. rewrite Hi in Ha.
      destruct (nth_error tys i) as [k|]; [|contradiction].
      simpl in Ha. symmetry in Ha. apply kind_eqb_eq in Ha. subst; reflexivity.
    + intros [i [_ Hi]]. eapply nth_error_In, Hi.
  - split.
    + intros Hin. apply In_nth_error in Hin as [i Hi]. exists i.
      pose proof (aligned_nth col tys H i) as Ha. rewrite Hi in Ha.
      destruct (nth_error tys i) as [k|]; [|contradiction].
      exists k. split; [reflexivity|]. intros ->. discriminate.
    + intros [i [k [Hk Hne]]].
      pose proof (aligned_nth col tys H i) as Ha. rewrite Hk in Ha.
      destruct (nth_error col i) as [[v|]|] eqn:Hi; [| |contradiction].
      * simpl in Ha. symmetry in Ha. apply kind_eqb_eq in Ha. contradiction.
      * eapply nth_error_In, Hi.
Qed.

(** C2 (as the code has it). After [open] has returned, [dates] is strictly
    ascending for the order that puts [None] before every number, hence
    free of duplicates; it holds the reference dates of the data records,
    and it holds [None] as well exactly when the file has a record that is
    not a data record. [leadtimes] is built from the lead times in the same
    way. *)
Theorem dates_and_leadtimes_of_index :
  forall (py3 : bool) (bytes : list byte) (h : handle),
    open py3 bytes = Ret h ->
    let tys := type (_index h) in
    (StronglySorted opt_lt (dates h)
     /\ (forall v, In (Some v) (dates h) <->
                   exists i, nth_error tys i = Some data
                             /\ nth_error (date (_index h)) i = Some (Some v))
     /\ (In None (dates h) <-> exists i k, nth_error tys i = Some k /\ k <> data))
    /\ (StronglySorted opt_lt (leadtimes h)
        /\ (forall v, In (Some v) (leadtimes h) <->
                      exists i, nth_error tys i = Some data
                                /\ nth_error (lead (_index h)) i = Some (Some v))
        /\ (In None (leadtimes h) <->
            exists i k, nth_error tys i = Some k /\ k <> data)).
Proof.
  intros py3 bytes h Hopen tys.
  apply open_Ret_inv in Hopen as ((_ & _ & Hd & Hl) & _ & _ & Hds & Hls).
  apply py_sorted_set_Ret in Hds as [Hsd Hmd].
  apply py_sorted_set_Ret in Hls as [Hsl Hml].
  destruct (aligned_In _ _ Hd) as [Hd1 Hd2].
  destruct (aligned_In _ _ Hl) as [Hl1 Hl2].
  split; (split; [assumption|split]).
  - intros v. rewrite Hmd. apply Hd1.
  - rewrite Hmd. apply Hd2.
  - intros v. rewrite Hml. apply Hl1.
  - rewrite Hml. apply Hl2.
Qed.


(** ** Frames with unequal markers *)

Section BadFrame.

Variable py3 : bool.

(** What a pass does on a whole frame: it raises an exception other than
    [struct.error], or the two markers agree and it goes on, the file being
    just behind the frame. *)
Lemma index_record_on_frame :
  forall h pre payload tr rest last,
    contents (_fh h) = pre ++ pack_i (Z.of_nat (length payload)) ++ payload ++ tr ++ rest ->
    position (_fh h) = length pre ->
    Z.of_nat (length payload) < 2 ^ 31 ->
    length tr = 4%nat ->
    (exists e h', index_record py3 last h = (Raise e, h') /\ e <> struct_error)
    \/ (struct_unpack_i tr = Ret (Z.of_nat (length payload))
        /\ exists last' h',
             index_record py3 last h = (Ret last', h')
             /\ contents (_fh h') = contents (_fh h)
             /\ position (_fh h') = (length pre + 8 + length payload)%nat).
Proof.
  intros h pre payload tr rest last Hc Hp HL Htr.
  destruct (np_frombuffer_outcome (firstn 44 payload)) as [Hfb|Hfb].
  2:{ left. do 2 eexists. split;
        [eapply index_record_window_error; eassumption|discriminate]. }
  destruct (catalog_cases py3 (words (firstn 44 payload)) last
              (at_position (length pre + 4 + length (firstn 44 payload)) h))
    as [[e [h2 [Hcat [He _]]]]|[sz [k [d [l [i1 [i2 [i3 [i4 [Hcat _]]]]]]]]]].
  { left. exists e, h2. split;
      [eapply index_record_catalog_error; eassumption
      |destruct He as [->|[->| ->]]; discriminate]. }
  destruct (struct_unpack_i_outcome tr) as [[_ [t Ht]]|[Hne _]]; [|contradiction].
  pose proof (index_record_tail py3 h pre payload tr rest last Hc Hp HL Htr
                _ sz k d l i1 i2 i3 i4 t Hfb Hcat Ht) as Hrun.
  destruct (Z.of_nat (length payload) =? t) eqn:E.
  - apply Z.eqb_eq in E. subst t. right. split; [exact Ht|].
    do 2 eexists. split; [exact Hrun|]. split; reflexivity.
  - left. do 2 eexists. split; [exact Hrun|discriminate].
Qed.

Lemma frame_length :
  forall p, length (frame p) = (8 + length p)%nat.
Proof.
  intros p. unfold frame. rewrite !length_app, !pack_i_length. lia.
Qed.

(** The loop over frames with equal markers followed by one with unequal
    markers ends with an exception. *)
Lemma scan_bad_frame :
  forall good fuel last h pre payload tr rest,
    Forall (fun p => Z.of_nat (length p) < 2 ^ 31) (payload :: good) ->
    length tr = 4%nat ->
    struct_unpack_i tr <> Ret (Z.of_nat (length payload)) ->
    contents (_fh h) =
      pre ++ concat (map frame good)
          ++ pack_i (Z.of_nat (length payload)) ++ payload ++ tr ++ rest ->
    position (_fh h) = length pre ->
    (length good < fuel)%nat ->
    exists e h', scan py3 fuel last h = (Raise e, h').
Proof.
  induction good as [|p good IH];
    intros fuel last h pre payload tr rest Hsmall Htr Hbad Hc Hp Hfuel.
  - destruct fuel as [|fuel]; [simpl in Hfuel; lia|].
    inversion Hsmall as [|? ? HL _]; subst.
    destruct (index_record_on_frame h pre payload tr rest last Hc Hp HL Htr)
      as [[e [h' [H He]]]|[Hgood _]]; [|contradiction].
    exists e, h'. apply scan_raise; assumption.
  - destruct fuel as [|fuel]; [simpl in Hfuel; lia|].
    inversion Hsmall as [|? ? HL Hrest]; subst.
    inversion Hrest as [|? ? Hp0 Hgood]; subst.
    assert (Hc' : contents (_fh h) =
                  pre ++ pack_i (Z.of_nat (length p)) ++ p
                      ++ pack_i (Z.of_nat (length p))
                      ++ (concat (map frame good)
                          ++ pack_i (Z.of_nat (length payload)) ++ payload
                          ++ tr ++ rest)).
    { rewrite Hc.
      change (concat (map frame (p :: good)))
        with (frame p ++ concat (map frame good)).
      unfold frame at 1. rewrite <- !app_assoc. reflexivity. }
    destruct (index_record_on_frame h pre p (pack_i (Z.of_nat (length p))) _ last
                Hc' Hp Hp0 (pack_i_length _))
      as [[e [h' [H He]]]|[_ [last' [h' [H [Hc1 Hp1]]]]]].
    + exists e, h'. apply scan_raise; assumption.
    + rewrite (scan_continue _ _ _ _ _ _ H).
      apply (IH fuel last' h' (pre ++ frame p) payload tr rest).
      * constructor; assumption.
      * exact Htr.
      * exact Hbad.
      * rewrite Hc1, Hc.
        change (concat (map frame (p :: good)))
          with (frame p ++ concat (map frame good)).
        rewrite <- !app_assoc. reflexivity.
      * rewrite Hp1, length_app, frame_length. lia.
      * simpl in Hfuel. lia.
Qed.

Lemma frames_length :
  forall good, (length good <= length (concat (map frame good)))%nat.
Proof.
  induction good as [|p good IH]; [simpl; lia|].
  change (concat (map frame (p :: good)))
    with (frame p ++ concat (map frame good)).
  rewrite length_app, frame_length. simpl length. lia.
Qed.

End BadFrame.

(** C5. A file in which frames with equal length markers are followed by a
    frame whose trailing marker differs from its leading one cannot be
    opened: [open] raises, so the caller gets no object and no record of
    the file through one. *)
Theorem unequal_markers_abort_open :
  forall (py3 : bool) (good : list (list byte)) (payload tr rest : list byte),
    Forall (fun p => Z.of_nat (length p) < 2 ^ 31) (payload :: good) ->
    length tr = 4%nat ->
    struct_unpack_i tr <> Ret (Z.of_nat (length payload)) ->
    exists e,
      open py3 (concat (map frame good)
                ++ pack_i (Z.of_nat (length payload)) ++ payload ++ tr ++ rest)
      = Raise e.
Proof.
  intros py3 good payload tr rest Hsmall Htr Hbad.
  set (bytes := concat (map frame good)
                ++ pack_i (Z.of_nat (length payload)) ++ payload ++ tr ++ rest).
  set (h0 := set_index empty_index
               (mk_handle (mk_file bytes 0) false empty_index 0 0 [] [] [])).
  destruct (scan_bad_frame py3 good (S (length bytes)) 0 h0 [] payload tr rest
              Hsmall Htr Hbad eq_refl eq_refl) as [e [h' Hscan]].
  { pose proof (frames_length good) as Hlen. subst bytes.
    rewrite length_app. lia. }
  exists e. unfold open, __init__.
  assert (Hget : _get_index py3
                   (mk_handle (mk_file bytes 0) false empty_index 0 0 [] [] [])
                 = (Raise e, h')).
  { unfold _get_index.
    eapply run_bind_Ret; [apply run_modify|cbv beta].
    eapply run_bind_Ret; [apply run_gets|cbv beta].
    eapply run_bind_Raise. exact Hscan. }
  rewrite Hget. reflexivity.
Qed.

(** ** Short frames *)

Lemma bytes_eqb_eq : forall x y, bytes_eqb x y = true <-> x = y.
Proof.
  intros x y. unfold bytes_eqb.
  destruct (list_eq_dec Byte.byte_eq_dec x y); split; intros; congruence.
Qed.

Lemma words_length : forall bs, (4 * length (words bs) <= length bs)%nat.
Proof.
  fix IH 1. intros [|a [|b [|c [|d rest]]]]; simpl; try lia.
  specialize (IH rest). lia.
Qed.

Lemma np_frombuffer_Ret :
  forall bs, Z.of_nat (length bs) mod 4 = 0 -> np_frombuffer bs = Ret (words bs).
Proof.
  intros bs H. unfold np_frombuffer. rewrite H. reflexivity.
Qed.

Lemma np_frombuffer_Raise :
  forall bs, Z.of_nat (length bs) mod 4 <> 0 -> np_frombuffer bs = Raise ValueError.
Proof.
  intros bs H. unfold np_frombuffer. apply Z.eqb_neq in H. rewrite H. reflexivity.
Qed.

Section ShortFrame.

Variable py3 : bool.
Variables (h : handle) (pre payload rest : list byte) (last : Z).

Hypothesis Hc : contents (_fh h) = pre ++ frame payload ++ rest.
Hypothesis Hp : position (_fh h) = length pre.
Hypothesis Hshort : (length payload < 44)%nat.

Lemma short_frame_dichotomy :
  (short_frame_ok py3 payload
   /\ exists t1 k last' h', short_frame_entry py3 h pre payload last t1 k last' h')
  \/ (~ short_frame_ok py3 payload
      /\ exists e h', index_record py3 last h = (Raise e, h')
                      /\ (e = IndexError \/ e = ValueError
                          \/ e = UnicodeDecodeError)).
Proof.
  assert (Hc' : contents (_fh h) =
                pre ++ pack_i (Z.of_nat (length payload)) ++ payload
                    ++ pack_i (Z.of_nat (length payload)) ++ rest).
  { rewrite Hc. unfold frame. rewrite <- !app_assoc. reflexivity. }
  assert (HL : Z.of_nat (length payload) < 2 ^ 31).
  { change (2 ^ 31) with 2147483648. lia. }
  assert (Hw : firstn 44 payload = payload) by (apply firstn_all2; lia).
  pose proof (index_record_window_error py3 h pre payload _ rest last
                Hc' Hp HL (pack_i_length _)) as Herr1.
  pose proof (index_record_catalog_error py3 h pre payload _ rest last
                Hc' Hp HL (pack_i_length _)) as Herr2.
  pose proof (index_record_tail py3 h pre payload _ rest last
                Hc' Hp HL (pack_i_length _)) as Htail.
  rewrite Hw in Herr1, Herr2, Htail.
  set (h1 := at_position (length pre + 4 + length payload) h) in *.
  assert (Hlen : (length (words payload) <= 10)%nat).
  { pose proof (words_length payload). lia. }
  destruct (Z.eq_dec (Z.of_nat (length payload) mod 4) 0) as [Hmod|Hmod].
  2:{ right. split; [intros [H _]; contradiction|].
      do 2 eexists. split; [apply Herr1, np_frombuffer_Raise, Hmod|auto]. }
  pose proof (np_frombuffer_Ret payload Hmod) as Hfb.
  assert (Hfail : forall e h2, catalog py3 (words payload) last h1 = (Raise e, h2) ->
            (e = IndexError \/ e = ValueError \/ e = UnicodeDecodeError) ->
            exists e h', index_record py3 last h = (Raise e, h')
                         /\ (e = IndexError \/ e = ValueError
                             \/ e = UnicodeDecodeError)).
  { intros e h2 Hcat He. exists e, h2. split; [|exact He].
    eapply Herr2; [exact Hfb|exact Hcat]. }
  destruct (py_index_outcome _ (words payload) 2) as [[t2 E2]|E2].
  2:{ right. split.
      - intros [_ [t2 [H _]]].  congruence.
      - apply (Hfail IndexError h1); [|auto].
        unfold catalog. eapply run_bind_Raise. apply run_lift. exact E2. }
  destruct (decode_outcome py3 (scalar_buffer t2)) as [Ed|Ed].
  2:{ right. split.
      - intros [_ [t2' [H [Hd _]]]].  congruence.
      - apply (Hfail UnicodeDecodeError h1); [|auto].
        unfold catalog. eapply run_bind_Ret; [apply run_lift; exact E2|cbv beta].
        eapply run_bind_Raise. apply run_lift. exact Ed. }
  destruct (bytes_eqb (scalar_buffer t2) PLDT) eqn:Eb.
  { right. split.
    - intros [_ [t2' [H [_ [Hne _]]]]]. 
      assert (t2' = t2) by congruence. subst t2'.
      apply Hne, bytes_eqb_eq, Eb.
    - destruct (catalog_data_cases (words payload) last h1)
        as [[e [h2 [Hcat [He _]]]]|[t1 [t6 [t7 [t8 [t9 [t10 [l [E10 _]]]]]]]]].
      + apply (Hfail e h2); [|destruct He as [->| ->]; auto].
        rewrite (catalog_PLDT py3 (words payload) last h1 t2 _ E2 Ed Eb). exact Hcat.
      + exfalso. apply py_index_Ret_iff in E10; [|lia].
        assert (H : nth_error (words payload) (Z.to_nat 10) <> None) by congruence.
        apply nth_error_Some in H. lia. }
  assert (Hne : scalar_buffer t2 <> PLDT).
  { intros H. apply bytes_eqb_eq in H. congruence. }
  destruct (py_index_below _ (words payload) 1 2 t2 ltac:(lia) E2) as [t1 E1].
  assert (Hok : forall k d l i1 i2 i3 i4,
            catalog py3 (words payload) last h1
            = (Ret tt, push_entry t1 k d l i1 i2 i3 i4 last h1) ->
            exists last' h',
              index_record py3 last h = (Ret last', h')
              /\ type (_index h') = type (_index h) ++ [k]
              /\ size (_index h') = size (_index h) ++ [t1]
              /\ id1 (_index h') = id1 (_index h) ++ [i1]
              /\ offset (_index h') = offset (_index h) ++ [Z.of_nat (length pre) + 12]
              /\ records h' = records h + 1
              /\ position (_fh h') = (length pre + 8 + length payload)%nat).
  { intros k d l i1 i2 i3 i4 Hcat.
    assert (Hrange : - 2 ^ 31 <= Z.of_nat (length payload) < 2 ^ 31)
      by (change (2 ^ 31) with 2147483648; lia).
    pose proof (Htail _ t1 k d l i1 i2 i3 i4 _ Hfb Hcat (unpack_pack_i _ Hrange))
      as Hrun.
    rewrite Z.eqb_refl in Hrun.
    do 2 eexists. split; [exact Hrun|]. repeat split. }
  assert (Hwit : forall k, (k = trailer /\ t1 = 24 /\ py_index (words payload) 6 = Ret 9999)
                     \/ (k = station /\ ~ (t1 = 24 /\ py_index (words payload) 6 = Ret 9999)) ->
                   forall d l i1 i2 i3 i4,
                     (k = station -> i1 = Some 400001000) ->
                     catalog py3 (words payload) last h1
                     = (Ret tt, push_entry t1 k d l i1 i2 i3 i4 last h1) ->
                   exists t1 k last' h', short_frame_entry py3 h pre payload last t1 k last' h').
  { intros k Hk d l i1 i2 i3 i4 Hi1 Hcat.
    destruct (Hok k d l i1 i2 i3 i4 Hcat)
      as (last' & h' & Hrun & Hty & Hsz & Hid & Hoff & Hrec & Hpos).
    exists t1, k, last', h'. unfold short_frame_entry.
    split; [exact E1|]. split; [exact Hrun|]. split.
    - destruct Hk as [Hk|[Hk Hn]]; [left; exact Hk|right].
      split; [exact Hk|]. split; [exact Hn|].
      rewrite Hid, nth_error_app2 by lia. rewrite Nat.sub_diag, (Hi1 Hk).
      reflexivity.
    - repeat split; assumption. }
  destruct (Z.eq_dec t1 24) as [->|Hne24].
  - destruct (py_index_outcome _ (words payload) 6) as [[t6 E6]|E6].
    + left. split.
      { split; [exact Hmod|]. exists t2.  repeat split; eauto. }
      destruct (Z.eq_dec t6 9999) as [->|Hne6].
      * eapply (Hwit trailer); [left; auto|discriminate|].
        eapply catalog_trailer_case; eassumption.
      * eapply (Hwit station).
        { right. split; [reflexivity|]. intros [_ H]. congruence. }
        { reflexivity. }
        eapply catalog_station_case; eauto.
    + right. split.
      * intros [_ [t2' [H [_ [_ H6]]]]]. 
        destruct (H6 E1) as [t6 H6']. congruence.
      * apply (Hfail IndexError h1); [|auto].
        eapply catalog_no_word6_case; eassumption.
  - left. split.
    { split; [exact Hmod|]. exists t2.  repeat split; eauto.
      intros H. congruence. }
    eapply (Hwit station).
    { right. split; [reflexivity|]. intros [H _]. contradiction. }
    { reflexivity. }
    eapply catalog_station_case; eauto.
Qed.

End ShortFrame.

Section Access.

Variable py3 : bool.
Variable unpack_raises : tdlpack_record -> option exn.

(** ** [record] out of range *)

(** C7. For a record number [n <= 0] or [n > records], [record(n)] returns
    [None] and does not raise; it gives one message to [warnings.warn] and
    changes nothing else of the object: file position, index, record count
    and cursor are as before. *)
Theorem record_out_of_range :
  forall (h : handle) (n : Z) (unpack : bool),
    n <= 0 \/ records h < n ->
    exists msg h',
      record py3 unpack_raises (Some n) unpack h = (Ret None, h')
      /\ h' = add_warning msg h
      /\ warned h' = warned h ++ [msg]
      /\ _fh h' = _fh h /\ _hasindex h' = _hasindex h /\ _index h' = _index h
      /\ records h' = records h /\ recordnumber h' = recordnumber h.
Proof.
  intros h n unpack Hn.
  unfold TdlpackIO.record.
  destruct (n <=? 0) eqn:E0.
  - exists "Record numbers begin at 1."%string.
    eexists; split; [reflexivity|]. repeat split.
  - apply Z.leb_gt in E0.
    assert (Hgt : records h < n) by lia.
    apply Z.ltb_lt in Hgt.
    exists "Not that many records in the file."%string.
    eexists; split.
    + unfold bind, gets. rewrite Hgt. reflexivity.
    + repeat split.
Qed.

(** ** [read] without a usable count *)

(** C10. [read()] with the default [num=None], and [read(num)] with a
    negative [num], raise before anything is read: the object is left as it
    was, cursor and file position included. *)
Theorem read_default_or_negative_raises :
  forall (h : handle) (unpack : bool),
    (exists e, read py3 unpack_raises None unpack h = (Raise e, h))
    /\ (forall n, n < 0 -> exists e, read py3 unpack_raises (Some n) unpack h = (Raise e, h)).
Proof.
  intros h unpack; split.
  - unfold TdlpackIO.read. destruct py3; eexists; reflexivity.
  - intros n Hn. unfold TdlpackIO.read.
    destruct (n =? 0) eqn:E0; [apply Z.eqb_eq in E0; lia|].
    destruct (n =? 1) eqn:E1; [apply Z.eqb_eq in E1; lia|].
    destruct (1 <? n) eqn:E2; [apply Z.ltb_lt in E2; lia|].
    eexists; reflexivity.
Qed.

(** [read(0)] returns the empty list and changes nothing. *)
Lemma read_zero :
  forall (h : handle) (unpack : bool),
    read py3 unpack_raises (Some 0) unpack h = (Ret [], h).
Proof. reflexivity. Qed.

(** ** [seek] then [read(1)] against [record] *)

(** [read(1)] returns exactly one record when it returns. *)
Lemma read_one_shape :
  forall unpack h,
    read py3 unpack_raises (Some 1) unpack h =
    match read_record py3 unpack_raises unpack (recordnumber h + 1) h with
    | (Ret r, h') => (Ret [r], h')
    | (Raise e, h') => (Raise e, h')
    | (NoFuel, h') => (NoFuel, h')
    end.
Proof.
  intros unpack h. unfold TdlpackIO.read. simpl.
  unfold bind, gets. simpl.
  destruct (TdlpackIO.read_record py3 unpack_raises unpack (recordnumber h + 1) h)
    as [[r| e |] h']; reflexivity.
Qed.

(** C8. For a valid record number [n], [seek(n)] followed by [read(1)] and
    [record(n)] do the same: when the first returns, it returns a list of
    one record, [record(n)] returns that record and the object ends in the
    same state; when the first raises, [record(n)] raises the same
    exception; and [record(n)] returns nothing that the first does not. *)
Theorem seek_then_read_is_record :
  forall (h : handle) (n : Z) (unpack : bool),
    1 <= n <= records h ->
    let seek_read := seek n ;;; read py3 unpack_raises (Some 1) unpack in
    (forall l h1, seek_read h = (Ret l, h1) ->
       exists r, l = [r]
                 /\ record py3 unpack_raises (Some n) unpack h = (Ret (Some r), h1))
    /\ (forall e h1, seek_read h = (Raise e, h1) ->
          record py3 unpack_raises (Some n) unpack h = (Raise e, h1))
    /\ (forall o h1, record py3 unpack_raises (Some n) unpack h = (Ret o, h1) ->
          exists r, o = Some r /\ seek_read h = (Ret [r], h1)).
Proof.
  intros h n unpack [Hlo Hhi] seek_read.
  assert (Hrec : record py3 unpack_raises (Some n) unpack h =
                 (l <- seek_read ;; r <- lift (py_index l 0) ;; ret (Some r)) h).
  { unfold record.
    destruct (n <=? 0) eqn:E0; [apply Z.leb_le in E0; lia|].
    unfold bind at 1, gets at 1.
    destruct (records h <? n) eqn:E1; [apply Z.ltb_lt in E1; lia|].
    subst seek_read. unfold bind.
    destruct (seek n h) as [[[]| e |] h0]; reflexivity. }
  assert (Hshape : forall l h1, seek_read h = (Ret l, h1) -> exists r, l = [r]).
  { subst seek_read. unfold bind. intros l h1.
    destruct (seek n h) as [[[]| e |] h0]; try discriminate.
    rewrite read_one_shape.
    destruct (read_record py3 unpack_raises unpack (recordnumber h0 + 1) h0)
      as [[r| e |] h2]; try discriminate.
    intros H; inversion H; subst; eauto. }
  rewrite Hrec. unfold bind at 1 3 5. repeat split.
  - intros l h1 Hl. destruct (Hshape l h1 Hl) as [r ->].
    exists r; split; [reflexivity|]. rewrite Hl. reflexivity.
  - intros e h1 He. rewrite He. reflexivity.
  - intros o h1. destruct (seek_read h) as [[l| e |] h2] eqn:Hs; try discriminate.
    destruct (Hshape l h2 eq_refl) as [r ->].
    unfold bind, lift, py_index, ret; simpl.
    intros H; inversion H; subst. eauto.
Qed.

End Access.

(** ** The example files *)

Example open_example_file : open false example_file = Ret example_handle.
Proof. vm_compute. reflexivity. Qed.

Example example_index :
  type (_index example_handle) = [station; data; trailer]
  /\ linked_station_id_record (_index example_handle) = [0; 1; 1]
  /\ offset (_index example_handle) = [12; 36; 88]
  /\ size (_index example_handle) = [8; 36; 24]
  /\ lead (_index example_handle) = [None; Some 6; None]
  /\ dates example_handle = [None; Some 2020010100]
  /\ leadtimes example_handle = [None; Some 6]
  /\ records example_handle = 3.
Proof. vm_compute. repeat split. Qed.

(** Three stray bytes behind the last frame end the loop like the end of the
    file: the index is the same. *)
Example open_with_stray_bytes :
  exists h, open false (example_file ++ [x00; x00; x00]) = Ret h
            /\ _index h = _index example_handle
            /\ records h = 3 /\ position (_fh h) = 0%nat.
Proof. eexists. split; [vm_compute; reflexivity|repeat split]. Qed.

(** Python 3 refuses to sort the dates of the same file. *)
Example open_example_file_py3 : open true example_file = Raise TypeError.
Proof. vm_compute. reflexivity. Qed.

(** C3 (as the code has it). A frame of fewer than 44 bytes is catalogued,
    as a station or a trailer record, when [short_frame_ok] holds of it:
    its length is a multiple of 4, word 2 exists and decodes to a tag other
    than ['PLDT'], and word 6 exists if word 1 is 24. The words are those of
    the payload, the pass ends just behind the frame. In every other case
    the pass raises [IndexError], [ValueError] or [UnicodeDecodeError],
    none of which [_get_index] catches. *)
Theorem short_frame_classification :
  forall (py3 : bool) (h : handle) (pre payload rest : list byte) (last : Z),
    contents (_fh h) = pre ++ frame payload ++ rest ->
    position (_fh h) = length pre ->
    (length payload < 44)%nat ->
    (short_frame_ok py3 payload ->
     exists t1 k last' h', short_frame_entry py3 h pre payload last t1 k last' h')
    /\ (~ short_frame_ok py3 payload ->
        exists e h', index_record py3 last h = (Raise e, h')
                     /\ (e = IndexError \/ e = ValueError
                         \/ e = UnicodeDecodeError)).
Proof.
  intros py3 h pre payload rest last Hc Hp Hshort.
  destruct (short_frame_dichotomy py3 h pre payload rest last Hc Hp Hshort)
    as [[Hok H]|[Hno H]]; split; intros H'; try assumption; contradiction.
Qed.

(** C3, the claim as stated fails: the frame of [two_word_file] has 8 bytes,
    and [open] raises [IndexError] on it. *)
Lemma short_frame_raises :
  two_word_file = pack_i 8 ++ words_bytes [0; 0] ++ pack_i 8
  /\ open true two_word_file = Raise IndexError
  /\ open false two_word_file = Raise IndexError.
Proof. vm_compute. repeat split. Qed.

(** C4 (as the code has it). A window whose word 2 decodes to a tag other
    than ['PLDT'] is catalogued as a trailer record exactly when its word 1
    is 24 and its word 6 is 9999, with no date, lead time or identifier;
    word 6 is looked at only when word 1 is 24, and the pass raises
    [IndexError] when the window then has no word 6. Every other such
    window is catalogued as a station record with identifier
    (400001000, 0, 0, 0). The entry's size is word 1 in both cases. *)
Theorem non_data_record_kind :
  forall (py3 : bool) (temp : list Z) (last : Z) (h : handle) (t2 : Z),
    py_index temp 2 = Ret t2 ->
    decode py3 (scalar_buffer t2) = Ret (scalar_buffer t2) ->
    scalar_buffer t2 <> PLDT ->
    exists t1,
      py_index temp 1 = Ret t1
      /\ ((t1 = 24 /\ py_index temp 6 = Ret 9999
           /\ catalog py3 temp last h
              = (Ret tt, push_entry t1 trailer None None None None None None last h))
          \/ (~ (t1 = 24 /\ py_index temp 6 = Ret 9999)
              /\ ~ (t1 = 24 /\ py_index temp 6 = Raise IndexError)
              /\ catalog py3 temp last h
                 = (Ret tt, push_entry t1 station None None (Some 400001000)
                                       (Some 0) (Some 0) (Some 0) last h))
          \/ (t1 = 24 /\ py_index temp 6 = Raise IndexError
              /\ catalog py3 temp last h = (Raise IndexError, h))).
Proof.
  intros py3 temp last h t2 E2 Ed Hne.
  assert (Eb : bytes_eqb (scalar_buffer t2) PLDT = false).
  { destruct (bytes_eqb (scalar_buffer t2) PLDT) eqn:E; [|reflexivity].
    apply bytes_eqb_eq in E. contradiction. }
  destruct (py_index_below _ temp 1 2 t2 ltac:(lia) E2) as [t1 E1].
  exists t1. split; [exact E1|].
  destruct (Z.eq_dec t1 24) as [->|Hne24].
  - destruct (py_index_outcome _ temp 6) as [[t6 E6]|E6].
    + destruct (Z.eq_dec t6 9999) as [->|Hne6].
      * left. split; [reflexivity|]. split; [exact E6|].
        eapply catalog_trailer_case; eassumption.
      * right; left. split; [intros [_ H]; congruence|].
        split; [intros [_ H]; congruence|].
        eapply catalog_station_case; eauto.
    + right; right. split; [reflexivity|]. split; [exact E6|].
      eapply catalog_no_word6_case; eassumption.
  - right; left. split; [intros [H _]; contradiction|].
    split; [intros [H _]; contradiction|].
    eapply catalog_station_case; eauto.
Qed.

(** C4, the claim as stated fails: the frame of [example_trailer] has the
    length marker 32, not 24, and is catalogued as a trailer record. *)
Lemma trailer_with_marker_32 :
  struct_unpack_i (firstn 4 example_trailer) = Ret 32
  /\ (exists h, open true example_trailer = Ret h /\ type (_index h) = [trailer])
  /\ (exists h, open false example_trailer = Ret h /\ type (_index h) = [trailer]).
Proof.
  split; [vm_compute; reflexivity|].
  split; eexists; (split; [vm_compute; reflexivity|reflexivity]).
Qed.

(** C1 (as the code has it). Whenever [fetch] gets to its list of
    positions, that list is the intersection of the candidate sets of the
    criteria given, wildcard words included: a position is matched exactly
    when it lies in every one of the sets, and the object is not
    modified. *)
Theorem fetch_matches_the_intersection :
  forall (date_ : option Z) (id : option (list Z)) (lead_ : option Z)
         (h : handle) (l : list Z) (h' : handle),
    fetch_idx date_ id lead_ h = (Ret l, h') ->
    let sets := candidate_sets (_index h) (records h) date_ id lead_ in
    h' = h
    /\ l = intersection sets
    /\ ascending l
    /\ forall p, In p l <-> sets <> [] /\ forall s, In s sets -> In p s.
Proof.
  intros date_ id lead_ h l h' H sets.
  apply fetch_idx_intersection in H as [-> ->]. fold sets.
  split; [reflexivity|]. split; [reflexivity|]. split.
  - apply intersection_ascending, candidate_sets_ascending.
  - intros p. apply intersection_In.
Qed.

(** C1, the claim as stated fails: there is no index and no query with a
    wildcard word for which [fetch] matches anything but the positions
    that lie in every candidate set. *)
Lemma fetch_never_leaves_the_intersection :
  ~ exists (date_ : option Z) (ws : list Z) (lead_ : option Z)
           (h : handle) (l : list Z) (h' : handle),
      In (-1) (firstn 4 ws)
      /\ fetch_idx date_ (Some ws) lead_ h = (Ret l, h')
      /\ ~ (forall p, In p l <->
                      forall s, In s (candidate_sets (_index h) (records h)
                                        date_ (Some ws) lead_) -> In p s).
Proof.
  intros (date_ & ws & lead_ & h & l & h' & _ & H & Hdiff).
  apply Hdiff. intros p.
  apply fetch_idx_intersection in H as [_ ->].
  rewrite intersection_In. split; [tauto|]. intros Hall. split; [|exact Hall].
  unfold candidate_sets. destruct date_; discriminate.
Qed.

Lemma fetch_matches_the_intersection_witness :
  let sets := candidate_sets (_index example_handle) (records example_handle)
                (Some 2020010100) (Some [-1; 2; -1; -1]) None in
  example_handle = example_handle
  /\ [1] = intersection sets
  /\ ascending [1]
  /\ forall p, In p [1] <-> sets <> [] /\ forall s, In s sets -> In p s.
Proof.
  apply (fetch_matches_the_intersection (Some 2020010100) (Some [-1; 2; -1; -1])
           None example_handle [1] example_handle).
  vm_compute. reflexivity.
Defined.

(** C2, the claim as stated fails: a file with a station record and no data
    record is opened, and its [dates] and [leadtimes] hold [None]. *)
Lemma dates_hold_None :
  (exists h, open true example_station = Ret h
             /\ dates h = [None] /\ leadtimes h = [None])
  /\ (exists h, open false example_station = Ret h
                /\ dates h = [None] /\ leadtimes h = [None])
  /\ (exists h, open false example_file = Ret h
                /\ dates h = [None; Some 2020010100]
                /\ leadtimes h = [None; Some 6]).
Proof.
  split; [|split]; eexists; (split; [vm_compute; reflexivity|split; reflexivity]).
Qed.

(** ** The theorems at the example files *)

Lemma dates_and_leadtimes_of_index_witness :
  let tys := type (_index example_handle) in
  (StronglySorted opt_lt (dates example_handle)
   /\ (forall v, In (Some v) (dates example_handle) <->
                 exists i, nth_error tys i = Some data
                           /\ nth_error (date (_index example_handle)) i
                              = Some (Some v))
   /\ (In None (dates example_handle) <->
       exists i k, nth_error tys i = Some k /\ k <> data))
  /\ (StronglySorted opt_lt (leadtimes example_handle)
      /\ (forall v, In (Some v) (leadtimes example_handle) <->
                    exists i, nth_error tys i = Some data
                              /\ nth_error (lead (_index example_handle)) i
                                 = Some (Some v))
      /\ (In None (leadtimes example_handle) <->
          exists i k, nth_error tys i = Some k /\ k <> data)).
Proof.
  apply (dates_and_leadtimes_of_index false example_file example_handle).
  vm_compute. reflexivity.
Defined.

Lemma short_frame_classification_witness :
  exists t1 k last' h',
    short_frame_entry false (fresh_handle example_station) [] station_payload 0
                      t1 k last' h'.
Proof.
  refine (proj1 (short_frame_classification false (fresh_handle example_station)
                   [] station_payload [] 0 _ _ _) _).
  - vm_compute. reflexivity.
  - reflexivity.
  - vm_compute. lia.
  - split; [vm_compute; reflexivity|].
    exists (be_i32 x4b x41 x42 x43).
    split; [vm_compute; reflexivity|].
    split; [vm_compute; reflexivity|].
    split; [vm_compute; discriminate|].
    vm_compute. discriminate.
Defined.

Lemma non_data_record_kind_witness :
  exists t1,
    py_index [0; 24; 0; 0; 0; 0; 9999; 0] 1 = Ret t1
    /\ ((t1 = 24 /\ py_index [0; 24; 0; 0; 0; 0; 9999; 0] 6 = Ret 9999
         /\ catalog false [0; 24; 0; 0; 0; 0; 9999; 0] 0 (fresh_handle example_trailer)
            = (Ret tt, push_entry t1 trailer None None None None None None 0
                                  (fresh_handle example_trailer)))
        \/ (~ (t1 = 24 /\ py_index [0; 24; 0; 0; 0; 0; 9999; 0] 6 = Ret 9999)
            /\ ~ (t1 = 24
                  /\ py_index [0; 24; 0; 0; 0; 0; 9999; 0] 6 = Raise IndexError)
            /\ catalog false [0; 24; 0; 0; 0; 0; 9999; 0] 0
                       (fresh_handle example_trailer)
               = (Ret tt, push_entry t1 station None None (Some 400001000)
                                     (Some 0) (Some 0) (Some 0) 0
                                     (fresh_handle example_trailer)))
        \/ (t1 = 24 /\ py_index [0; 24; 0; 0; 0; 0; 9999; 0] 6 = Raise IndexError
            /\ catalog false [0; 24; 0; 0; 0; 0; 9999; 0] 0
                       (fresh_handle example_trailer)
               = (Raise IndexError, fresh_handle example_trailer))).
Proof.
  apply (non_data_record_kind false [0; 24; 0; 0; 0; 0; 9999; 0] 0
           (fresh_handle example_trailer) 0).
  - vm_compute. reflexivity.
  - vm_compute. reflexivity.
  - vm_compute. discriminate.
Defined.

Lemma unequal_markers_abort_open_witness :
  exists e,
    open false (concat (map frame [station_payload])
                ++ pack_i (Z.of_nat (length trailer_payload)) ++ trailer_payload
                ++ pack_i 31 ++ [])
    = Raise e.
Proof.
  apply (unequal_markers_abort_open false [station_payload] trailer_payload
           (pack_i 31) []).
  - repeat constructor; vm_compute; reflexivity.
  - reflexivity.
  - vm_compute. discriminate.
Defined.

Lemma record_out_of_range_witness :
  exists msg h',
    record false decoder_ok (Some 4) true example_handle = (Ret None, h')
    /\ h' = add_warning msg example_handle
    /\ warned h' = warned example_handle ++ [msg]
    /\ _fh h' = _fh example_handle /\ _hasindex h' = _hasindex example_handle
    /\ _index h' = _index example_handle
    /\ records h' = records example_handle
    /\ recordnumber h' = recordnumber example_handle.
Proof.
  apply (record_out_of_range false decoder_ok example_handle 4 true).
  right. vm_compute. reflexivity.
Defined.

Lemma seek_then_read_is_record_witness :
  let seek_read := seek 2 ;;; read false decoder_ok (Some 1) true in
  (forall l h1, seek_read example_handle = (Ret l, h1) ->
     exists r, l = [r]
               /\ record false decoder_ok (Some 2) true example_handle
                  = (Ret (Some r), h1))
  /\ (forall e h1, seek_read example_handle = (Raise e, h1) ->
        record false decoder_ok (Some 2) true example_handle = (Raise e, h1))
  /\ (forall o h1,
        record false decoder_ok (Some 2) true example_handle = (Ret o, h1) ->
        exists r, o = Some r /\ seek_read example_handle = (Ret [r], h1)).
Proof.
  apply (seek_then_read_is_record false decoder_ok example_handle 2 true).
  split; vm_compute; discriminate.
Defined.

(** [record(2)] on the example file is its data record. *)
Example record_2_of_example :
  fst (record false decoder_ok (Some 2) true example_handle)
  = Ret (Some (TdlpackRecord 36 [TDLP; 0; 0; 0; 2020010100; 1; 2; 1234006; 4]
                             (Some 2020010100) true)).
Proof. vm_compute. reflexivity. Qed.

Lemma linked_station_is_most_recent_witness :
  length (linked_station_id_record (_index example_handle))
  = length (type (_index example_handle))
  /\ records example_handle = Z.of_nat (length (type (_index example_handle)))
  /\ forall (i : nat) (lk : Z),
       nth_error (linked_station_id_record (_index example_handle)) i = Some lk ->
       lk <= Z.of_nat i + 1
       /\ ((lk = 0
            /\ forall j, (j < i)%nat ->
                         nth_error (type (_index example_handle)) j <> Some station)
           \/ (1 <= lk <= Z.of_nat i
               /\ nth_error (type (_index example_handle)) (Z.to_nat (lk - 1))
                  = Some station
               /\ forall j, (Z.to_nat lk <= j < i)%nat ->
                            nth_error (type (_index example_handle)) j
                            <> Some station)).
Proof.
  apply (linked_station_is_most_recent false example_file example_handle).
  vm_compute. reflexivity.
Defined.

Lemma read_default_or_negative_raises_witness :
  exists e, read false decoder_ok (Some (-1)) true example_handle
            = (Raise e, example_handle).
Proof.
  apply (proj2 (read_default_or_negative_raises false decoder_ok example_handle true)
               (-1)).
  lia.
Defined.

(** * Further properties

    What [seek], [read], [record], [fetch] and [__next__] do to the object,
    and what [open] leaves in the index. *)

(** ** What the access methods leave alone *)

Lemma same_index_refl : forall h, same_index h h.
Proof. intros h. repeat split. Qed.

Lemma same_index_trans :
  forall h1 h2 h3, same_index h1 h2 -> same_index h2 h3 -> same_index h1 h3.
Proof.
  intros h1 h2 h3 (A1 & A2 & A3 & A4 & A5 & A6) (B1 & B2 & B3 & B4 & B5 & B6).
  repeat split; congruence.
Qed.

Lemma keeps_bind :
  forall (A B : Type) (m : M A) (k : A -> M B),
    keeps_index m -> (forall a, keeps_index (k a)) -> keeps_index (bind m k).
Proof.
  intros A B m k Hm Hk h o h' H. unfold bind in H.
  destruct (m h) as [[a| e |] h1] eqn:E.
  - eapply same_index_trans; [eapply Hm, E|eapply Hk, H].
  - inversion H; subst. eapply Hm, E.
  - inversion H; subst. eapply Hm, E.
Qed.

Lemma keeps_ret : forall (A : Type) (a : A), keeps_index (ret a).
Proof. intros A a h o h' H. inversion H. apply same_index_refl. Qed.

Lemma keeps_raise : forall (A : Type) e, keeps_index (@raise A e).
Proof. intros A e h o h' H. inversion H. apply same_index_refl. Qed.

Lemma keeps_lift : forall (A : Type) (o : outcome A), keeps_index (lift o).
Proof. intros A o h o' h' H. inversion H. apply same_index_refl. Qed.

Lemma keeps_gets : forall (A : Type) (f : handle -> A), keeps_index (gets f).
Proof. intros A f h o h' H. inversion H. apply same_index_refl. Qed.

Lemma keeps_modify :
  forall f, (forall h, same_index h (f h)) -> keeps_index (modify f).
Proof. intros f Hf h o h' H. inversion H. apply Hf. Qed.

Lemma keeps_fh_read : forall py3 n, keeps_index (fh_read py3 n).
Proof.
  intros py3 n h o h' H. unfold fh_read in H.
  destruct (py3 && (n <? -1)); inversion H; repeat split.
Qed.

Lemma keeps_fh_seek : forall o, keeps_index (fh_seek o).
Proof.
  intros t h o h' H. unfold fh_seek, fh_seek_to in H.
  destruct (t <? 0); inversion H; repeat split.
Qed.

Ltac keeps :=
  repeat first
    [ apply keeps_ret | apply keeps_raise | apply keeps_lift | apply keeps_gets
    | apply keeps_fh_read | apply keeps_fh_seek
    | apply keeps_modify; intros; repeat split
    | apply keeps_bind; [|intros] ].

Lemma keeps_seek : forall n, keeps_index (seek n).
Proof.
  intros n. unfold seek. apply keeps_bind; [keeps|intros b].
  destruct b; [|keeps]. destruct (n =? 0); [keeps|].
  destruct (0 <? n); keeps.
Qed.

Section Keeps.

Variable py3 : bool.
Variable unpack_raises : tdlpack_record -> option exn.

Lemma keeps_unpack_if :
  forall u r, keeps_index (unpack_if unpack_raises u r).
Proof.
  intros u r. unfold unpack_if. destruct u; [|keeps].
  destruct (unpack_raises r); keeps.
Qed.

Lemma keeps_read_record :
  forall u n, keeps_index (read_record py3 unpack_raises u n).
Proof.
  intros u n. unfold read_record.
  apply keeps_bind; [apply keeps_seek|intros _].
  apply keeps_bind; [keeps|intros ioctet].
  apply keeps_bind; [keeps|intros sz].
  apply keeps_bind; [keeps|intros buf].
  apply keeps_bind; [keeps|intros ipack].
  apply keeps_bind; [keeps|intros ty].
  apply keeps_bind; [|intros r; keeps].
  destruct ty.
  - apply keeps_bind; [keeps|intros d]. apply keeps_unpack_if.
  - apply keeps_unpack_if.
  - keeps.
Qed.

Lemma keeps_read_loop :
  forall u l acc, keeps_index (read_loop py3 unpack_raises u l acc).
Proof.
  intros u l. induction l as [|n l IH]; intros acc; cbn [read_loop].
  - keeps.
  - apply keeps_bind; [apply keeps_read_record|intros r; apply IH].
Qed.

Lemma keeps_read : forall num u, keeps_index (read py3 unpack_raises num u).
Proof.
  intros num u. unfold read. destruct num as [k|]; [|destruct py3; keeps].
  destruct (k =? 0); [keeps|].
  destruct (k =? 1); [apply keeps_bind; [keeps|intros; apply keeps_read_loop]|].
  destruct (1 <? k); [apply keeps_bind; [keeps|intros; apply keeps_read_loop]|keeps].
Qed.

Lemma keeps_record : forall rec u, keeps_index (record py3 unpack_raises rec u).
Proof.
  intros rec u. unfold record. destruct rec as [n|]; [|keeps].
  destruct (n <=? 0); [unfold warn; keeps|].
  apply keeps_bind; [keeps|intros total].
  destruct (total <? n); [unfold warn; keeps|].
  apply keeps_bind; [apply keeps_seek|intros _].
  apply keeps_bind; [apply keeps_read|intros l]. keeps.
Qed.

Lemma keeps_fetch_idx : forall d id l, keeps_index (fetch_idx d id l).
Proof.
  intros d id l. unfold fetch_idx.
  apply keeps_bind; [keeps|intros ix].
  apply keeps_bind; [keeps|intros total].
  destruct d as [d|]; cbv beta iota zeta.
  - apply keeps_bind; [|intros [i m]; destruct l; keeps].
    destruct id as [ws|]; [|keeps].
    apply keeps_bind; [keeps|intros w0]. apply keeps_bind; [keeps|intros w1].
    apply keeps_bind; [keeps|intros w2]. apply keeps_bind; [keeps|intros w3].
    destruct (id_word _ _ w0); [|keeps]. destruct (id_word _ _ w1); [|keeps].
    destruct (id_word _ _ w2); [|keeps]. destruct (id_word _ _ w3); keeps.
  - apply keeps_bind; [|intros [i m]; destruct l; keeps].
    destruct id as [ws|]; [|keeps].
    apply keeps_bind; [keeps|intros w0]. apply keeps_bind; [keeps|intros w1].
    apply keeps_bind; [keeps|intros w2]. apply keeps_bind; [keeps|intros w3].
    destruct (id_word _ _ w0); [|keeps]. destruct (id_word _ _ w1); [|keeps].
    destruct (id_word _ _ w2); [|keeps]. destruct (id_word _ _ w3); keeps.
Qed.

Lemma keeps_fetch_loop :
  forall u idx acc, keeps_index (fetch_loop py3 unpack_raises u idx acc).
Proof.
  intros u idx. induction idx as [|i idx IH]; intros acc; cbn [fetch_loop].
  - keeps.
  - apply keeps_bind; [apply keeps_record|intros r; apply IH].
Qed.

Lemma keeps_fetch :
  forall d id l u, keeps_index (fetch py3 unpack_raises d id l u).
Proof.
  intros d id l u. unfold fetch.
  apply keeps_bind; [apply keeps_fetch_idx|intros idx; apply keeps_fetch_loop].
Qed.

(** X1. [seek], [read], [record] and [fetch] never change what [open] built:
    however they end, with a result or an exception, the index, the record
    count, the index flag, [dates], [leadtimes] and the bytes of the file
    are as before. Only the cursor, the file position and the warnings
    move. *)
Theorem access_keeps_the_index :
  forall (n : Z) (num rec date_ lead_ : option Z) (id : option (list Z))
         (unpack : bool),
    keeps_index (seek n)
    /\ keeps_index (read py3 unpack_raises num unpack)
    /\ keeps_index (record py3 unpack_raises rec unpack)
    /\ keeps_index (fetch py3 unpack_raises date_ id lead_ unpack).
Proof.
  intros. split; [apply keeps_seek|]. split; [apply keeps_read|].
  split; [apply keeps_record|apply keeps_fetch].
Qed.

End Keeps.

(** ** [seek] *)

Lemma seek_run :
  forall h n o,
    _hasindex h = true -> 1 <= n ->
    py_index (offset (_index h)) (n - 1) = Ret o -> 0 <= o ->
    seek n h = (Ret tt, set_recordnumber (n - 1) (at_position (Z.to_nat o) h)).
Proof.
  intros h n o Hi Hn Ho Hpos. unfold seek.
  eapply run_bind_Ret; [apply run_gets|cbv beta]. rewrite Hi.
  destruct (n =? 0) eqn:E0; [apply Z.eqb_eq in E0; lia|].
  destruct (0 <? n) eqn:E1; [|apply Z.ltb_ge in E1; lia].
  eapply run_bind_Ret.
  { eapply run_bind_Ret; [apply run_gets|cbv beta]. apply run_lift. exact Ho. }
  cbv beta.
  eapply run_bind_Ret.
  { unfold fh_seek, fh_seek_to.
    destruct (o <? 0) eqn:E; [apply Z.ltb_lt in E; lia|]. reflexivity. }
  reflexivity.
Qed.

Lemma seek_raise :
  forall h n,
    _hasindex h = true -> 1 <= n ->
    py_index (offset (_index h)) (n - 1) = Raise IndexError ->
    seek n h = (Raise IndexError, h).
Proof.
  intros h n Hi Hn Ho. unfold seek.
  eapply run_bind_Ret; [apply run_gets|cbv beta]. rewrite Hi.
  destruct (n =? 0) eqn:E0; [apply Z.eqb_eq in E0; lia|].
  destruct (0 <? n) eqn:E1; [|apply Z.ltb_ge in E1; lia].
  eapply run_bind_Raise.
  eapply run_bind_Ret; [apply run_gets|cbv beta]. apply run_lift. exact Ho.
Qed.

Lemma seek_bad_offset :
  forall h n o,
    _hasindex h = true -> 1 <= n ->
    py_index (offset (_index h)) (n - 1) = Ret o -> o < 0 ->
    seek n h = (Raise (IOError "Invalid argument"), h).
Proof.
  intros h n o Hi Hn Ho Hneg. unfold seek.
  eapply run_bind_Ret; [apply run_gets|cbv beta]. rewrite Hi.
  destruct (n =? 0) eqn:E0; [apply Z.eqb_eq in E0; lia|].
  destruct (0 <? n) eqn:E1; [|apply Z.ltb_ge in E1; lia].
  eapply run_bind_Ret.
  { eapply run_bind_Ret; [apply run_gets|cbv beta]. apply run_lift. exact Ho. }
  cbv beta. eapply run_bind_Raise.
  unfold fh_seek, fh_seek_to.
  destruct (o <? 0) eqn:E; [reflexivity|apply Z.ltb_ge in E; lia].
Qed.

Lemma seek_0_1 : forall h, seek 0 h = seek 1 h.
Proof. intros h. reflexivity. Qed.

Lemma seek_ignored :
  forall h n, n < 0 \/ _hasindex h = false -> seek n h = (Ret tt, h).
Proof.
  intros h n [Hn|Hi]; unfold seek.
  - eapply run_bind_Ret; [apply run_gets|cbv beta].
    destruct (n =? 0) eqn:E0; [apply Z.eqb_eq in E0; lia|].
    destruct (0 <? n) eqn:E1; [apply Z.ltb_lt in E1; lia|].
    destruct (_hasindex h); reflexivity.
  - eapply run_bind_Ret; [apply run_gets|cbv beta]. rewrite Hi. reflexivity.
Qed.

(** X2. The edges of [seek]: a negative record number is ignored without a
    word, and so is every call on an object without index; [seek(0)] is
    [seek(1)]; and a record number beyond the offsets of the index ([0]
    and [1] when there is none) raises [IndexError] and leaves the object
    as it was. *)
Theorem seek_edge_cases :
  forall (h : handle) (n : Z),
    (n < 0 \/ _hasindex h = false -> seek n h = (Ret tt, h))
    /\ seek 0 h = seek 1 h
    /\ (_hasindex h = true -> 0 <= n ->
        Z.of_nat (length (offset (_index h))) < Z.max n 1 ->
        seek n h = (Raise IndexError, h)).
Proof.
  intros h n. split; [|split].
  - apply seek_ignored.
  - apply seek_0_1.
  - intros Hi Hn Hlen.
    assert (Hone : forall m, 1 <= m -> Z.of_nat (length (offset (_index h))) < m ->
                             seek m h = (Raise IndexError, h)).
    { intros m Hm Hl. apply seek_raise; [assumption|assumption|].
      apply py_index_Raise_iff; lia. }
    destruct (Z.eq_dec n 0) as [->|Hne].
    + rewrite seek_0_1. apply Hone; lia.
    + apply Hone; lia.
Qed.

(** X3. [seek(n)] for a record number [n >= 1] that has an offset puts the
    file at that offset, byte [offset[n-1]], and the cursor at [n - 1], the
    number of the record before; nothing else of the object changes. *)
Theorem seek_positions_the_file :
  forall (h : handle) (n o : Z),
    _hasindex h = true -> 1 <= n ->
    nth_error (offset (_index h)) (Z.to_nat (n - 1)) = Some o -> 0 <= o ->
    seek n h = (Ret tt, set_recordnumber (n - 1) (at_position (Z.to_nat o) h)).
Proof.
  intros h n o Hi Hn Ho Hpos. apply seek_run; try assumption.
  apply py_index_Ret_iff; [lia|assumption].
Qed.

Lemma seek_idempotent :
  forall n h, (seek n ;;; seek n) h = seek n h.
Proof.
  intros n h.
  destruct (Z.ltb_spec n 0) as [Hn|Hn].
  { assert (H : seek n h = (Ret tt, h)) by (apply seek_ignored; auto).
    eapply run_bind_Ret; [exact H|cbv beta]. reflexivity. }
  destruct (_hasindex h) eqn:Hi.
  2:{ assert (H : seek n h = (Ret tt, h)) by (apply seek_ignored; auto).
      eapply run_bind_Ret; [exact H|cbv beta]. reflexivity. }
  assert (Hone : forall m, 1 <= m -> (seek m ;;; seek m) h = seek m h).
  { intros m Hm.
    destruct (py_index_outcome _ (offset (_index h)) (m - 1)) as [[o Ho]|Ho].
    - destruct (Z.ltb_spec o 0) as [Hneg|Hpos].
      + rewrite (seek_bad_offset h m o Hi Hm Ho Hneg). eapply run_bind_Raise.
        apply (seek_bad_offset h m o Hi Hm Ho Hneg).
      + rewrite (seek_run h m o Hi Hm Ho Hpos).
        eapply run_bind_Ret; [apply (seek_run h m o Hi Hm Ho Hpos)|cbv beta].
        rewrite (seek_run _ m o); try assumption; reflexivity.
    - rewrite (seek_raise h m Hi Hm Ho). eapply run_bind_Raise.
      apply (seek_raise h m Hi Hm Ho). }
  destruct (Z.eq_dec n 0) as [->|Hne].
  - change (seek 0) with (seek 1). apply Hone; lia.
  - apply Hone; lia.
Qed.

(** ** [range] *)

Lemma range_shift :
  forall n s t a b,
    a + Z.of_nat s = b + Z.of_nat t ->
    map (fun k => a + Z.of_nat k) (seq s n) = map (fun k => b + Z.of_nat k) (seq t n).
Proof.
  induction n as [|n IH]; intros s t a b H; simpl; [reflexivity|].
  f_equal; [exact H|]. apply IH. lia.
Qed.

Lemma py_range_length : forall a b, length (py_range a b) = Z.to_nat (b - a).
Proof. intros. unfold py_range. rewrite length_map, length_seq. reflexivity. Qed.

Lemma py_range_app :
  forall a m b, a <= m <= b -> py_range a b = py_range a m ++ py_range m b.
Proof.
  intros a m b H. unfold py_range.
  replace (Z.to_nat (b - a)) with (Z.to_nat (m - a) + Z.to_nat (b - m))%nat by lia.
  rewrite seq_app, map_app. f_equal. apply range_shift. lia.
Qed.

Lemma py_range_one : forall a, py_range a (a + 1) = [a].
Proof.
  intros a. unfold py_range. replace (a + 1 - a) with 1 by lia.
  simpl. f_equal. lia.
Qed.

Lemma py_range_cons :
  forall a b, a < b -> py_range a b = a :: py_range (a + 1) b.
Proof.
  intros a b H. rewrite (py_range_app a (a + 1) b) by lia.
  rewrite py_range_one. reflexivity.
Qed.

Lemma py_range_last :
  forall a b d, a < b -> last (py_range a b) d = b - 1.
Proof.
  intros a b d H. rewrite (py_range_app a (b - 1) b) by lia.
  assert (E : py_range (b - 1) b = [b - 1])
    by (rewrite <- (py_range_one (b - 1)); f_equal; lia).
  rewrite E. apply last_last.
Qed.

Lemma last_cons : forall (l : list Z) n d, last (n :: l) d = last l n.
Proof.
  induction l as [|m l IH]; intros n d; [reflexivity|].
  change (last (n :: m :: l) d) with (last (m :: l) d).
  rewrite (IH m d), (IH m n). reflexivity.
Qed.

Lemma bind_ret_r :
  forall (A : Type) (m : M A) h, (x <- m ;; ret x) h = m h.
Proof. intros A m h. unfold bind. destruct (m h) as [[a| e |] h1]; reflexivity. Qed.

Section Reading.

Variable py3 : bool.
Variable unpack_raises : tdlpack_record -> option exn.

(** A record that has been read leaves the cursor on its number. *)
Lemma read_record_Ret :
  forall u n h r h',
    read_record py3 unpack_raises u n h = (Ret r, h') -> recordnumber h' = n.
Proof.
  intros u n h r h' H. unfold read_record in H. cbv zeta in H.
  apply bind_Ret_inv in H as ([] & h1 & _ & H).
  apply bind_Ret_inv in H as (ioctet & h2 & _ & H).
  apply bind_Ret_inv in H as (sz & h3 & _ & H).
  apply bind_Ret_inv in H as (buf & h4 & _ & H).
  apply bind_Ret_inv in H as (ipack & h5 & _ & H).
  apply bind_Ret_inv in H as (ty & h6 & _ & H).
  apply bind_Ret_inv in H as (r0 & h7 & _ & H).
  apply bind_Ret_inv in H as ([] & h8 & H8 & H).
  inversion H8; subst h8. inversion H; subst. reflexivity.
Qed.

Lemma read_loop_cons :
  forall u n l acc,
    read_loop py3 unpack_raises u (n :: l) acc =
    (r <- read_record py3 unpack_raises u n ;;
     read_loop py3 unpack_raises u l (acc ++ [r])).
Proof. reflexivity. Qed.

Lemma read_loop_Ret :
  forall u l acc h rs h',
    read_loop py3 unpack_raises u l acc h = (Ret rs, h') ->
    length rs = (length acc + length l)%nat
    /\ recordnumber h' = last l (recordnumber h).
Proof.
  intros u l. induction l as [|n l IH]; intros acc h rs h' H.
  - inversion H; subst. simpl. split; [lia|reflexivity].
  - rewrite read_loop_cons in H.
    apply bind_Ret_inv in H as (r & h1 & H1 & H).
    apply IH in H as [Hlen Hrn]. apply read_record_Ret in H1.
    rewrite length_app in Hlen. simpl in Hlen.
    split; [simpl length; lia|]. rewrite last_cons, Hrn, H1. reflexivity.
Qed.

Lemma read_loop_acc :
  forall u l acc h,
    read_loop py3 unpack_raises u l acc h = (rs <- read_loop py3 unpack_raises u l [] ;; ret (acc ++ rs)) h.
Proof.
  intros u l. induction l as [|n l IH]; intros acc h.
  - unfold bind. simpl. unfold ret. rewrite app_nil_r. reflexivity.
  - rewrite !read_loop_cons. unfold bind at 1 2 3.
    destruct (read_record py3 unpack_raises u n h) as [[r| e |] h1]; try reflexivity.
    rewrite (IH (acc ++ [r]) h1), (IH ([] ++ [r]) h1). unfold bind.
    destruct (read_loop py3 unpack_raises u l [] h1) as [[rs| e |] h2]; try reflexivity.
    unfold ret. rewrite <- app_assoc. reflexivity.
Qed.

Lemma read_loop_app :
  forall u l1 l2 acc h,
    read_loop py3 unpack_raises u (l1 ++ l2) acc h =
    (rs <- read_loop py3 unpack_raises u l1 acc ;; read_loop py3 unpack_raises u l2 rs) h.
Proof.
  intros u l1. induction l1 as [|n l1 IH]; intros l2 acc h.
  - reflexivity.
  - change ((n :: l1) ++ l2) with (n :: (l1 ++ l2)).
    rewrite !read_loop_cons. unfold bind at 1 2 3.
    destruct (read_record py3 unpack_raises u n h) as [[r| e |] h1]; try reflexivity.
    apply IH.
Qed.

(** [read(k)] for [k >= 1] is the loop over the [k] record numbers that
    follow the cursor. *)
Lemma read_pos :
  forall k u h,
    1 <= k ->
    read py3 unpack_raises (Some k) u h =
    read_loop py3 unpack_raises u (py_range (recordnumber h + 1) (recordnumber h + 1 + k)) [] h.
Proof.
  intros k u h Hk. unfold read.
  destruct (k =? 0) eqn:E0; [apply Z.eqb_eq in E0; lia|].
  destruct (k =? 1) eqn:E1.
  - apply Z.eqb_eq in E1. subst k. rewrite py_range_one.
    eapply run_bind_Ret; [apply run_gets|cbv beta]. reflexivity.
  - destruct (1 <? k) eqn:E2; [|apply Z.ltb_ge in E2; apply Z.eqb_neq in E1; lia].
    eapply run_bind_Ret; [apply run_gets|cbv beta]. reflexivity.
Qed.

(** X4. When [read(k)] returns, it returns [k] records and the cursor, the
    record number that [tell()] gives, has moved on by [k]. *)
Theorem read_returns_k_records :
  forall (h h' : handle) (k : Z) (unpack : bool) (recs : list tdlpack_record),
    0 <= k ->
    read py3 unpack_raises (Some k) unpack h = (Ret recs, h') ->
    Z.of_nat (length recs) = k
    /\ exists c, tell h = (Ret c, h) /\ tell h' = (Ret (c + k), h').
Proof.
  intros h h' k u recs Hk H.
  assert (Hboth : Z.of_nat (length recs) = k /\ recordnumber h' = recordnumber h + k).
  { destruct (Z.eq_dec k 0) as [->|Hne].
    - rewrite read_zero in H. inversion H; subst. simpl. split; lia.
    - rewrite read_pos in H by lia. apply read_loop_Ret in H as [Hlen Hrn].
      rewrite py_range_length in Hlen. rewrite py_range_last in Hrn by lia.
      simpl in Hlen. split; lia. }
  destruct Hboth as [Hlen Hrn]. split; [exact Hlen|].
  exists (recordnumber h). unfold tell, gets. rewrite Hrn. split; reflexivity.
Qed.

(** X5. Reading [a] records and then [b] more is reading [a + b] at once:
    the same records in the same order and the same object afterwards, or
    the same exception raised from the same state. *)
Theorem read_in_two_parts :
  forall (h : handle) (a b : Z) (unpack : bool),
    0 <= a -> 0 <= b ->
    read py3 unpack_raises (Some (a + b)) unpack h =
    (l1 <- read py3 unpack_raises (Some a) unpack ;;
     l2 <- read py3 unpack_raises (Some b) unpack ;;
     ret (l1 ++ l2)) h.
Proof.
  intros h a b u Ha Hb.
  destruct (Z.eq_dec a 0) as [->|Hna].
  { eapply eq_sym, run_bind_Ret; [apply read_zero|cbv beta].
    change (0 + b) with b. apply bind_ret_r. }
  destruct (Z.eq_dec b 0) as [->|Hnb].
  { rewrite Z.add_0_r. unfold bind at 1.
    destruct (read py3 unpack_raises (Some a) u h) as [[l1| e |] h1]; try reflexivity.
    symmetry. eapply run_bind_Ret; [apply read_zero|cbv beta].
    unfold ret. rewrite app_nil_r. reflexivity. }
  set (rn := recordnumber h).
  rewrite (read_pos (a + b)) by lia. fold rn.
  rewrite (py_range_app (rn + 1) (rn + 1 + a)) by lia.
  rewrite read_loop_app. unfold bind at 1 2.
  rewrite (read_pos a) by lia. fold rn.
  destruct (read_loop py3 unpack_raises u (py_range (rn + 1) (rn + 1 + a)) [] h)
    as [[l1| e |] h1] eqn:E1; try reflexivity.
  apply read_loop_Ret in E1 as [_ Hrn]. rewrite py_range_last in Hrn by lia.
  rewrite (read_loop_acc u _ l1 h1). unfold bind.
  rewrite (read_pos b u h1) by lia. rewrite Hrn.
  replace (rn + 1 + a - 1 + 1) with (rn + 1 + a) by lia.
  replace (rn + 1 + (a + b)) with (rn + 1 + a + b) by lia.
  reflexivity.
Qed.

(** X6. At the end of the index [read] raises: with the cursor on or beyond
    the last record that has an offset, [read(k)] for [k >= 1] raises
    [IndexError] before it reads anything, and the object is as it was. *)
Theorem read_at_the_end_raises :
  forall (h : handle) (k : Z) (unpack : bool),
    _hasindex h = true -> 1 <= k ->
    Z.of_nat (length (offset (_index h))) <= recordnumber h ->
    read py3 unpack_raises (Some k) unpack h = (Raise IndexError, h).
Proof.
  intros h k u Hi Hk Hend.
  rewrite read_pos by lia. rewrite py_range_cons by lia.
  rewrite read_loop_cons. eapply run_bind_Raise.
  unfold read_record. cbv zeta. eapply run_bind_Raise.
  apply seek_raise; [assumption|lia|]. apply py_index_Raise_iff; lia.
Qed.

End Reading.

(** ** [record] and [__next__] *)

Section Records.

Variable py3 : bool.
Variable unpack_raises : tdlpack_record -> option exn.

Lemma fh_read_at :
  forall n h,
    0 <= n ->
    let got := firstn (Z.to_nat n) (skipn (position (_fh h)) (contents (_fh h))) in
    fh_read py3 n h = (Ret got, at_position (position (_fh h) + length got) h).
Proof.
  intros n h Hn got. unfold fh_read.
  assert (E1 : (n <? -1) = false) by (apply Z.ltb_ge; lia).
  assert (E2 : (n <? 0) = false) by (apply Z.ltb_ge; lia).
  rewrite E1, E2, andb_false_r. reflexivity.
Qed.

Lemma unpack_if_run :
  forall u r h,
    (u = true -> unpack_raises r = None) ->
    unpack_if unpack_raises u r h = (Ret (if u then mark_unpacked r else r), h).
Proof.
  intros u r h Hu. unfold unpack_if. destruct u; [|reflexivity].
  rewrite (Hu eq_refl). reflexivity.
Qed.

(** One pass of the loop of [read] on a record whose entries the index
    holds. *)
Lemma read_record_run :
  forall u n h o sz ty d,
    _hasindex h = true -> 1 <= n ->
    py_index (offset (_index h)) (n - 1) = Ret o -> 0 <= o ->
    py_index (size (_index h)) (n - 1) = Ret sz -> 0 <= sz ->
    py_index (type (_index h)) (n - 1) = Ret ty ->
    (ty = data -> py_index (date (_index h)) (n - 1) = Ret d) ->
    let got := firstn (Z.to_nat sz) (skipn (Z.to_nat o) (contents (_fh h))) in
    let r := built_record ty sz (words got) d in
    Z.of_nat (length got) mod 4 = 0 ->
    (u = true -> unpack_raises r = None) ->
    read_record py3 unpack_raises u n h =
    (Ret (if u then mark_unpacked r else r),
     set_recordnumber n (at_position (Z.to_nat o + length got) h)).
Proof.
  intros u n h o sz ty d Hi Hn Ho Hopos Hsz Hszpos Hty Hd got r Hmod Hu.
  unfold read_record. cbv zeta.
  eapply run_bind_Ret; [apply (seek_run h n o); assumption|cbv beta].
  eapply run_bind_Ret.
  { eapply run_bind_Ret; [apply run_gets|cbv beta]. apply run_lift. exact Hsz. }
  cbv beta.
  eapply run_bind_Ret.
  { eapply run_bind_Ret; [apply run_gets|cbv beta]. apply run_lift. exact Hsz. }
  cbv beta.
  eapply run_bind_Ret; [apply fh_read_at; assumption|cbv beta zeta].
  eapply run_bind_Ret.
  { apply run_lift. apply np_frombuffer_Ret. exact Hmod. }
  cbv beta.
  eapply run_bind_Ret.
  { eapply run_bind_Ret; [apply run_gets|cbv beta]. apply run_lift. exact Hty. }
  cbv beta.
  destruct ty.
  - eapply run_bind_Ret.
    { eapply run_bind_Ret.
      { eapply run_bind_Ret; [apply run_gets|cbv beta]. apply run_lift.
        exact (Hd eq_refl). }
      cbv beta. apply unpack_if_run. exact Hu. }
    cbv beta. reflexivity.
  - eapply run_bind_Ret; [apply unpack_if_run; exact Hu|cbv beta]. reflexivity.
  - eapply run_bind_Ret; [reflexivity|cbv beta]. destruct u; reflexivity.
Qed.

(** [record(n)] for a record number in range is [seek(n)] followed by
    [read(1)]. *)
Lemma record_in_range :
  forall n u h,
    1 <= n <= records h ->
    record py3 unpack_raises (Some n) u h =
    (l <- (seek n ;;; read py3 unpack_raises (Some 1) u) ;;
     r <- lift (py_index l 0) ;; ret (Some r)) h.
Proof.
  intros n u h [Hlo Hhi]. unfold record.
  destruct (n <=? 0) eqn:E0; [apply Z.leb_le in E0; lia|].
  unfold bind at 1, gets at 1.
  destruct (records h <? n) eqn:E1; [apply Z.ltb_lt in E1; lia|].
  unfold bind.
  destruct (seek n h) as [[[]| e |] h0]; reflexivity.
Qed.

(** [record(n)] on a record whose entries the index holds. *)
Lemma record_run :
  forall u n h o sz ty d,
    _hasindex h = true -> 1 <= n <= records h ->
    py_index (offset (_index h)) (n - 1) = Ret o -> 0 <= o ->
    py_index (size (_index h)) (n - 1) = Ret sz -> 0 <= sz ->
    py_index (type (_index h)) (n - 1) = Ret ty ->
    (ty = data -> py_index (date (_index h)) (n - 1) = Ret d) ->
    let got := firstn (Z.to_nat sz) (skipn (Z.to_nat o) (contents (_fh h))) in
    let r := built_record ty sz (words got) d in
    Z.of_nat (length got) mod 4 = 0 ->
    (u = true -> unpack_raises r = None) ->
    record py3 unpack_raises (Some n) u h =
    (Ret (Some (if u then mark_unpacked r else r)),
     set_recordnumber n (at_position (Z.to_nat o + length got) h)).
Proof.
  intros u n h o sz ty d Hi Hn Ho Hopos Hsz Hszpos Hty Hd got r Hmod Hu.
  rewrite record_in_range by assumption.
  eapply run_bind_Ret.
  { eapply run_bind_Ret; [apply (seek_run h n o); try assumption; lia|cbv beta].
    rewrite read_one_shape.
    change (recordnumber (set_recordnumber (n - 1) (at_position (Z.to_nat o) h)))
      with (n - 1).
    replace (n - 1 + 1) with n by lia.
    rewrite (read_record_run u n _ o sz ty d); try assumption; try lia.
    reflexivity. }
  cbv beta. reflexivity.
Qed.

(** X7. [record(n)] returns the record that the index describes: the
    [size[n-1]] bytes of the file from byte [offset[n-1]] on as big-endian
    words (byte-swapped for a station record), with [ioctet = size[n-1]]
    and, for a data record, the reference date [date[n-1]]. It leaves the
    cursor on [n] and the file just behind the bytes read. This holds when
    the bytes read make whole words and, with [unpack], the decoder
    accepts the record. *)
Theorem record_reads_the_indexed_bytes :
  forall (h : handle) (n o sz : Z) (ty : kind) (d : option Z) (unpack : bool),
    _hasindex h = true -> 1 <= n <= records h ->
    nth_error (offset (_index h)) (Z.to_nat (n - 1)) = Some o -> 0 <= o ->
    nth_error (size (_index h)) (Z.to_nat (n - 1)) = Some sz -> 0 <= sz ->
    nth_error (type (_index h)) (Z.to_nat (n - 1)) = Some ty ->
    (ty = data -> nth_error (date (_index h)) (Z.to_nat (n - 1)) = Some d) ->
    let got := firstn (Z.to_nat sz) (skipn (Z.to_nat o) (contents (_fh h))) in
    let r := built_record ty sz (words got) d in
    Z.of_nat (length got) mod 4 = 0 ->
    (unpack = true -> unpack_raises r = None) ->
    record py3 unpack_raises (Some n) unpack h =
    (Ret (Some (if unpack then mark_unpacked r else r)),
     set_recordnumber n (at_position (Z.to_nat o + length got) h)).
Proof.
  intros h n o sz ty d u Hi Hn Ho Hopos Hsz Hszpos Hty Hd got r Hmod Hu.
  assert (Hn1 : 0 <= n - 1) by lia.
  apply (py_index_Ret_iff _ _ _ _ Hn1) in Ho, Hsz, Hty.
  apply record_run; try assumption.
  intros E. apply (py_index_Ret_iff _ _ _ _ Hn1). auto.
Qed.

(** X8. A record that is counted but has no offset cannot be read: for
    [1 <= n <= records] beyond the offsets of the index, [record(n)] raises
    [IndexError] and leaves the object as it was. *)
Theorem record_without_offset_raises :
  forall (h : handle) (n : Z) (unpack : bool),
    _hasindex h = true -> 1 <= n <= records h ->
    Z.of_nat (length (offset (_index h))) < n ->
    record py3 unpack_raises (Some n) unpack h = (Raise IndexError, h).
Proof.
  intros h n u Hi Hn Hlen. rewrite record_in_range by assumption.
  eapply run_bind_Raise. eapply run_bind_Raise.
  apply seek_raise; [assumption|lia|]. apply py_index_Raise_iff; lia.
Qed.

(** [seek] to the record after the cursor changes nothing for the [read(1)]
    that follows. *)
Lemma seek_next_then_read :
  forall u h,
    0 <= recordnumber h ->
    (seek (recordnumber h + 1) ;;; read py3 unpack_raises (Some 1) u) h =
    read py3 unpack_raises (Some 1) u h.
Proof.
  intros u h Hrn. set (n := recordnumber h + 1).
  assert (Hn : 1 <= n) by (subst n; lia).
  rewrite (read_one_shape py3 unpack_raises u h). fold n.
  destruct (_hasindex h) eqn:Hi.
  2:{ eapply run_bind_Ret; [apply seek_ignored; auto|cbv beta].
      rewrite read_one_shape. reflexivity. }
  destruct (py_index_outcome _ (offset (_index h)) (n - 1)) as [[o Ho]|Ho].
  - destruct (Z.ltb_spec o 0) as [Hneg|Hpos].
    + pose proof (seek_bad_offset h n o Hi Hn Ho Hneg) as Hs.
      rewrite (run_bind_Raise _ _ _ _ _ _ _ Hs).
      unfold read_record. cbv zeta.
      rewrite (run_bind_Raise _ _ _ _ _ _ _ Hs). reflexivity.
    + pose proof (seek_run h n o Hi Hn Ho Hpos) as Hs.
      set (s1 := set_recordnumber (n - 1) (at_position (Z.to_nat o) h)) in *.
      eapply run_bind_Ret; [exact Hs|cbv beta].
      rewrite read_one_shape.
      change (recordnumber s1) with (n - 1).
      replace (n - 1 + 1) with n by lia.
      assert (Hs1 : seek n s1 = (Ret tt, s1)) by (apply (seek_run s1 n o); assumption).
      assert (E : read_record py3 unpack_raises u n s1 =
                  read_record py3 unpack_raises u n h).
      { unfold read_record. cbv zeta.
        etransitivity; [eapply run_bind_Ret; [exact Hs1|reflexivity]|].
        symmetry. eapply run_bind_Ret; [exact Hs|reflexivity]. }
      rewrite E. reflexivity.
  - pose proof (seek_raise h n Hi Hn Ho) as Hs.
    rewrite (run_bind_Raise _ _ _ _ _ _ _ Hs).
    unfold read_record. cbv zeta.
    rewrite (run_bind_Raise _ _ _ _ _ _ _ Hs). reflexivity.
Qed.

(** X9. [__next__()] is [record(recordnumber + 1)] with the default
    [unpack=True] while the cursor is before the last counted record: the
    same record, the same exception, the same object afterwards. From the
    last record on, it ends the iteration and changes nothing. *)
Theorem next_is_the_record_after_the_cursor :
  forall (h : handle),
    0 <= recordnumber h ->
    __next__ py3 unpack_raises h =
    if recordnumber h <? records h then
      (o <- record py3 unpack_raises (Some (recordnumber h + 1)) true ;;
       ret (match o with Some r => Next r | None => StopIteration end)) h
    else (Ret StopIteration, h).
Proof.
  intros h Hrn. unfold __next__.
  eapply run_bind_Ret; [apply run_gets|cbv beta].
  eapply run_bind_Ret; [apply run_gets|cbv beta].
  destruct (recordnumber h <? records h) eqn:E; [|reflexivity].
  apply Z.ltb_lt in E.
  unfold bind at 3. rewrite record_in_range by lia.
  unfold bind at 3. rewrite seek_next_then_read by assumption.
  unfold bind.
  destruct (read py3 unpack_raises (Some 1) true h) as [[l| e |] h1]; try reflexivity.
  unfold lift. destruct (py_index l 0) as [r| e |]; reflexivity.
Qed.

End Records.

(** ** Identifiers that [fetch] cannot use *)

Lemma fetch_idx_short_id :
  forall d ws l h,
    (length ws < 4)%nat ->
    fetch_idx d (Some ws) l h = (Raise IndexError, h).
Proof.
  intros d ws l h Hlen.
  destruct ws as [|a [|b [|c [|e ws]]]]; simpl in Hlen; try lia;
    destruct d; reflexivity.
Qed.

Lemma id_word_None :
  forall allrecs col w, w < -1 -> id_word allrecs col w = None.
Proof.
  intros allrecs col w H. unfold id_word.
  destruct (w =? -1) eqn:E1; [apply Z.eqb_eq in E1; lia|].
  destruct (0 <=? w) eqn:E2; [apply Z.leb_le in E2; lia|]. reflexivity.
Qed.

Lemma fetch_idx_unbound :
  forall d w0 w1 w2 w3 more l h,
    w0 < -1 \/ w1 < -1 \/ w2 < -1 \/ w3 < -1 ->
    fetch_idx d (Some (w0 :: w1 :: w2 :: w3 :: more)) l h
    = (Raise UnboundLocalError, h).
Proof.
  intros d w0 w1 w2 w3 more l h Hw.
  pose proof (Zle_0_nat (length more)) as Hlen.
  assert (E0 : py_index (w0 :: w1 :: w2 :: w3 :: more) 0 = Ret w0)
    by (apply py_index_ok; [simpl length; lia|reflexivity]).
  assert (E1 : py_index (w0 :: w1 :: w2 :: w3 :: more) 1 = Ret w1)
    by (apply py_index_ok; [simpl length; lia|reflexivity]).
  assert (E2 : py_index (w0 :: w1 :: w2 :: w3 :: more) 2 = Ret w2)
    by (apply py_index_ok; [simpl length; lia|reflexivity]).
  assert (E3 : py_index (w0 :: w1 :: w2 :: w3 :: more) 3 = Ret w3)
    by (apply py_index_ok; [simpl length; lia|reflexivity]).
  unfold fetch_idx. unfold bind at 1, gets at 1. unfold bind at 1, gets at 1.
  assert (Hnone :
            match id_word (np_arange (records h)) (id1 (_index h)) w0,
                  id_word (np_arange (records h)) (id2 (_index h)) w1,
                  id_word (np_arange (records h)) (id3 (_index h)) w2,
                  id_word (np_arange (records h)) (id4 (_index h)) w3 with
            | Some _, Some _, Some _, Some _ => False
            | _, _, _, _ => True
            end).
  { destruct (id_word _ (id1 _) w0) eqn:H0; [|exact I].
    destruct (id_word _ (id2 _) w1) eqn:H1; [|exact I].
    destruct (id_word _ (id3 _) w2) eqn:H2; [|exact I].
    destruct (id_word _ (id4 _) w3) eqn:H3; [|exact I].
    apply id_word_Some in H0 as [_ H0], H1 as [_ H1], H2 as [_ H2], H3 as [_ H3].
    lia. }
  destruct d as [dt|];
    unfold bind, lift; rewrite E0, E1, E2, E3;
    destruct (id_word _ (id1 _) w0); try reflexivity;
    destruct (id_word _ (id2 _) w1); try reflexivity;
    destruct (id_word _ (id3 _) w2); try reflexivity;
    destruct (id_word _ (id4 _) w3); try reflexivity;
    contradiction.
Qed.

(** X10. [fetch] with an identifier it cannot use raises before it reads
    anything and leaves the object as it was: [IndexError] for an
    identifier of fewer than four words, [UnboundLocalError] when one of
    the first four words is below [-1]. *)
Theorem fetch_rejects_a_bad_identifier :
  forall (py3 : bool) (unpack_raises : tdlpack_record -> option exn)
         (h : handle) (date_ lead_ : option Z) (ws : list Z) (unpack : bool),
    ((length ws < 4)%nat ->
     fetch py3 unpack_raises date_ (Some ws) lead_ unpack h = (Raise IndexError, h))
    /\ ((4 <= length ws)%nat -> Exists (fun w => w < -1) (firstn 4 ws) ->
        fetch py3 unpack_raises date_ (Some ws) lead_ unpack h
        = (Raise UnboundLocalError, h)).
Proof.
  intros py3 unpack_raises h d l ws u. split.
  - intros Hlen. unfold fetch. eapply run_bind_Raise.
    apply fetch_idx_short_id. exact Hlen.
  - intros Hlen Hex. unfold fetch. eapply run_bind_Raise.
    destruct ws as [|w0 [|w1 [|w2 [|w3 more]]]]; simpl in Hlen; try lia.
    apply fetch_idx_unbound.
    simpl in Hex. inversion Hex as [? ? H0|? ? Hex1]; subst; [auto|].
    inversion Hex1 as [? ? H1|? ? Hex2]; subst; [auto|].
    inversion Hex2 as [? ? H2|? ? Hex3]; subst; [auto|].
    inversion Hex3 as [? ? H3|? ? Hex4]; subst; [auto|]. inversion Hex4.
Qed.

(** ** The shape of the index *)

Section Shape.

Variable py3 : bool.

Lemma fh_read_Ret :
  forall n h got h',
    fh_read py3 n h = (Ret got, h') ->
    h' = at_position (position (_fh h) + length got) h
    /\ (got <> [] -> (position (_fh h) + length got <= length (contents (_fh h)))%nat).
Proof.
  intros n h got h' H.
  destruct (fh_read_cases py3 n h) as [Hr|[got' [Hr [Hb _]]]];
    rewrite Hr in H; [discriminate|].
  inversion H; subst. split; [reflexivity|exact Hb].
Qed.

Lemma struct_unpack_i_length :
  forall bs v, struct_unpack_i bs = Ret v -> length bs = 4%nat.
Proof.
  intros bs v H.
  destruct (struct_unpack_i_outcome bs) as [[Hlen _]|[_ Hr]];
    [exact Hlen|rewrite Hr in H; discriminate].
Qed.

(** A pass that goes on has appended the offset of its record, twelve bytes
    behind the position it started from, and has moved the file by twenty
    bytes at least. *)
Lemma index_record_Ret_inv :
  forall last h last' h',
    index_record py3 last h = (Ret last', h') ->
    offset (_index h') = offset (_index h) ++ [Z.of_nat (position (_fh h)) + 12]
    /\ (position (_fh h) + 20 <= position (_fh h'))%nat.
Proof.
  intros last h last' h' H. unfold index_record in H.
  apply bind_Ret_inv in H as (pos & h1 & H1 & H).
  rewrite fh_tell_run in H1. inversion H1; subst pos h1. clear H1.
  apply bind_Ret_inv in H as (hb & h2 & H2 & H).
  apply bind_Ret_inv in H as (L & h3 & H3 & H).
  unfold lift in H3. inversion H3 as [[HL Hh3]]. subst h3. clear H3.
  cbv zeta in H.
  apply bind_Ret_inv in H as (buf & h4 & H4 & H).
  apply bind_Ret_inv in H as (temp & h5 & H5 & H).
  unfold lift in H5. inversion H5 as [[Htemp Hh5]]. subst h5. clear H5.
  apply bind_Ret_inv in H as ([] & h6 & H6 & H).
  apply bind_Ret_inv in H as ([] & h7 & H7 & H).
  rewrite run_modify in H7. inversion H7; subst h7. clear H7.
  apply bind_Ret_inv in H as ([] & h8 & H8 & H).
  apply bind_Ret_inv in H as (tb & h9 & H9 & H).
  apply bind_Ret_inv in H as (t & h10 & H10 & H).
  unfold lift in H10. inversion H10 as [[Ht Hh10]]. subst h10. clear H10.
  destruct (negb (L =? t)); [discriminate|].
  apply bind_Ret_inv in H as ([] & h11 & H11 & H).
  unfold append_offset in H11. rewrite run_modify in H11.
  inversion H11; subst h11. clear H11.
  apply bind_Ret_inv in H as (ty & h12 & H12 & H).
  apply bind_Ret_inv in H12 as (tys & h13 & Ha & Hb).
  rewrite run_gets in Ha. inversion Ha; subst tys h13. clear Ha.
  unfold lift in Hb. inversion Hb as [[Hty Hh12]]. subst h12. clear Hb.
  assert (Hh' : h' = (let i := _index h9 in
                      set_index (mk_index (offset i ++ [Z.of_nat (position (_fh h)) + 12])
                        (size i) (type i) (date i) (lead i) (id1 i) (id2 i) (id3 i)
                        (id4 i) (linked_station_id_record i)) h9)).
  { destruct (kind_eqb ty station); inversion H; reflexivity. }
  clear H Hty.
  apply fh_read_Ret in H2 as [-> _].
  apply struct_unpack_i_length in HL.
  apply fh_read_Ret in H4 as [-> _].
  assert (Hbuf : (12 <= length buf)%nat).
  { unfold catalog in H6. apply bind_Ret_inv in H6 as (t2 & hx & Ht2 & _).
    unfold lift in Ht2. injection Ht2 as E2 _.
    apply py_index_Ret_iff in E2; [|lia].
    assert (Hlt : (Z.to_nat 2 < length temp)%nat)
      by (apply nth_error_Some; rewrite E2; discriminate).
    destruct (np_frombuffer_outcome buf) as [Hw|Hw]; rewrite Hw in Htemp;
      [|discriminate].
    inversion Htemp; subst temp. pose proof (words_length buf). lia. }
  destruct (catalog_cases py3 temp last
              (at_position (position (_fh (at_position (position (_fh h) + length hb) h))
                            + length buf)
                 (at_position (position (_fh h) + length hb) h)))
    as [[e [hx [Hc _]]]|[sz [k [d [l [i1 [i2 [i3 [i4 [Hc _]]]]]]]]]];
    rewrite Hc in H6; [discriminate|].
  inversion H6; subst h6. clear H6 Hc.
  assert (Hoff : 0 <= L - (if 44 <=? L then 44 else L)).
  { destruct (44 <=? L) eqn:E; [apply Z.leb_le in E|]; lia. }
  rewrite (fh_seek_cur_run _ _ Hoff) in H8. inversion H8; subst h8. clear H8.
  apply struct_unpack_i_length in Ht.
  apply fh_read_Ret in H9 as [-> _].
  subst h'. split; [reflexivity|].
  cbn [_fh position at_position set_fh set_index set_records push_entry].
  lia.
Qed.

Lemma columns_have_push :
  forall n sz k d l i1 i2 i3 i4 lk h,
    columns_have n (_index h) ->
    columns_have (S n) (_index (push_entry sz k d l i1 i2 i3 i4 lk h)).
Proof.
  intros n sz k d l i1 i2 i3 i4 lk h (H1 & H2 & H3 & H4 & H5 & H6 & H7 & H8 & H9).
  unfold columns_have, push_entry. cbn [_index set_index size type date lead id1 id2
    id3 id4 linked_station_id_record].
  rewrite !length_app, H1, H2, H3, H4, H5, H6, H7, H8, H9. simpl length.
  repeat split; lia.
Qed.

Lemma ascending_snoc :
  forall l x, ascending l -> Forall (fun o => o < x) l -> ascending (l ++ [x]).
Proof.
  induction l as [|a l IH]; intros x Ha Hx; simpl.
  - constructor; constructor.
  - inversion Ha as [|? ? Hl Hall]; subst. inversion Hx as [|? ? Hax Hlx]; subst.
    constructor; [apply IH; assumption|].
    apply Forall_app. split; [assumption|]. constructor; [assumption|constructor].
Qed.

(** What the loop leaves when it ends normally. *)
Lemma scan_shape_inv :
  forall fuel last h h',
    scan_shape h ->
    scan py3 fuel last h = (Ret tt, h') ->
    0 <= records h'
    /\ columns_have (Z.to_nat (records h')) (_index h')
    /\ (length (offset (_index h')) = Z.to_nat (records h')
        \/ S (length (offset (_index h'))) = Z.to_nat (records h'))
    /\ offsets_within (Z.of_nat (length (contents (_fh h)))) (offset (_index h')).
Proof.
  induction fuel as [|fuel IH]; intros last h h' Hs Hscan; [discriminate|].
  destruct Hs as (Hrec & Hcols & Hoffs & Hbehind & Hpos).
  destruct (index_record_cases py3 last h) as [[p H]|[[e [h1 [H He]]]|H]];
    [| |destruct H as (sz & k & d & l & i1 & i2 & i3 & i4 & p & _ & _ & H);
        cbv zeta in H; destruct H as [H|[o [H Hp]]]].
  - rewrite (scan_stop _ _ _ _ _ H) in Hscan. inversion Hscan; subst h'.
    cbn [at_position set_fh _index records _fh contents].
    rewrite Hrec, Nat2Z.id. split; [lia|]. split; [exact Hcols|].
    split; [left; reflexivity|exact Hoffs].
  - rewrite (scan_raise _ _ _ _ _ _ H He) in Hscan. discriminate.
  - rewrite (scan_stop _ _ _ _ _ H) in Hscan. inversion Hscan; subst h'.
    change (records (at_position 0 (at_position p (set_records (records h + 1)
              (push_entry sz k d l i1 i2 i3 i4 last h)))))
      with (records h + 1).
    change (_index (at_position 0 (at_position p (set_records (records h + 1)
              (push_entry sz k d l i1 i2 i3 i4 last h)))))
      with (_index (push_entry sz k d l i1 i2 i3 i4 last h)).
    rewrite Hrec.
    replace (Z.to_nat (Z.of_nat (length (offset (_index h))) + 1))
      with (S (length (offset (_index h)))) by lia.
    split; [lia|]. split; [apply columns_have_push; exact Hcols|].
    split; [right; reflexivity|exact Hoffs].
  - rewrite (scan_continue _ _ _ _ _ _ H) in Hscan.
    apply index_record_Ret_inv in H as [Ho Hp20].
    cbn [at_position set_fh _index push_offset set_index offset _fh position] in Ho, Hp20.
    apply app_inj_tail in Ho as [_ Ho]. subst o.
    apply IH in Hscan; [exact Hscan|].
    unfold scan_shape.
    cbn [at_position set_fh _index push_offset set_index offset _fh position contents
         records set_records push_entry size type date lead id1 id2 id3 id4
         linked_station_id_record].
    destruct Hoffs as [Hasc Hall].
    rewrite length_app. simpl length.
    split; [lia|]. split; [|split; [split|split]].
    + replace (length (offset (_index h)) + 1)%nat
        with (S (length (offset (_index h)))) by lia.
      apply (columns_have_push _ sz k d l i1 i2 i3 i4 last h Hcols).
    + apply ascending_snoc; [exact Hasc|].
      eapply Forall_impl; [|exact Hbehind]. cbv beta. intros a Ha. lia.
    + apply Forall_app. split; [exact Hall|]. constructor; [lia|constructor].
    + apply Forall_app. split.
      * eapply Forall_impl; [|exact Hbehind]. cbv beta. intros a Ha. lia.
      * constructor; [lia|constructor].
    + lia.
Qed.

(** The index of an object that [open] returned. *)
Lemma open_shape :
  forall bytes h,
    open py3 bytes = Ret h ->
    0 <= records h
    /\ columns_have (Z.to_nat (records h)) (_index h)
    /\ (length (offset (_index h)) = Z.to_nat (records h)
        \/ S (length (offset (_index h))) = Z.to_nat (records h))
    /\ offsets_within (Z.of_nat (length bytes)) (offset (_index h)).
Proof.
  intros bytes h. unfold open, __init__.
  destruct (_get_index py3 _) as [[[]| e |] h'] eqn:H; try discriminate.
  intros Hh; inversion Hh; subst h'. clear Hh.
  unfold _get_index in H.
  apply bind_Ret_inv in H as ([] & h1 & H1 & H).
  apply bind_Ret_inv in H as (n & h2 & H2 & H).
  apply bind_Ret_inv in H as ([] & h3 & H3 & H).
  apply bind_Ret_inv in H as ([] & h4 & H4 & H).
  apply bind_Ret_inv in H as (ds & h5 & H5 & H).
  apply bind_Ret_inv in H as ([] & h6 & H6 & H).
  apply bind_Ret_inv in H as (ls & h7 & H7 & H).
  apply bind_Ret_inv in H5 as (col & h5' & H5a & H5b).
  apply bind_Ret_inv in H7 as (col' & h7' & H7a & H7b).
  unfold modify, gets, lift in *.
  inversion H1; subst h1; clear H1. inversion H2; subst n h2; clear H2.
  inversion H4; subst h4; clear H4.
  inversion H5a; subst col h5'; clear H5a.
  inversion H5b as [[Hds Hh5]]; subst h5; clear H5b.
  inversion H6; subst h6; clear H6.
  inversion H7a; subst col' h7'; clear H7a.
  inversion H7b as [[Hls Hh7]]; subst h7; clear H7b.
  inversion H; subst h; clear H.
  apply scan_shape_inv in H3.
  - exact H3.
  - unfold scan_shape, columns_have, offsets_within. simpl.
    repeat split; try constructor. lia.
Qed.

End Shape.

(** ** The outcomes of [open] *)

Lemma bind_Raise_inv :
  forall (A B : Type) (m : M A) (k : A -> M B) h e h',
    bind m k h = (Raise e, h') ->
    m h = (Raise e, h') \/ exists a h1, m h = (Ret a, h1) /\ k a h1 = (Raise e, h').
Proof.
  intros A B m k h e h' H. unfold bind in H.
  destruct (m h) as [[a| e0 |] h1]; [right; eauto|left; inversion H; reflexivity|discriminate].
Qed.

Section Outcome.

Variable py3 : bool.

Lemma scan_never_struct_error :
  forall fuel last h e h',
    scan py3 fuel last h = (Raise e, h') -> e <> struct_error.
Proof.
  induction fuel as [|fuel IH]; intros last h e h' Hscan; [discriminate|].
  destruct (index_record_cases py3 last h) as [[p H]|[[e1 [h1 [H He]]]|H]];
    [| |destruct H as (sz & k & d & l & i1 & i2 & i3 & i4 & p & _ & _ & H);
        cbv zeta in H; destruct H as [H|[o [H Hp]]]].
  - rewrite (scan_stop _ _ _ _ _ H) in Hscan. discriminate.
  - rewrite (scan_raise _ _ _ _ _ _ H He) in Hscan. inversion Hscan; subst. exact He.
  - rewrite (scan_stop _ _ _ _ _ H) in Hscan. discriminate.
  - rewrite (scan_continue _ _ _ _ _ _ H) in Hscan. eapply IH, Hscan.
Qed.

Lemma py_sorted_set_Raise :
  forall col e, py_sorted_set py3 col = Raise e -> e = TypeError.
Proof.
  intros col e. unfold py_sorted_set.
  destruct (has_none col); [destruct (sorted_set (somes col)); [|destruct py3]|];
    intros H; inversion H; reflexivity.
Qed.

(** X11. [open] ends on every file, and [struct.error], by which the loop of
    [_get_index] learns of the end of the file, never leaves it: the
    caller gets the object or another exception. *)
Theorem open_returns_or_raises :
  forall (bytes : list byte),
    (exists h, open py3 bytes = Ret h)
    \/ (exists e, open py3 bytes = Raise e /\ e <> struct_error).
Proof.
  intros bytes. pose proof (open_never_runs_out py3 bytes) as Hfuel.
  destruct (open py3 bytes) as [h| e |] eqn:Ho; [left; eauto| |contradiction].
  right. exists e. split; [reflexivity|].
  unfold open, __init__ in Ho.
  destruct (_get_index py3 _) as [[[]| e0 |] h'] eqn:H; try discriminate.
  inversion Ho; subst e0. clear Ho.
  unfold _get_index in H.
  apply bind_Raise_inv in H as [H|([] & h1 & _ & H)]; [discriminate|].
  apply bind_Raise_inv in H as [H|(n & h2 & H2 & H)]; [discriminate|].
  rewrite run_gets in H2. inversion H2; subst n h2. clear H2.
  apply bind_Raise_inv in H as [H|([] & h3 & _ & H)];
    [eapply scan_never_struct_error, H|].
  apply bind_Raise_inv in H as [H|([] & h4 & _ & H)]; [discriminate|].
  apply bind_Raise_inv in H as [H|(ds & h5 & _ & H)].
  { apply bind_Raise_inv in H as [H|(col & h6 & _ & H)]; [discriminate|].
    unfold lift in H. injection H as H _.
    apply py_sorted_set_Raise in H. subst e. discriminate. }
  apply bind_Raise_inv in H as [H|([] & h6 & _ & H)]; [discriminate|].
  apply bind_Raise_inv in H as [H|(ls & h7 & _ & H)]; [|discriminate].
  apply bind_Raise_inv in H as [H|(col & h8 & _ & H)]; [discriminate|].
  unfold lift in H. injection H as H _.
  apply py_sorted_set_Raise in H. subst e. discriminate.
Qed.

(** ** The entry of a record *)

Lemma entry_kind_data :
  forall temp,
    bytes_eqb (scalar_buffer (nth 2 temp 0)) PLDT = true ->
    entry_kind temp = data.
Proof. intros temp E. unfold entry_kind. rewrite E. reflexivity. Qed.

Lemma entry_kind_trailer :
  forall temp,
    bytes_eqb (scalar_buffer (nth 2 temp 0)) PLDT = false ->
    nth 1 temp 0 = 24 -> nth 6 temp 0 = 9999 ->
    entry_kind temp = trailer.
Proof.
  intros temp E E1 E6. unfold entry_kind. rewrite E, E1, E6. reflexivity.
Qed.

Lemma entry_kind_station :
  forall temp,
    bytes_eqb (scalar_buffer (nth 2 temp 0)) PLDT = false ->
    nth 1 temp 0 <> 24 \/ nth 6 temp 0 <> 9999 ->
    entry_kind temp = station.
Proof.
  intros temp E Hne. unfold entry_kind. rewrite E.
  assert (Hb : (nth 1 temp 0 =? 24) && (nth 6 temp 0 =? 9999) = false).
  { apply andb_false_iff. destruct Hne as [H|H]; [left|right];
      apply Z.eqb_neq; exact H. }
  rewrite Hb. reflexivity.
Qed.

Ltac data_raises H e :=
  let Hr := fresh "Hr" in
  lazymatch type of H with
  | catalog_data ?t ?l ?h = _ =>
    assert (Hr : exists hx, catalog_data t l h = (Raise e, hx))
      by (eexists; unfold catalog_data; repeat run_step);
    destruct Hr as [? Hr]; rewrite Hr in H; discriminate
  end.

(** What [catalog] appends when it returns. *)
Lemma catalog_entry :
  forall temp last h h',
    catalog py3 temp last h = (Ret tt, h') ->
    h' = push_entry (nth 1 temp 0) (entry_kind temp) (entry_date temp)
                    (entry_lead temp) (entry_id 7 400001000 temp)
                    (entry_id 8 0 temp) (entry_id 9 0 temp) (entry_id 10 0 temp)
                    last h.
Proof.
  intros temp last h h' H.
  destruct (py_index_outcome _ temp 2) as [[t2 E2]|E2].
  2:{ assert (Hr : catalog py3 temp last h = (Raise IndexError, h))
        by (unfold catalog; eapply run_bind_Raise; run_prim).
      rewrite Hr in H. discriminate. }
  destruct (decode_outcome py3 (scalar_buffer t2)) as [Ed|Ed].
  2:{ assert (Hr : catalog py3 temp last h = (Raise UnicodeDecodeError, h)).
      { unfold catalog. eapply run_bind_Ret; [run_prim|cbv beta].
        eapply run_bind_Raise. run_prim. }
      rewrite Hr in H. discriminate. }
  pose proof (py_index_nth temp 2 t2 0 ltac:(lia) E2) as N2.
  change (Z.to_nat 2) with 2%nat in N2.
  destruct (bytes_eqb (scalar_buffer t2) PLDT) eqn:Eb.
  - rewrite (catalog_PLDT py3 temp last h t2 _ E2 Ed Eb) in H.
    destruct (py_index_outcome _ temp 1) as [[t1 E1]|E1]; [|data_raises H IndexError].
    destruct (py_index_outcome _ temp 6) as [[t6 E6]|E6]; [|data_raises H IndexError].
    destruct (py_index_outcome _ temp 9) as [[t9 E9]|E9]; [|data_raises H IndexError].
    destruct (int_of_last3_outcome t9) as [[l El]|El]; [|data_raises H ValueError].
    destruct (py_index_outcome _ temp 7) as [[t7 E7]|E7]; [|data_raises H IndexError].
    destruct (py_index_outcome _ temp 8) as [[t8 E8]|E8]; [|data_raises H IndexError].
    destruct (py_index_outcome _ temp 10) as [[t10 E10]|E10]; [|data_raises H IndexError].
    rewrite (catalog_data_eq temp last h t1 t6 t7 t8 t9 t10 l E1 E6 E7 E8 E9 E10 El) in H.
    inversion H; subst h'.
    pose proof (py_index_nth temp 1 t1 0 ltac:(lia) E1) as N1.
    pose proof (py_index_nth temp 6 t6 0 ltac:(lia) E6) as N6.
    pose proof (py_index_nth temp 7 t7 0 ltac:(lia) E7) as N7.
    pose proof (py_index_nth temp 8 t8 0 ltac:(lia) E8) as N8.
    pose proof (py_index_nth temp 9 t9 0 ltac:(lia) E9) as N9.
    pose proof (py_index_nth temp 10 t10 0 ltac:(lia) E10) as N10.
    change (Z.to_nat 1) with 1%nat in N1. change (Z.to_nat 6) with 6%nat in N6.
    change (Z.to_nat 7) with 7%nat in N7. change (Z.to_nat 8) with 8%nat in N8.
    change (Z.to_nat 9) with 9%nat in N9. change (Z.to_nat 10) with 10%nat in N10.
    rewrite <- N2 in Eb. pose proof (entry_kind_data temp Eb) as Hk.
    unfold entry_date, entry_lead, entry_id. rewrite Hk, N1, N6, N7, N8, N9, N10, El.
    reflexivity.
  - destruct (py_index_below _ temp 1 2 t2 ltac:(lia) E2) as [t1 E1].
    pose proof (py_index_nth temp 1 t1 0 ltac:(lia) E1) as N1.
    change (Z.to_nat 1) with 1%nat in N1.
    pose proof Eb as Eb'. rewrite <- N2 in Eb'.
    destruct (Z.eq_dec t1 24) as [->|Hne].
    + destruct (py_index_outcome _ temp 6) as [[t6 E6]|E6].
      * pose proof (py_index_nth temp 6 t6 0 ltac:(lia) E6) as N6.
        change (Z.to_nat 6) with 6%nat in N6.
        destruct (Z.eq_dec t6 9999) as [->|Hne6].
        { rewrite (catalog_trailer_case py3 temp last h t2 _ E2 Ed Eb E1 E6) in H.
          inversion H; subst h'.
          pose proof (entry_kind_trailer temp Eb' N1 N6) as Hk.
          unfold entry_date, entry_lead, entry_id. rewrite Hk, N1. reflexivity. }
        { rewrite (catalog_station_case py3 temp last h t2 _ 24 E2 Ed Eb E1) in H
            by eauto.
          inversion H; subst h'.
          assert (Hk : entry_kind temp = station)
            by (apply entry_kind_station; [exact Eb'|right; lia]).
          unfold entry_date, entry_lead, entry_id. rewrite Hk, N1. reflexivity. }
      * rewrite (catalog_no_word6_case py3 temp last h t2 _ E2 Ed Eb E1 E6) in H.
        discriminate.
    + rewrite (catalog_station_case py3 temp last h t2 _ t1 E2 Ed Eb E1) in H
        by auto.
      inversion H; subst h'.
      assert (Hk : entry_kind temp = station)
        by (apply entry_kind_station; [exact Eb'|left; lia]).
      unfold entry_date, entry_lead, entry_id. rewrite Hk, N1. reflexivity.
Qed.

End Outcome.

(** ** Files of whole frames *)

Lemma frames_cons :
  forall p ps, concat (map frame (p :: ps)) = frame p ++ concat (map frame ps).
Proof. reflexivity. Qed.

Lemma frames_app :
  forall a b,
    concat (map frame (a ++ b)) = concat (map frame a) ++ concat (map frame b).
Proof. intros a b. rewrite map_app, concat_app. reflexivity. Qed.

Lemma frame_offsets_length :
  forall ps start, length (frame_offsets start ps) = length ps.
Proof.
  induction ps as [|p ps IH]; intros start; simpl; [reflexivity|].
  rewrite IH. reflexivity.
Qed.

Lemma frame_offsets_app :
  forall a b start,
    frame_offsets start (a ++ b) =
    frame_offsets start a
    ++ frame_offsets (start + length (concat (map frame a))) b.
Proof.
  induction a as [|p a IH]; intros b start.
  - simpl. rewrite Nat.add_0_r. reflexivity.
  - change ((p :: a) ++ b) with (p :: (a ++ b)).
    cbn [frame_offsets]. rewrite IH, frames_cons, length_app, frame_length.
    cbn [app]. do 3 f_equal. lia.
Qed.

Section Frames.

Variable py3 : bool.

(** With fewer than four bytes left, a pass ends the loop. *)
Lemma index_record_at_end :
  forall last h,
    (length (contents (_fh h)) - position (_fh h) < 4)%nat ->
    exists p, index_record py3 last h = (Raise struct_error, at_position p h).
Proof.
  intros last h Hlt.
  assert (Hlen : (length (skipn (position (_fh h)) (contents (_fh h))) < 4)%nat)
    by (rewrite length_skipn; exact Hlt).
  eexists. unfold index_record.
  eapply run_bind_Ret; [apply fh_tell_run|cbv beta].
  eapply run_bind_Ret; [apply fh_read_rest; simpl; lia|cbv beta].
  eapply run_bind_Raise. apply run_lift.
  destruct (struct_unpack_i_outcome
              (skipn (position (_fh h)) (contents (_fh h))))
    as [[H4 _]|[_ H]]; [lia|exact H].
Qed.

(** A pass over a whole frame that goes on has appended the entry of the
    frame. *)
Lemma index_record_frame :
  forall h pre p rest last last' h',
    contents (_fh h) = pre ++ frame p ++ rest ->
    position (_fh h) = length pre ->
    Z.of_nat (length p) < 2 ^ 31 ->
    index_record py3 last h = (Ret last', h') ->
    h' = at_position (length pre + 8 + length p)
           (push_offset (Z.of_nat (length pre) + 12)
              (set_records (records h + 1)
                 (push_entry (nth 1 (head_words p) 0) (entry_kind (head_words p))
                    (entry_date (head_words p)) (entry_lead (head_words p))
                    (entry_id 7 400001000 (head_words p)) (entry_id 8 0 (head_words p))
                    (entry_id 9 0 (head_words p)) (entry_id 10 0 (head_words p))
                    last h))).
Proof.
  intros h pre p rest last last' h' Hc Hp HL H.
  assert (Hc' : contents (_fh h) =
                pre ++ pack_i (Z.of_nat (length p)) ++ p
                    ++ pack_i (Z.of_nat (length p)) ++ rest).
  { rewrite Hc. unfold frame. rewrite <- !app_assoc. reflexivity. }
  pose proof (pack_i_length (Z.of_nat (length p))) as Htr.
  destruct (np_frombuffer_outcome (firstn 44 p)) as [Hfb|Hfb].
  2:{ rewrite (index_record_window_error py3 h pre p _ rest last Hc' Hp HL Htr _ Hfb)
        in H. discriminate. }
  destruct (catalog_cases py3 (words (firstn 44 p)) last
              (at_position (length pre + 4 + length (firstn 44 p)) h))
    as [[e [h2 [Hcat _]]]|[sz [k [d [l [i1 [i2 [i3 [i4 [Hcat _]]]]]]]]]].
  { rewrite (index_record_catalog_error py3 h pre p _ rest last Hc' Hp HL Htr
               _ _ _ Hfb Hcat) in H. discriminate. }
  pose proof Hcat as Hent. apply catalog_entry in Hent.
  rewrite Hent in Hcat.
  assert (Ht : struct_unpack_i (pack_i (Z.of_nat (length p))) = Ret (Z.of_nat (length p)))
    by (apply unpack_pack_i; lia).
  rewrite (index_record_tail py3 h pre p _ rest last Hc' Hp HL Htr
             _ _ _ _ _ _ _ _ _ _ Hfb Hcat Ht) in H.
  rewrite Z.eqb_refl in H. inversion H; subst. reflexivity.
Qed.

(** The loop over a file of whole frames, behind which fewer than four bytes
    are left. *)
Lemma scan_frames :
  forall payloads fuel last h pre tail h',
    Forall (fun p => Z.of_nat (length p) < 2 ^ 31) payloads ->
    (length tail < 4)%nat ->
    contents (_fh h) = pre ++ concat (map frame payloads) ++ tail ->
    position (_fh h) = length pre ->
    scan py3 fuel last h = (Ret tt, h') ->
    records h' = records h + Z.of_nat (length payloads)
    /\ offset (_index h') = offset (_index h) ++ frame_offsets (length pre) payloads
    /\ size (_index h') =
       size (_index h) ++ map (fun p => nth 1 (head_words p) 0) payloads
    /\ type (_index h') =
       type (_index h) ++ map (fun p => entry_kind (head_words p)) payloads
    /\ date (_index h') =
       date (_index h) ++ map (fun p => entry_date (head_words p)) payloads
    /\ lead (_index h') =
       lead (_index h) ++ map (fun p => entry_lead (head_words p)) payloads
    /\ id1 (_index h') =
       id1 (_index h) ++ map (fun p => entry_id 7 400001000 (head_words p)) payloads
    /\ id2 (_index h') =
       id2 (_index h) ++ map (fun p => entry_id 8 0 (head_words p)) payloads
    /\ id3 (_index h') =
       id3 (_index h) ++ map (fun p => entry_id 9 0 (head_words p)) payloads
    /\ id4 (_index h') =
       id4 (_index h) ++ map (fun p => entry_id 10 0 (head_words p)) payloads
    /\ recordnumber h' = recordnumber h.
Proof.
  induction payloads as [|p ps IH];
    intros fuel last h pre tail h' Hsmall Htail Hc Hp Hscan;
    (destruct fuel as [|fuel]; [discriminate|]).
  - destruct (index_record_at_end last h) as [q H].
    { rewrite Hc, Hp, length_app. simpl. lia. }
    rewrite (scan_stop _ _ _ _ _ H) in Hscan. inversion Hscan; subst h'.
    cbn [at_position set_fh _index records map frame_offsets length recordnumber].
    rewrite !app_nil_r. repeat split. lia.
  - inversion Hsmall as [|? ? HL Hrest]; subst.
    assert (Hc1 : contents (_fh h) = pre ++ frame p ++ (concat (map frame ps) ++ tail)).
    { rewrite Hc, frames_cons, <- !app_assoc. reflexivity. }
    assert (Hc2 : contents (_fh h) =
                  pre ++ pack_i (Z.of_nat (length p)) ++ p
                      ++ pack_i (Z.of_nat (length p))
                      ++ (concat (map frame ps) ++ tail)).
    { rewrite Hc1. unfold frame. rewrite <- !app_assoc. reflexivity. }
    destruct (index_record_on_frame py3 h pre p (pack_i (Z.of_nat (length p))) _ last
                Hc2 Hp HL (pack_i_length _))
      as [[e [h1 [H He]]]|[_ [last' [h1 [H _]]]]].
    { rewrite (scan_raise _ _ _ _ _ _ H He) in Hscan. discriminate. }
    rewrite (scan_continue _ _ _ _ _ _ H) in Hscan.
    apply (index_record_frame h pre p _ last last' h1 Hc1 Hp HL) in H. subst h1.
    apply (IH fuel last' _ (pre ++ frame p) tail h' Hrest Htail) in Hscan.
    + cbn [at_position set_fh _index records push_offset set_index set_records
           push_entry offset size type date lead id1 id2 id3 id4 recordnumber]
        in Hscan.
      destruct Hscan as (Hr & Ho & Hs & Ht & Hd & Hl & H1 & H2 & H3 & H4 & Hn).
      rewrite Hr, Ho, Hs, Ht, Hd, Hl, H1, H2, H3, H4, Hn, length_app, frame_length.
      cbn [map frame_offsets length]. rewrite <- !app_assoc. cbn [app].
      replace (length pre + (8 + length p))%nat with (length pre + 8 + length p)%nat
        by lia.
      repeat split. lia.
    + rewrite at_position_contents.
      change (contents (_fh (push_offset _ _))) with (contents (_fh h)).
      rewrite Hc1, <- !app_assoc. reflexivity.
    + rewrite at_position_position, length_app, frame_length. lia.
Qed.

(** The object that [open] returns holds what the loop has left. *)
Lemma open_Ret_scan :
  forall bytes h,
    open py3 bytes = Ret h ->
    exists h3,
      scan py3 (S (length bytes)) 0 (set_index empty_index (fresh_handle bytes))
      = (Ret tt, h3)
      /\ _index h = _index h3 /\ records h = records h3 /\ _fh h = _fh h3
      /\ _hasindex h = true /\ recordnumber h = recordnumber h3.
Proof.
  intros bytes h. unfold open, __init__.
  destruct (_get_index py3 _) as [[[]| e |] h'] eqn:H; try discriminate.
  intros Hh; inversion Hh; subst h'. clear Hh.
  unfold _get_index in H.
  apply bind_Ret_inv in H as ([] & h1 & H1 & H).
  apply bind_Ret_inv in H as (n & h2 & H2 & H).
  apply bind_Ret_inv in H as ([] & h3 & H3 & H).
  apply bind_Ret_inv in H as ([] & h4 & H4 & H).
  apply bind_Ret_inv in H as (ds & h5 & H5 & H).
  apply bind_Ret_inv in H as ([] & h6 & H6 & H).
  apply bind_Ret_inv in H as (ls & h7 & H7 & H).
  apply bind_Ret_inv in H5 as (col & h5' & H5a & H5b).
  apply bind_Ret_inv in H7 as (col' & h7' & H7a & H7b).
  unfold modify, gets, lift in *.
  inversion H1; subst h1; clear H1. inversion H2; subst n h2; clear H2.
  inversion H4; subst h4; clear H4.
  inversion H5a; subst col h5'; clear H5a.
  inversion H5b as [[Hds Hh5]]; subst h5; clear H5b.
  inversion H6; subst h6; clear H6.
  inversion H7a; subst col' h7'; clear H7a.
  inversion H7b as [[Hls Hh7]]; subst h7; clear H7b.
  inversion H; subst h; clear H.
  exists h3. split; [exact H3|]. repeat split.
Qed.

(** The index that [open] builds for a file of whole frames. *)
Lemma open_frames :
  forall payloads tail h,
    Forall (fun p => Z.of_nat (length p) < 2 ^ 31) payloads ->
    (length tail < 4)%nat ->
    open py3 (concat (map frame payloads) ++ tail) = Ret h ->
    records h = Z.of_nat (length payloads)
    /\ offset (_index h) = frame_offsets 0 payloads
    /\ size (_index h) = map (fun p => nth 1 (head_words p) 0) payloads
    /\ type (_index h) = map (fun p => entry_kind (head_words p)) payloads
    /\ date (_index h) = map (fun p => entry_date (head_words p)) payloads
    /\ lead (_index h) = map (fun p => entry_lead (head_words p)) payloads
    /\ id1 (_index h) = map (fun p => entry_id 7 400001000 (head_words p)) payloads
    /\ id2 (_index h) = map (fun p => entry_id 8 0 (head_words p)) payloads
    /\ id3 (_index h) = map (fun p => entry_id 9 0 (head_words p)) payloads
    /\ id4 (_index h) = map (fun p => entry_id 10 0 (head_words p)) payloads
    /\ recordnumber h = 0.
Proof.
  intros payloads tail h Hsmall Htail Ho.
  apply open_Ret_scan in Ho as (h3 & Hscan & Hix & Hrec & _ & _ & Hrn).
  apply (scan_frames payloads _ 0 _ [] tail h3 Hsmall Htail) in Hscan;
    [|reflexivity|reflexivity].
  destruct Hscan as (Hr & Hof & Hs & Ht & Hd & Hl & H1 & H2 & H3 & H4 & Hn).
  rewrite Hix, Hrec, Hrn, Hr, Hof, Hs, Ht, Hd, Hl, H1, H2, H3, H4, Hn. cbn [app].
  repeat split; assumption || lia.
Qed.

(** X12. The index of a file of whole frames. When [open] returns an object
    for a file that consists of frames, each a payload between two equal
    length markers, followed by fewer than four bytes, the object counts
    one record per frame, and the index holds for each frame, in the order
    of the file: under ['offset'] the byte 12 behind the start of the frame,
    under ['size'] word 1 of the payload, under ['type'] the kind that the
    head of the payload gives; for a data record word 6 under ['date'], the
    number spelt by the last three characters of word 9 under ['lead'] and
    words 7 to 10 under ['id1'] to ['id4']; for a station record the
    identifier (400001000, 0, 0, 0) and no date or lead; for a trailer
    record [None] under all of these. The file is back at byte 0 and the
    cursor at 0. *)
Theorem open_indexes_every_frame :
  forall (payloads : list (list byte)) (tail : list byte) (h : handle),
    Forall (fun p => Z.of_nat (length p) < 2 ^ 31) payloads ->
    (length tail < 4)%nat ->
    open py3 (concat (map frame payloads) ++ tail) = Ret h ->
    records h = Z.of_nat (length payloads)
    /\ offset (_index h) = frame_offsets 0 payloads
    /\ size (_index h) = map (fun p => nth 1 (head_words p) 0) payloads
    /\ type (_index h) = map (fun p => entry_kind (head_words p)) payloads
    /\ date (_index h) = map (fun p => entry_date (head_words p)) payloads
    /\ lead (_index h) = map (fun p => entry_lead (head_words p)) payloads
    /\ id1 (_index h) = map (fun p => entry_id 7 400001000 (head_words p)) payloads
    /\ id2 (_index h) = map (fun p => entry_id 8 0 (head_words p)) payloads
    /\ id3 (_index h) = map (fun p => entry_id 9 0 (head_words p)) payloads
    /\ id4 (_index h) = map (fun p => entry_id 10 0 (head_words p)) payloads
    /\ _fh h = mk_file (concat (map frame payloads) ++ tail) 0
    /\ recordnumber h = 0 /\ _hasindex h = true.
Proof.
  intros payloads tail h Hsmall Htail Ho.
  pose proof (open_Ret_inv py3 _ _ Ho) as (_ & Hi & Hfh & _).
  destruct (open_frames payloads tail h Hsmall Htail Ho)
    as (Hr & Hof & Hs & Ht & Hd & Hl & H1 & H2 & H3 & H4 & Hn).
  repeat split; assumption.
Qed.

End Frames.

(** ** Random access to a file of frames *)

Lemma nth_error_middle :
  forall (A : Type) (a b : list A) (x : A), nth_error (a ++ x :: b) (length a) = Some x.
Proof.
  intros A a b x. rewrite nth_error_app2 by lia. rewrite Nat.sub_diag. reflexivity.
Qed.

Lemma nth_error_map_middle :
  forall (A B : Type) (f : A -> B) (a b : list A) (x : A),
    nth_error (map f (a ++ x :: b)) (length a) = Some (f x).
Proof.
  intros A B f a b x. rewrite map_app. cbn [map].
  rewrite <- (length_map f a). apply nth_error_middle.
Qed.

Lemma frame_offsets_middle :
  forall a b p,
    nth_error (frame_offsets 0 (a ++ p :: b)) (length a)
    = Some (Z.of_nat (length (concat (map frame a))) + 12).
Proof.
  intros a b p. rewrite frame_offsets_app. cbn [frame_offsets].
  rewrite <- (frame_offsets_length a 0) at 1. rewrite nth_error_middle.
  reflexivity.
Qed.

(** The bytes of a record in a file of frames: those behind the first eight
    of the payload. *)
Lemma frame_body :
  forall pre p rest n,
    (8 + n <= length p)%nat ->
    firstn n (skipn (length pre + 12) (pre ++ frame p ++ rest))
    = firstn n (skipn 8 p).
Proof.
  intros pre p rest n Hn.
  rewrite skipn_app. rewrite skipn_all2 by lia.
  replace (length pre + 12 - length pre)%nat with 12%nat by lia.
  cbn [app]. unfold frame. rewrite <- !app_assoc.
  rewrite skipn_app, pack_i_length. rewrite skipn_all2 by (rewrite pack_i_length; lia).
  cbn [app]. change (12 - 4)%nat with 8%nat.
  rewrite skipn_app.
  replace (8 - length p)%nat with 0%nat by lia. rewrite skipn_O.
  rewrite firstn_app. rewrite length_skipn.
  replace (n - (length p - 8))%nat with 0%nat by lia.
  cbn [firstn]. apply app_nil_r.
Qed.

Section Capstone.

Variable py3 : bool.
Variable unpack_raises : tdlpack_record -> option exn.

(** X13. Random access returns the record of the frame. On the object that
    [open] returns for a file of whole frames, [record(n)] returns the
    record of the [n]-th frame: [ioctet] is word 1 of its payload, [ipack]
    the [ioctet] bytes behind the first eight bytes of the payload, as
    words, and its kind and reference date are those of the head of the
    payload. This holds when [ioctet] is a multiple of four that the
    payload has room for, and, with [unpack], the decoder accepts the
    record. *)
Theorem record_returns_the_frame :
  forall (before after : list (list byte)) (p tail : list byte) (h : handle)
         (unpack : bool),
    Forall (fun q => Z.of_nat (length q) < 2 ^ 31) (before ++ p :: after) ->
    (length tail < 4)%nat ->
    open py3 (concat (map frame (before ++ p :: after)) ++ tail) = Ret h ->
    let n := Z.of_nat (length before) + 1 in
    let ioctet := nth 1 (head_words p) 0 in
    let body := firstn (Z.to_nat ioctet) (skipn 8 p) in
    let r := built_record (entry_kind (head_words p)) ioctet (words body)
                          (entry_date (head_words p)) in
    0 <= ioctet <= Z.of_nat (length p) - 8 ->
    ioctet mod 4 = 0 ->
    (unpack = true -> unpack_raises r = None) ->
    record py3 unpack_raises (Some n) unpack h =
    (Ret (Some (if unpack then mark_unpacked r else r)),
     set_recordnumber n
       (at_position (length (concat (map frame before)) + 12 + Z.to_nat ioctet) h)).
Proof.
  intros before after p tail h u Hsmall Htail Ho n ioctet body r Hsz Hmod Hu.
  pose proof (open_Ret_inv py3 _ _ Ho) as (_ & Hi & Hfh & _).
  destruct (open_frames py3 _ tail h Hsmall Htail Ho)
    as (Hr & Hof & Hs & Ht & Hd & _).
  assert (Hn1 : 0 <= n - 1) by (subst n; lia).
  assert (En : Z.to_nat (n - 1) = length before) by (subst n; lia).
  assert (Hc : contents (_fh h) =
               concat (map frame before)
               ++ frame p ++ (concat (map frame after) ++ tail)).
  { rewrite Hfh. cbn [contents]. rewrite frames_app, frames_cons, <- !app_assoc.
    reflexivity. }
  assert (Hgot : firstn (Z.to_nat ioctet)
                   (skipn (Z.to_nat (Z.of_nat (length (concat (map frame before))) + 12))
                      (contents (_fh h))) = body).
  { rewrite Hc.
    replace (Z.to_nat (Z.of_nat (length (concat (map frame before))) + 12))
      with (length (concat (map frame before)) + 12)%nat by lia.
    apply frame_body. lia. }
  assert (Hlen : length body = Z.to_nat ioctet).
  { subst body. rewrite length_firstn, length_skipn. lia. }
  pose proof (record_run py3 unpack_raises u n h
                (Z.of_nat (length (concat (map frame before))) + 12) ioctet
                (entry_kind (head_words p)) (entry_date (head_words p))) as Hrun.
  cbv zeta in Hrun. rewrite Hgot in Hrun. rewrite Hlen in Hrun.
  replace (Z.to_nat (Z.of_nat (length (concat (map frame before))) + 12))
    with (length (concat (map frame before)) + 12)%nat in Hrun by lia.
  apply Hrun; clear Hrun.
  - exact Hi.
  - rewrite Hr, length_app. cbn [length]. subst n. lia.
  - apply py_index_Ret_iff; [exact Hn1|]. rewrite En, Hof.
    apply frame_offsets_middle.
  - lia.
  - apply py_index_Ret_iff; [exact Hn1|]. rewrite En, Hs.
    apply (nth_error_map_middle _ _ (fun q => nth 1 (head_words q) 0)).
  - lia.
  - apply py_index_Ret_iff; [exact Hn1|]. rewrite En, Ht.
    apply (nth_error_map_middle _ _ (fun q => entry_kind (head_words q))).
  - intros _. apply py_index_Ret_iff; [exact Hn1|]. rewrite En, Hd.
    apply (nth_error_map_middle _ _ (fun q => entry_date (head_words q))).
  - rewrite Z2Nat.id by lia. exact Hmod.
  - exact Hu.
Qed.

(** X14. The shape of the index. On an object that [open] returned, every
    key of the index but ['offset'] has exactly [records] entries, and
    ['offset'] has as many or one fewer: the last record is counted
    without an offset when the file ends before its trailing length
    marker. *)
Theorem index_has_one_entry_per_record :
  forall (bytes : list byte) (h : handle),
    open py3 bytes = Ret h ->
    0 <= records h
    /\ columns_have (Z.to_nat (records h)) (_index h)
    /\ (length (offset (_index h)) = Z.to_nat (records h)
        \/ S (length (offset (_index h))) = Z.to_nat (records h)).
Proof.
  intros bytes h Ho. apply open_shape in Ho as (H0 & Hc & Hl & _). auto.
Qed.

(** X15. The offsets of the index. On an object that [open] returned the
    offsets ascend strictly, and each lies in the file: at least 12 bytes
    from its start and at least 8 from its end. *)
Theorem offsets_ascend_within_the_file :
  forall (bytes : list byte) (h : handle),
    open py3 bytes = Ret h ->
    ascending (offset (_index h))
    /\ Forall (fun o => 12 <= o <= Z.of_nat (length bytes) - 8) (offset (_index h)).
Proof.
  intros bytes h Ho. apply open_shape in Ho as (_ & _ & _ & Hw). exact Hw.
Qed.

(** ** [fetch] on an indexed file *)

Lemma candidate_in_range :
  forall ix total d id l s p,
    length (date ix) = Z.to_nat total -> length (lead ix) = Z.to_nat total ->
    length (id1 ix) = Z.to_nat total -> length (id2 ix) = Z.to_nat total ->
    length (id3 ix) = Z.to_nat total -> length (id4 ix) = Z.to_nat total ->
    In s (candidate_sets ix total d id l) -> In p s -> 0 <= p < total.
Proof.
  intros ix total d id l s p Hd Hl H1 H2 H3 H4 Hs Hp.
  assert (Hcol : forall col v, length col = Z.to_nat total ->
                   In p (np_where_eq col v) -> 0 <= p < total).
  { intros col v Hlen Hin. apply np_where_eq_In in Hin as [H0 Hn].
    assert (Hlt : (Z.to_nat p < length col)%nat)
      by (apply nth_error_Some; rewrite Hn; discriminate).
    lia. }
  assert (Hword : forall col w, length col = Z.to_nat total ->
                    In p (word_set total col w) -> 0 <= p < total).
  { intros col w Hlen Hin. unfold word_set in Hin. destruct (w =? -1).
    - unfold np_arange in Hin. apply py_range_In in Hin. exact Hin.
    - eapply Hcol; eassumption. }
  unfold candidate_sets in Hs. apply in_app_or in Hs as [Hs|Hs].
  - destruct d; [|destruct Hs]. destruct Hs as [<-|[]].
    apply (Hcol _ _ Hd Hp).
  - apply in_app_or in Hs as [Hs|Hs].
    + destruct id; [|destruct Hs].
      destruct Hs as [<-|[<-|[<-|[<-|[]]]]];
        [apply (Hword _ _ H1 Hp)|apply (Hword _ _ H2 Hp)
        |apply (Hword _ _ H3 Hp)|apply (Hword _ _ H4 Hp)].
    + destruct l; [|destruct Hs]. destruct Hs as [<-|[]].
      apply (Hcol _ _ Hl Hp).
Qed.

Lemma record_in_range_Some :
  forall n u h o h',
    1 <= n <= records h ->
    record py3 unpack_raises (Some n) u h = (Ret o, h') -> o <> None.
Proof.
  intros n u h o h' Hn H. rewrite record_in_range in H by assumption.
  apply bind_Ret_inv in H as (l & h1 & _ & H).
  apply bind_Ret_inv in H as (r & h2 & _ & H).
  inversion H. discriminate.
Qed.

Lemma fetch_loop_Some :
  forall u idx acc h rs h',
    (forall i, In i idx -> 0 <= i < records h) ->
    fetch_loop py3 unpack_raises u idx acc h = (Ret rs, h') ->
    exists new, rs = acc ++ new /\ length new = length idx
                /\ Forall (fun r => r <> None) new.
Proof.
  intros u idx. induction idx as [|i idx IH]; intros acc h rs h' Hin H.
  - inversion H; subst. exists []. rewrite app_nil_r. repeat split. constructor.
  - cbn [fetch_loop] in H. apply bind_Ret_inv in H as (r & h1 & Hr & H).
    assert (Hi : 0 <= i < records h) by (apply Hin; left; reflexivity).
    pose proof (record_in_range_Some (i + 1) u h r h1 ltac:(lia) Hr) as Hne.
    pose proof (keeps_record py3 unpack_raises (Some (i + 1)) u h _ _ Hr)
      as (_ & Hrec & _).
    apply IH in H as (new & -> & Hlen & Hall).
    + exists (r :: new). rewrite <- app_assoc. cbn [app length].
      repeat split; [lia|]. constructor; assumption.
    + intros j Hj. rewrite Hrec. apply Hin. right. exact Hj.
Qed.

(** X16. [fetch] on an object that [open] returned reads only records that
    exist: when it returns, the positions it matched lie in [0, records),
    in ascending order without repeats, and it returns one record for each
    of them and no [None]. *)
Theorem fetch_returns_one_record_per_match :
  forall (bytes : list byte) (h h' : handle) (date_ lead_ : option Z)
         (id : option (list Z)) (unpack : bool)
         (recs : list (option tdlpack_record)),
    open py3 bytes = Ret h ->
    fetch py3 unpack_raises date_ id lead_ unpack h = (Ret recs, h') ->
    exists idx,
      fetch_idx date_ id lead_ h = (Ret idx, h)
      /\ ascending idx
      /\ Forall (fun p => 0 <= p < records h) idx
      /\ length recs = length idx
      /\ Forall (fun r => r <> None) recs.
Proof.
  intros bytes h h' d l id u recs Ho H.
  apply open_shape in Ho as (H0 & Hc & _ & _).
  destruct Hc as (_ & _ & Hd & Hl & H1 & H2 & H3 & H4 & _).
  unfold fetch in H. apply bind_Ret_inv in H as (idx & h1 & Hidx & Hloop).
  pose proof (fetch_idx_intersection _ _ _ _ _ _ Hidx) as [-> Hint].
  assert (Hrange : forall p, In p idx -> 0 <= p < records h).
  { intros p Hp. rewrite Hint in Hp. apply intersection_In in Hp as [Hne Hall].
    destruct (candidate_sets (_index h) (records h) d id l) as [|s rest] eqn:E;
      [congruence|].
    apply (candidate_in_range (_index h) (records h) d id l s p); try assumption.
    - rewrite E. left. reflexivity.
    - apply Hall. left. reflexivity. }
  apply fetch_loop_Some in Hloop as (new & -> & Hlen & Hall); [|exact Hrange].
  exists idx. split; [exact Hidx|]. split.
  { rewrite Hint. apply intersection_ascending, candidate_sets_ascending. }
  split; [apply Forall_forall; exact Hrange|].
  split; [exact Hlen|exact Hall].
Qed.

End Capstone.

(** ** Python 3, files without a frame, and what [fetch] matches *)

Lemma aligned_all_some :
  forall col tys,
    aligned col tys -> has_none col = false -> Forall (fun k => k = data) tys.
Proof.
  unfold aligned. induction col as [|c col IH]; intros [|k tys] H Hn;
    try discriminate; constructor.
  - simpl in H. injection H as Hk Hrest. destruct c; [|discriminate].
    destruct k; [reflexivity|discriminate..].
  - simpl in H. injection H as Hk Hrest. apply IH; [exact Hrest|].
    simpl in Hn. apply orb_false_iff in Hn as [_ Hn]. exact Hn.
Qed.

Lemma aligned_all_none :
  forall col tys,
    aligned col tys -> somes col = [] -> Forall (fun k => k <> data) tys.
Proof.
  unfold aligned. induction col as [|c col IH]; intros [|k tys] H Hn;
    try discriminate; constructor.
  - simpl in H. injection H as Hk Hrest. destruct c; [discriminate|].
    destruct k; [discriminate|discriminate..].
  - simpl in H. injection H as Hk Hrest. apply IH; [exact Hrest|].
    destruct c; [discriminate|exact Hn].
Qed.

Lemma sorted_set_nil : forall l, sorted_set l = [] -> l = [].
Proof.
  intros [|x l] H; [reflexivity|].
  assert (Hin : In x (sorted_set (x :: l))) by (apply sorted_set_In; left; reflexivity).
  rewrite H in Hin. destruct Hin.
Qed.

(** X17. Python 3 opens no file that mixes data records with station or
    trailer records: sorting their dates would compare [None] with a
    number. When [open] returns under Python 3, the records of the index
    are all data records, or none of them is. *)
Theorem python3_opens_no_mixed_file :
  forall (bytes : list byte) (h : handle),
    open true bytes = Ret h ->
    Forall (fun k => k = data) (type (_index h))
    \/ Forall (fun k => k <> data) (type (_index h)).
Proof.
  intros bytes h Ho.
  apply open_Ret_inv in Ho as ((_ & _ & Hal & _) & _ & _ & Hd & _).
  unfold py_sorted_set in Hd.
  destruct (has_none (date (_index h))) eqn:Hn.
  - right. destruct (sorted_set (somes (date (_index h)))) eqn:Es; [|discriminate].
    apply sorted_set_nil in Es. eapply aligned_all_none; eassumption.
  - left. eapply aligned_all_some; eassumption.
Qed.

Section Short.

Variable py3 : bool.

(** X18. A file of fewer than four bytes, the empty file among them, opens
    as a file without records: the index is empty, [records] is 0, and
    [dates] and [leadtimes] are empty. *)
Theorem open_file_without_a_frame :
  forall (bytes : list byte),
    (length bytes < 4)%nat ->
    open py3 bytes = Ret (empty_handle bytes).
Proof.
  intros bytes Hlen. unfold open, __init__.
  assert (H : _get_index py3 (mk_handle (mk_file bytes 0) false empty_index 0 0 [] [] [])
              = (Ret tt, empty_handle bytes)).
  { destruct (index_record_at_end py3 0
                (set_index empty_index
                   (mk_handle (mk_file bytes 0) false empty_index 0 0 [] [] [])))
      as [p Hp]; [simpl; lia|].
    unfold _get_index.
    eapply run_bind_Ret; [apply run_modify|cbv beta].
    eapply run_bind_Ret; [apply run_gets|cbv beta].
    eapply run_bind_Ret; [apply (scan_stop _ _ _ _ _ Hp)|cbv beta].
    reflexivity. }
  rewrite H. reflexivity.
Qed.

End Short.

(** ** What [fetch] matches *)

Lemma Forall_option :
  forall (A B : Type) (P : B -> Prop) (f : A -> B) (o : option A),
    Forall P (match o with Some v => [f v] | None => [] end)
    <-> forall v, o = Some v -> P (f v).
Proof.
  intros A B P f [a|]; split.
  - intros H v E. inversion E; subst. inversion H; assumption.
  - intros H. constructor; [apply H; reflexivity|constructor].
  - intros _ v E. discriminate.
  - intros _. constructor.
Qed.

Lemma word_set_In :
  forall total col w p,
    0 <= p < total ->
    (In p (word_set total col w) <-> word_matches col w p).
Proof.
  intros total col w p Hp. unfold word_set, word_matches.
  destruct (w =? -1) eqn:E.
  - apply Z.eqb_eq in E. unfold np_arange. rewrite py_range_In. tauto.
  - apply Z.eqb_neq in E. rewrite np_where_eq_In. split.
    + intros [_ H]. right. exact H.
    + intros [H|H]; [contradiction|]. split; [lia|exact H].
Qed.

Section Matching.

Variable py3 : bool.

(** X19. What [fetch] matches on an object that [open] returned, given at
    least one criterion: exactly the positions [p] of the index, in
    ascending order, at which every criterion given holds, the date equal
    to [date], the lead time equal to [lead], and each of the four
    identifier words equal to the queried word unless that is the wildcard
    [-1]. *)
Theorem fetch_matches_by_columns :
  forall (bytes : list byte) (h h' : handle) (date_ lead_ : option Z)
         (id : option (list Z)) (idx : list Z),
    open py3 bytes = Ret h ->
    fetch_idx date_ id lead_ h = (Ret idx, h') ->
    date_ <> None \/ id <> None \/ lead_ <> None ->
    ascending idx
    /\ forall p,
         In p idx <->
         0 <= p < records h
         /\ (forall v, date_ = Some v ->
                       nth_error (date (_index h)) (Z.to_nat p) = Some (Some v))
         /\ (forall ws, id = Some ws ->
                        word_matches (id1 (_index h)) (nth 0 ws 0) p
                        /\ word_matches (id2 (_index h)) (nth 1 ws 0) p
                        /\ word_matches (id3 (_index h)) (nth 2 ws 0) p
                        /\ word_matches (id4 (_index h)) (nth 3 ws 0) p)
         /\ (forall v, lead_ = Some v ->
                       nth_error (lead (_index h)) (Z.to_nat p) = Some (Some v)).
Proof.
  intros bytes h h' d l id idx Ho H Hcrit.
  apply open_shape in Ho as (H0 & Hc & _ & _).
  destruct Hc as (_ & _ & Hd & Hl & H1 & H2 & H3 & H4 & _).
  apply fetch_idx_intersection in H as [_ ->].
  split; [apply intersection_ascending, candidate_sets_ascending|].
  intros p. rewrite intersection_In.
  assert (Hne : candidate_sets (_index h) (records h) d id l <> []).
  { unfold candidate_sets.
    destruct d; [discriminate|]. destruct id; [discriminate|].
    destruct l; [discriminate|]. destruct Hcrit as [E|[E|E]]; congruence. }
  assert (Hrange : (forall s, In s (candidate_sets (_index h) (records h) d id l) ->
                              In p s) -> 0 <= p < records h).
  { intros Hall.
    destruct (candidate_sets (_index h) (records h) d id l) as [|s rest] eqn:E;
      [congruence|].
    apply (candidate_in_range (_index h) (records h) d id l s p); try assumption.
    - rewrite E. left. reflexivity.
    - apply Hall. left. reflexivity. }
  assert (Hsets : 0 <= p < records h ->
            ((forall s, In s (candidate_sets (_index h) (records h) d id l) -> In p s)
             <-> (forall v, d = Some v ->
                            nth_error (date (_index h)) (Z.to_nat p) = Some (Some v))
                 /\ (forall ws, id = Some ws ->
                        word_matches (id1 (_index h)) (nth 0 ws 0) p
                        /\ word_matches (id2 (_index h)) (nth 1 ws 0) p
                        /\ word_matches (id3 (_index h)) (nth 2 ws 0) p
                        /\ word_matches (id4 (_index h)) (nth 3 ws 0) p)
                 /\ (forall v, l = Some v ->
                            nth_error (lead (_index h)) (Z.to_nat p) = Some (Some v)))).
  { intros Hp. rewrite <- Forall_forall. unfold candidate_sets.
    rewrite !Forall_app.
    rewrite (Forall_option _ _ (fun s => In p s) (fun v => np_where_eq (date (_index h)) v)).
    rewrite (Forall_option _ _ (fun s => In p s) (fun v => np_where_eq (lead (_index h)) v)).
    assert (Hw : forall col v,
              In p (np_where_eq col v) <-> nth_error col (Z.to_nat p) = Some (Some v)).
    { intros col v. rewrite np_where_eq_In. split; [tauto|]. intros E; split; [lia|exact E]. }
    assert (Hid : Forall (fun s => In p s)
                    match id with
                    | Some ws =>
                      [word_set (records h) (id1 (_index h)) (nth 0 ws 0);
                       word_set (records h) (id2 (_index h)) (nth 1 ws 0);
                       word_set (records h) (id3 (_index h)) (nth 2 ws 0);
                       word_set (records h) (id4 (_index h)) (nth 3 ws 0)]
                    | None => []
                    end
                  <-> (forall ws, id = Some ws ->
                        word_matches (id1 (_index h)) (nth 0 ws 0) p
                        /\ word_matches (id2 (_index h)) (nth 1 ws 0) p
                        /\ word_matches (id3 (_index h)) (nth 2 ws 0) p
                        /\ word_matches (id4 (_index h)) (nth 3 ws 0) p)).
    { destruct id as [ws|]; split.
      - intros HF ws' E. inversion E; subst ws'.
        inversion HF as [|? ? Ha HF1]; subst. inversion HF1 as [|? ? Hb HF2]; subst.
        inversion HF2 as [|? ? Hc HF3]; subst. inversion HF3 as [|? ? Hd' _]; subst.
        rewrite <- !(word_set_In (records h)) by exact Hp. auto.
      - intros HF. destruct (HF ws eq_refl) as (Ha & Hb & Hc & Hd').
        rewrite <- !(word_set_In (records h)) in Ha, Hb, Hc, Hd' by exact Hp.
        repeat constructor; assumption.
      - intros _ ws E. discriminate.
      - intros _. constructor. }
    rewrite Hid.
    split.
    - intros (Ha & Hb & Hc). split; [|split; [exact Hb|]].
      + intros v E. apply Hw. apply Ha. exact E.
      + intros v E. apply Hw. apply Hc. exact E.
    - intros (Ha & Hb & Hc). split; [|split; [exact Hb|]].
      + intros v E. apply Hw. apply Ha. exact E.
      + intros v E. apply Hw. apply Hc. exact E. }
  split.
  - intros [_ Hall]. pose proof (Hrange Hall) as Hp.
    split; [exact Hp|]. apply Hsets; assumption.
  - intros [Hp Hcols]. split; [exact Hne|]. apply Hsets; assumption.
Qed.

End Matching.

(** ** The lead time of a data record *)

Lemma of_uint_acc_value :
  forall d acc, Z.pos (Pos.of_uint_acc d acc) = digits_value d (Z.pos acc).
Proof.
  induction d; intros acc; cbn [Pos.of_uint_acc digits_value]; try reflexivity;
    rewrite IHd; f_equal; rewrite ?Pos2Z.inj_add, Pos2Z.inj_mul; lia.
Qed.

Lemma of_uint_value : forall d, Z.of_uint d = digits_value d 0.
Proof.
  unfold Z.of_uint.
  induction d; cbn [Pos.of_uint digits_value Z.of_N]; try reflexivity;
    try exact IHd; apply of_uint_acc_value.
Qed.

Lemma digits_value_acc :
  forall d acc,
    digits_value d acc = acc * 10 ^ Z.of_nat (Decimal.nb_digits d) + digits_value d 0.
Proof.
  induction d; intros acc; cbn [digits_value Decimal.nb_digits];
    try (rewrite Z.pow_0_r; lia);
    rewrite Nat2Z.inj_succ, Z.pow_succ_r by lia;
    rewrite (IHd (10 * acc)) || rewrite (IHd (10 * acc + _));
    rewrite (IHd (10 * 0)) || rewrite (IHd (10 * 0 + _)); lia.
Qed.

Lemma digits_value_bound :
  forall d, 0 <= digits_value d 0 < 10 ^ Z.of_nat (Decimal.nb_digits d).
Proof.
  induction d; cbn [digits_value Decimal.nb_digits];
    try (rewrite Z.pow_0_r; lia);
    rewrite Nat2Z.inj_succ, Z.pow_succ_r by lia;
    rewrite digits_value_acc; lia.
Qed.

(** The digits behind the first [m] spell the number modulo the power of
    ten of their count. *)
Lemma digits_value_del_head :
  forall m d acc,
    (m <= Decimal.nb_digits d)%nat -> 0 <= acc ->
    digits_value (Decimal.del_head m d) 0
    = digits_value d acc mod 10 ^ Z.of_nat (Decimal.nb_digits d - m).
Proof.
  induction m as [|m IH]; intros d acc Hm Hacc.
  - cbn [Decimal.del_head]. rewrite Nat.sub_0_r, (digits_value_acc d acc).
    pose proof (digits_value_bound d) as Hb.
    replace (acc * 10 ^ Z.of_nat (Decimal.nb_digits d) + digits_value d 0)
      with (digits_value d 0 + acc * 10 ^ Z.of_nat (Decimal.nb_digits d)) by lia.
    rewrite Z_mod_plus_full. symmetry. apply Z.mod_small. exact Hb.
  - destruct d; cbn [Decimal.nb_digits] in Hm; try lia;
      cbn [Decimal.del_head digits_value Decimal.nb_digits];
      rewrite Nat.sub_succ; apply IH; lia.
Qed.

Lemma string_of_uint_length :
  forall d, String.length (NilEmpty.string_of_uint d) = Decimal.nb_digits d.
Proof. induction d; simpl; congruence. Qed.

Lemma substring_all :
  forall s k, (String.length s <= k)%nat -> substring 0 k s = s.
Proof.
  induction s as [|c s IH]; intros k Hk; destruct k; simpl in *;
    try reflexivity; try lia.
  rewrite IH by lia. reflexivity.
Qed.

Lemma substring_del_head :
  forall m d k,
    (m <= Decimal.nb_digits d)%nat -> (Decimal.nb_digits d <= m + k)%nat ->
    substring m k (NilEmpty.string_of_uint d)
    = NilEmpty.string_of_uint (Decimal.del_head m d).
Proof.
  induction m as [|m IH]; intros d k Hm Hk.
  - cbn [Decimal.del_head]. apply substring_all.
    rewrite string_of_uint_length. lia.
  - destruct d; cbn [Decimal.nb_digits] in Hm, Hk; try lia;
      cbn [Decimal.del_head NilEmpty.string_of_uint substring]; apply IH; lia.
Qed.

Lemma int_of_string_digits :
  forall d,
    d <> Decimal.Nil ->
    NilZero.int_of_string (NilEmpty.string_of_uint d) = Some (Decimal.Pos d).
Proof.
  intros d Hd. pose proof (NilEmpty.usu d) as Hu.
  destruct d; try contradiction; cbn [NilEmpty.string_of_uint] in *;
    unfold NilZero.int_of_string, NilZero.uint_of_string;
    cbn [Ascii.eqb Bool.eqb]; rewrite Hu; reflexivity.
Qed.

(** The digits of a number that is not negative. *)
Lemma to_int_digits :
  forall v,
    0 <= v ->
    exists d,
      d <> Decimal.Nil /\ digits_value d 0 = v
      /\ NilZero.string_of_int (Z.to_int v) = NilEmpty.string_of_uint d.
Proof.
  intros [|p|p] Hv; [| |lia].
  - exists (Decimal.D0 Decimal.Nil). repeat split. discriminate.
  - exists (Pos.to_uint p).
    assert (Hval : Z.of_uint (Pos.to_uint p) = Z.pos p).
    { unfold Z.of_uint. rewrite DecimalPos.Unsigned.of_to. reflexivity. }
    assert (Hne : Pos.to_uint p <> Decimal.Nil).
    { intros E. rewrite E in Hval. discriminate. }
    split; [exact Hne|]. split; [rewrite <- of_uint_value; exact Hval|].
    cbn [Z.to_int NilZero.string_of_int]. unfold NilZero.string_of_uint.
    destruct (Pos.to_uint p); try reflexivity. contradiction.
Qed.

(** [int(str(v)[-3:])] for a number that is not negative. *)
Lemma int_of_last3_mod :
  forall v, 0 <= v -> int_of_last3 v = Ret (v mod 1000).
Proof.
  intros v Hv. unfold int_of_last3, last3.
  destruct (to_int_digits v Hv) as (d & Hne & Hval & ->).
  rewrite string_of_uint_length.
  assert (Hn : (1 <= Decimal.nb_digits d)%nat).
  { destruct (Decimal.nb_digits d) eqn:E; [|lia].
    apply DecimalFacts.nb_digits_0 in E. contradiction. }
  rewrite substring_del_head by lia.
  rewrite int_of_string_digits
    by (apply DecimalFacts.del_head_nonnil; lia).
  cbn [Z.of_int]. rewrite of_uint_value.
  rewrite (digits_value_del_head _ d 0) by lia. rewrite Hval.
  f_equal.
  destruct (Nat.le_gt_cases 3 (Decimal.nb_digits d)) as [H3|H3].
  - replace (Decimal.nb_digits d - (Decimal.nb_digits d - 3))%nat with 3%nat by lia.
    reflexivity.
  - replace (Decimal.nb_digits d - (Decimal.nb_digits d - 3))%nat
      with (Decimal.nb_digits d) by lia.
    pose proof (digits_value_bound d) as Hb. rewrite Hval in Hb.
    assert (Hp : 10 ^ Z.of_nat (Decimal.nb_digits d) <= 10 ^ 3)
      by (apply Z.pow_le_mono_r; lia).
    rewrite !Z.mod_small; [reflexivity| |]; lia.
Qed.

(** X20. The lead time of a data record is the number of the last three
    decimal digits of word 9 of its head: for a word that is not negative,
    [int(str(word)[-3:])] never raises and is the word modulo 1000. *)
Theorem lead_is_the_last_three_digits :
  forall (v : Z), 0 <= v -> int_of_last3 v = Ret (v mod 1000).
Proof. exact int_of_last3_mod. Qed.

Lemma lead_is_the_last_three_digits_witness :
  int_of_last3 1234006 = Ret (1234006 mod 1000).
Proof. apply (lead_is_the_last_three_digits 1234006). lia. Defined.

(** ** Files that [open] accepts *)

Lemma py_index_nth_Ret :
  forall (l : list Z) (k : nat),
    (k < length l)%nat -> py_index l (Z.of_nat k) = Ret (nth k l 0).
Proof.
  intros l k Hk. apply py_index_ok; [lia|].
  rewrite Nat2Z.id. apply nth_error_nth'. exact Hk.
Qed.

Section Accepts.

Variable py3 : bool.

Lemma catalog_frame_ok :
  forall p last h,
    frame_ok py3 p ->
    exists h', catalog py3 (head_words p) last h = (Ret tt, h').
Proof.
  intros p last h (_ & _ & H3 & Hdec & Hk). cbv zeta in *.
  set (temp := head_words p) in *.
  assert (E2 : py_index temp 2 = Ret (nth 2 temp 0))
    by (apply (py_index_nth_Ret temp 2); lia).
  assert (E1 : py_index temp 1 = Ret (nth 1 temp 0))
    by (apply (py_index_nth_Ret temp 1); lia).
  unfold entry_kind in Hk.
  destruct (bytes_eqb (scalar_buffer (nth 2 temp 0)) PLDT) eqn:Eb.
  - destruct Hk as [H11 H9].
    rewrite (catalog_PLDT py3 temp last h _ _ E2 Hdec Eb).
    eexists.
    apply (catalog_data_eq temp last h (nth 1 temp 0) (nth 6 temp 0) (nth 7 temp 0)
             (nth 8 temp 0) (nth 9 temp 0) (nth 10 temp 0) (nth 9 temp 0 mod 1000)).
    + exact E1.
    + apply (py_index_nth_Ret temp 6); lia.
    + apply (py_index_nth_Ret temp 7); lia.
    + apply (py_index_nth_Ret temp 8); lia.
    + apply (py_index_nth_Ret temp 9); lia.
    + apply (py_index_nth_Ret temp 10); lia.
    + apply int_of_last3_mod. exact H9.
  - destruct (Z.eq_dec (nth 1 temp 0) 24) as [E24|Hne].
    + assert (H7 : (7 <= length temp)%nat).
      { destruct ((nth 1 temp 0 =? 24) && (nth 6 temp 0 =? 9999)); apply Hk, E24. }
      assert (E6 : py_index temp 6 = Ret (nth 6 temp 0))
        by (apply (py_index_nth_Ret temp 6); lia).
      rewrite E24 in E1.
      destruct (Z.eq_dec (nth 6 temp 0) 9999) as [E9|Hne6].
      * rewrite E9 in E6. eexists.
        apply (catalog_trailer_case py3 temp last h _ _ E2 Hdec Eb E1 E6).
      * eexists.
        apply (catalog_station_case py3 temp last h _ _ 24 E2 Hdec Eb E1).
        right. eauto.
    + eexists.
      apply (catalog_station_case py3 temp last h _ _ _ E2 Hdec Eb E1).
      left. exact Hne.
Qed.

(** A pass over a frame that can be catalogued goes on. *)
Lemma index_record_frame_ok :
  forall h pre p rest last,
    frame_ok py3 p ->
    contents (_fh h) = pre ++ frame p ++ rest ->
    position (_fh h) = length pre ->
    exists last' h',
      index_record py3 last h = (Ret last', h')
      /\ contents (_fh h') = contents (_fh h)
      /\ position (_fh h') = (length pre + 8 + length p)%nat.
Proof.
  intros h pre p rest last Hok Hc Hp.
  pose proof Hok as (HL & Hmod & _).
  assert (Hc' : contents (_fh h) =
                pre ++ pack_i (Z.of_nat (length p)) ++ p
                    ++ pack_i (Z.of_nat (length p)) ++ rest).
  { rewrite Hc. unfold frame. rewrite <- !app_assoc. reflexivity. }
  pose proof (pack_i_length (Z.of_nat (length p))) as Htr.
  pose proof (np_frombuffer_Ret _ Hmod) as Hfb.
  destruct (catalog_frame_ok p last
              (at_position (length pre + 4 + length (firstn 44 p)) h) Hok)
    as [h2 Hcat].
  pose proof (catalog_entry py3 _ _ _ _ Hcat) as Hent. rewrite Hent in Hcat.
  assert (Ht : struct_unpack_i (pack_i (Z.of_nat (length p))) = Ret (Z.of_nat (length p)))
    by (apply unpack_pack_i; lia).
  pose proof (index_record_tail py3 h pre p _ rest last Hc' Hp HL Htr
                _ _ _ _ _ _ _ _ _ _ Hfb Hcat Ht) as Hrun.
  rewrite Z.eqb_refl in Hrun.
  do 2 eexists. split; [exact Hrun|]. split; reflexivity.
Qed.

(** The loop over frames that can be catalogued ends normally. *)
Lemma scan_frames_ok :
  forall payloads fuel last h pre tail,
    Forall (frame_ok py3) payloads ->
    (length tail < 4)%nat ->
    contents (_fh h) = pre ++ concat (map frame payloads) ++ tail ->
    position (_fh h) = length pre ->
    (length payloads < fuel)%nat ->
    exists h', scan py3 fuel last h = (Ret tt, h').
Proof.
  induction payloads as [|p ps IH];
    intros fuel last h pre tail Hok Htail Hc Hp Hfuel;
    (destruct fuel as [|fuel]; [simpl in Hfuel; lia|]).
  - destruct (index_record_at_end py3 last h) as [q H].
    { rewrite Hc, Hp, length_app. simpl. lia. }
    rewrite (scan_stop _ _ _ _ _ H). eauto.
  - inversion Hok as [|? ? Hp0 Hrest]; subst.
    assert (Hc1 : contents (_fh h) = pre ++ frame p ++ (concat (map frame ps) ++ tail)).
    { rewrite Hc, frames_cons, <- !app_assoc. reflexivity. }
    destruct (index_record_frame_ok h pre p _ last Hp0 Hc1 Hp)
      as (last' & h1 & H & Hc2 & Hp2).
    rewrite (scan_continue _ _ _ _ _ _ H).
    apply (IH fuel last' h1 (pre ++ frame p) tail Hrest Htail).
    + rewrite Hc2, Hc1, <- !app_assoc. reflexivity.
    + rewrite Hp2, length_app, frame_length. lia.
    + simpl in Hfuel. lia.
Qed.

Lemma has_none_map_false :
  forall (A : Type) (f : A -> option Z) (l : list A),
    Forall (fun a => f a <> None) l -> has_none (map f l) = false.
Proof.
  intros A f l H. induction H as [|a l Ha _ IH]; [reflexivity|].
  cbn [map]. unfold has_none in *. cbn [existsb]. rewrite IH.
  destruct (f a); [reflexivity|contradiction].
Qed.

Lemma somes_map_nil :
  forall (A : Type) (f : A -> option Z) (l : list A),
    Forall (fun a => f a = None) l -> somes (map f l) = [].
Proof.
  intros A f l H. induction H as [|a l Ha _ IH]; [reflexivity|].
  cbn [map somes]. rewrite Ha. exact IH.
Qed.

Lemma py_sorted_set_returns :
  forall col,
    py3 = false \/ has_none col = false \/ somes col = [] ->
    exists l, py_sorted_set py3 col = Ret l.
Proof.
  intros col H. unfold py_sorted_set.
  destruct (has_none col) eqn:Hn; [|eauto].
  destruct (sorted_set (somes col)) eqn:Es; [eauto|].
  destruct H as [->|[H|H]]; [eauto|discriminate|].
  rewrite H in Es. discriminate.
Qed.

(** X21. Files that [open] accepts. A file of frames whose payloads can each
    be catalogued, followed by fewer than four bytes, is opened: [open]
    returns an object, under Python 2 always, under Python 3 when the
    records are all data records or none of them is. *)
Theorem open_accepts_well_formed_files :
  forall (payloads : list (list byte)) (tail : list byte),
    Forall (frame_ok py3) payloads ->
    (length tail < 4)%nat ->
    py3 = false
    \/ Forall (fun p => entry_kind (head_words p) = data) payloads
    \/ Forall (fun p => entry_kind (head_words p) <> data) payloads ->
    exists h, open py3 (concat (map frame payloads) ++ tail) = Ret h.
Proof.
  intros payloads tail Hok Htail Hmix.
  set (bytes := concat (map frame payloads) ++ tail).
  set (h0 := set_index empty_index (fresh_handle bytes)).
  destruct (scan_frames_ok payloads (S (length bytes)) 0 h0 [] tail Hok Htail
              eq_refl eq_refl) as [h3 Hscan].
  { pose proof (frames_length payloads) as Hlen. subst bytes.
    rewrite length_app. lia. }
  assert (Hsmall : Forall (fun p => Z.of_nat (length p) < 2 ^ 31) payloads).
  { eapply Forall_impl; [|exact Hok]. intros p Hp. apply Hp. }
  destruct (scan_frames py3 payloads _ 0 h0 [] tail h3 Hsmall Htail eq_refl eq_refl Hscan)
    as (_ & _ & _ & _ & Hd & Hl & _).
  change (date (_index h0)) with (@nil (option Z)) in Hd.
  change (lead (_index h0)) with (@nil (option Z)) in Hl.
  cbn [app] in Hd, Hl.
  assert (Hdata : forall p, frame_ok py3 p -> entry_kind (head_words p) = data ->
                            entry_date (head_words p) <> None
                            /\ entry_lead (head_words p) <> None).
  { intros p (_ & _ & _ & _ & Hk) E. cbv zeta in Hk. rewrite E in Hk.
    unfold entry_date, entry_lead. rewrite E.
    rewrite (int_of_last3_mod _ (proj2 Hk)). split; discriminate. }
  assert (Hother : forall p, entry_kind (head_words p) <> data ->
                             entry_date (head_words p) = None
                             /\ entry_lead (head_words p) = None).
  { intros p E. unfold entry_date, entry_lead.
    destruct (entry_kind (head_words p)); [contradiction|split; reflexivity..]. }
  assert (Hcols : forall f : list Z -> option Z,
            (forall p, frame_ok py3 p -> entry_kind (head_words p) = data ->
                       f (head_words p) <> None) ->
            (forall p, entry_kind (head_words p) <> data -> f (head_words p) = None) ->
            exists l, py_sorted_set py3 (map (fun p => f (head_words p)) payloads) = Ret l).
  { intros f Hfd Hfo. apply py_sorted_set_returns.
    destruct Hmix as [E|[Hall|Hall]]; [left; exact E|right; left|right; right].
    - apply has_none_map_false. apply Forall_forall. intros p Hin.
      rewrite Forall_forall in Hall, Hok. apply Hfd; auto.
    - apply somes_map_nil. apply Forall_forall. intros p Hin.
      rewrite Forall_forall in Hall. apply Hfo; auto. }
  destruct (Hcols entry_date) as [ds Hds];
    [intros; apply Hdata; assumption|intros; apply Hother; assumption|].
  destruct (Hcols entry_lead) as [ls Hls];
    [intros; apply Hdata; assumption|intros; apply Hother; assumption|].
  rewrite <- Hd in Hds. rewrite <- Hl in Hls.
  eexists. unfold open, __init__.
  assert (Hget : _get_index py3 (fresh_handle bytes)
                 = (Ret tt, set_leadtimes ls (set_dates ds (set_hasindex true h3)))).
  { unfold _get_index.
    eapply run_bind_Ret; [apply run_modify|cbv beta].
    eapply run_bind_Ret; [apply run_gets|cbv beta].
    eapply run_bind_Ret; [exact Hscan|cbv beta].
    eapply run_bind_Ret; [apply run_modify|cbv beta].
    eapply run_bind_Ret.
    { eapply run_bind_Ret; [apply run_gets|cbv beta]. apply run_lift. exact Hds. }
    cbv beta.
    eapply run_bind_Ret; [apply run_modify|cbv beta].
    eapply run_bind_Ret.
    { eapply run_bind_Ret; [apply run_gets|cbv beta]. apply run_lift. exact Hls. }
    cbv beta. apply run_modify. }
  change (mk_handle (mk_file bytes 0) false empty_index 0 0 [] [] [])
    with (fresh_handle bytes).
  rewrite Hget. reflexivity.
Qed.

End Accepts.

(** ** The properties at the example files *)

Lemma access_keeps_the_index_witness :
  same_index example_handle
    (snd (record false decoder_ok (Some 2) true example_handle)).
Proof.
  apply (proj1 (proj2 (proj2 (access_keeps_the_index false decoder_ok 2 None (Some 2)
                                 None None None true)))
           example_handle
           (fst (record false decoder_ok (Some 2) true example_handle))).
  apply surjective_pairing.
Defined.

Lemma seek_edge_cases_witness :
  seek (-3) example_handle = (Ret tt, example_handle)
  /\ seek 0 example_handle = seek 1 example_handle
  /\ seek 7 example_handle = (Raise IndexError, example_handle).
Proof.
  destruct (seek_edge_cases example_handle (-3)) as (A & B & _).
  destruct (seek_edge_cases example_handle 7) as (_ & _ & C).
  split; [apply A; left; lia|]. split; [exact B|].
  apply C; [reflexivity|lia|vm_compute; reflexivity].
Defined.

Lemma seek_positions_the_file_witness :
  seek 2 example_handle
  = (Ret tt, set_recordnumber (2 - 1) (at_position (Z.to_nat 36) example_handle)).
Proof.
  apply (seek_positions_the_file example_handle 2 36);
    [reflexivity|lia|vm_compute; reflexivity|lia].
Defined.

Lemma read_returns_k_records_witness :
  exists recs h',
    read false decoder_ok (Some 2) false example_handle = (Ret recs, h')
    /\ Z.of_nat (length recs) = 2
    /\ exists c, tell example_handle = (Ret c, example_handle)
                 /\ tell h' = (Ret (c + 2), h').
Proof.
  eexists. eexists. split; [vm_compute; reflexivity|].
  apply (read_returns_k_records false decoder_ok example_handle _ 2 false _);
    [lia|vm_compute; reflexivity].
Defined.

Lemma read_in_two_parts_witness :
  read false decoder_ok (Some (1 + 2)) false example_handle =
  (l1 <- read false decoder_ok (Some 1) false ;;
   l2 <- read false decoder_ok (Some 2) false ;;
   ret (l1 ++ l2)) example_handle.
Proof.
  apply (read_in_two_parts false decoder_ok example_handle 1 2 false); lia.
Defined.

Lemma read_at_the_end_raises_witness :
  read false decoder_ok (Some 1) true (set_recordnumber 3 example_handle)
  = (Raise IndexError, set_recordnumber 3 example_handle).
Proof.
  apply (read_at_the_end_raises false decoder_ok (set_recordnumber 3 example_handle)
           1 true); [reflexivity|lia|vm_compute; discriminate].
Defined.

Lemma record_reads_the_indexed_bytes_witness :
  let got := firstn (Z.to_nat 36)
               (skipn (Z.to_nat 36) (contents (_fh example_handle))) in
  let r := built_record data 36 (words got) (Some 2020010100) in
  record false decoder_ok (Some 2) true example_handle =
  (Ret (Some (if true then mark_unpacked r else r)),
   set_recordnumber 2 (at_position (Z.to_nat 36 + length got) example_handle)).
Proof.
  apply (record_reads_the_indexed_bytes false decoder_ok example_handle 2 36 36 data
           (Some 2020010100) true).
  - reflexivity.
  - vm_compute. split; discriminate.
  - vm_compute. reflexivity.
  - lia.
  - vm_compute. reflexivity.
  - lia.
  - vm_compute. reflexivity.
  - intros _. vm_compute. reflexivity.
  - vm_compute. reflexivity.
  - intros _. reflexivity.
Defined.

Lemma record_without_offset_raises_witness :
  record false decoder_ok (Some 2) true truncated_handle
  = (Raise IndexError, truncated_handle).
Proof.
  apply (record_without_offset_raises false decoder_ok truncated_handle 2 true).
  - vm_compute. reflexivity.
  - vm_compute. split; discriminate.
  - vm_compute. reflexivity.
Defined.

Lemma next_is_the_record_after_the_cursor_witness :
  __next__ false decoder_ok example_handle =
  if recordnumber example_handle <? records example_handle then
    (o <- record false decoder_ok (Some (recordnumber example_handle + 1)) true ;;
     ret (match o with Some r => Next r | None => StopIteration end)) example_handle
  else (Ret StopIteration, example_handle).
Proof.
  apply (next_is_the_record_after_the_cursor false decoder_ok example_handle).
  vm_compute. discriminate.
Defined.

Lemma fetch_rejects_a_bad_identifier_witness :
  fetch false decoder_ok None (Some [1; 2]) None true example_handle
  = (Raise IndexError, example_handle)
  /\ fetch false decoder_ok None (Some [1; -5; 2; 3]) None true example_handle
     = (Raise UnboundLocalError, example_handle).
Proof.
  split.
  - apply (proj1 (fetch_rejects_a_bad_identifier false decoder_ok example_handle
                    None None [1; 2] true)).
    simpl. lia.
  - apply (proj2 (fetch_rejects_a_bad_identifier false decoder_ok example_handle
                    None None [1; -5; 2; 3] true)).
    + simpl. lia.
    + simpl. apply Exists_cons_tl, Exists_cons_hd. lia.
Defined.

Lemma open_indexes_every_frame_witness :
  records example_handle = Z.of_nat (length example_payloads)
  /\ offset (_index example_handle) = frame_offsets 0 example_payloads
  /\ size (_index example_handle) = map (fun p => nth 1 (head_words p) 0) example_payloads
  /\ type (_index example_handle)
     = map (fun p => entry_kind (head_words p)) example_payloads
  /\ date (_index example_handle)
     = map (fun p => entry_date (head_words p)) example_payloads
  /\ lead (_index example_handle)
     = map (fun p => entry_lead (head_words p)) example_payloads
  /\ id1 (_index example_handle)
     = map (fun p => entry_id 7 400001000 (head_words p)) example_payloads
  /\ id2 (_index example_handle)
     = map (fun p => entry_id 8 0 (head_words p)) example_payloads
  /\ id3 (_index example_handle)
     = map (fun p => entry_id 9 0 (head_words p)) example_payloads
  /\ id4 (_index example_handle)
     = map (fun p => entry_id 10 0 (head_words p)) example_payloads
  /\ _fh example_handle = mk_file (concat (map frame example_payloads) ++ []) 0
  /\ recordnumber example_handle = 0 /\ _hasindex example_handle = true.
Proof.
  apply (open_indexes_every_frame false example_payloads [] example_handle).
  - repeat constructor; vm_compute; reflexivity.
  - simpl. lia.
  - vm_compute. reflexivity.
Defined.

Lemma record_returns_the_frame_witness :
  let n := Z.of_nat (length [station_payload]) + 1 in
  let ioctet := nth 1 (head_words data_payload) 0 in
  let body := firstn (Z.to_nat ioctet) (skipn 8 data_payload) in
  let r := built_record (entry_kind (head_words data_payload)) ioctet (words body)
                        (entry_date (head_words data_payload)) in
  record false decoder_ok (Some n) true example_handle =
  (Ret (Some (if true then mark_unpacked r else r)),
   set_recordnumber n
     (at_position (length (concat (map frame [station_payload])) + 12
                   + Z.to_nat ioctet) example_handle)).
Proof.
  apply (record_returns_the_frame false decoder_ok [station_payload] [trailer_payload]
           data_payload [] example_handle true).
  - repeat constructor; vm_compute; reflexivity.
  - simpl. lia.
  - vm_compute. reflexivity.
  - vm_compute. split; discriminate.
  - vm_compute. reflexivity.
  - intros _. reflexivity.
Defined.

Lemma index_has_one_entry_per_record_witness :
  0 <= records truncated_handle
  /\ columns_have (Z.to_nat (records truncated_handle)) (_index truncated_handle)
  /\ (length (offset (_index truncated_handle)) = Z.to_nat (records truncated_handle)
      \/ S (length (offset (_index truncated_handle)))
         = Z.to_nat (records truncated_handle)).
Proof.
  apply (index_has_one_entry_per_record false truncated_file truncated_handle).
  vm_compute. reflexivity.
Defined.

Lemma offsets_ascend_within_the_file_witness :
  ascending (offset (_index example_handle))
  /\ Forall (fun o => 12 <= o <= Z.of_nat (length example_file) - 8)
            (offset (_index example_handle)).
Proof.
  apply (offsets_ascend_within_the_file false example_file example_handle).
  vm_compute. reflexivity.
Defined.

Lemma fetch_returns_one_record_per_match_witness :
  exists recs h',
    fetch false decoder_ok (Some 2020010100) None None true example_handle
    = (Ret recs, h')
    /\ exists idx,
         fetch_idx (Some 2020010100) None None example_handle = (Ret idx, example_handle)
         /\ ascending idx
         /\ Forall (fun p => 0 <= p < records example_handle) idx
         /\ length recs = length idx
         /\ Forall (fun r => r <> None) recs.
Proof.
  eexists. eexists. split; [vm_compute; reflexivity|].
  apply (fetch_returns_one_record_per_match false decoder_ok example_file
           example_handle
           (snd (fetch false decoder_ok (Some 2020010100) None None true
                   example_handle))
           (Some 2020010100) None None true _);
    vm_compute; reflexivity.
Defined.

Lemma python3_opens_no_mixed_file_witness :
  Forall (fun k => k = data) (type (_index station_handle))
  \/ Forall (fun k => k <> data) (type (_index station_handle)).
Proof.
  apply (python3_opens_no_mixed_file example_station station_handle).
  vm_compute. reflexivity.
Defined.

Lemma open_file_without_a_frame_witness :
  open false [x00; x00; x00] = Ret (empty_handle [x00; x00; x00]).
Proof.
  apply (open_file_without_a_frame false [x00; x00; x00]). simpl. lia.
Defined.

Lemma fetch_matches_by_columns_witness :
  ascending [1]
  /\ forall p,
       In p [1] <->
       0 <= p < records example_handle
       /\ (forall v, Some 2020010100 = Some v ->
                     nth_error (date (_index example_handle)) (Z.to_nat p)
                     = Some (Some v))
       /\ (forall ws, Some [-1; 2; -1; -1] = Some ws ->
                      word_matches (id1 (_index example_handle)) (nth 0 ws 0) p
                      /\ word_matches (id2 (_index example_handle)) (nth 1 ws 0) p
                      /\ word_matches (id3 (_index example_handle)) (nth 2 ws 0) p
                      /\ word_matches (id4 (_index example_handle)) (nth 3 ws 0) p)
       /\ (forall v, @None Z = Some v ->
                     nth_error (lead (_index example_handle)) (Z.to_nat p)
                     = Some (Some v)).
Proof.
  apply (fetch_matches_by_columns false example_file example_handle example_handle
           (Some 2020010100) None (Some [-1; 2; -1; -1]) [1]).
  - vm_compute. reflexivity.
  - vm_compute. reflexivity.
  - left. discriminate.
Defined.

Lemma open_accepts_well_formed_files_witness :
  exists h, open false (concat (map frame example_payloads) ++ []) = Ret h.
Proof.
  apply (open_accepts_well_formed_files false example_payloads []).
  - repeat constructor; try (vm_compute; reflexivity);
      try (vm_compute; discriminate); try (vm_compute; lia).
  - simpl. lia.
  - left. reflexivity.
Defined.

(** ** The end of the file at the top of a pass *)









End TdlpackIO.
